(** * vafast-static: route generation and conditional caching

    A shallow embedding of [src/index.ts] (the [staticPlugin] route
    builder and the handlers it closes over), together with the
    properties of its specification.

    Strings are byte strings (a JavaScript string is read through its
    UTF-8 encoding); a JavaScript object used as a record of headers is
    the list of its properties in property order, and the headers of a
    response are what [Headers] makes of it; the file system, the clock
    and the absent [./cache]
    module are oracles of a [World]; rejected promises and thrown
    exceptions are an explicit [Threw] outcome. *)

From Stdlib Require Import Ascii String ZArith List Lia Bool.
From stdpp Require Import base option gmap strings list pretty.

Local Open Scope Z_scope.
Local Open Scope stdpp_scope.

(** ** JavaScript string primitives used by the plugin *)

Module Js.

(** [s.startsWith(p)] *)
Fixpoint startsWith (s p : string) : bool :=
  match p, s with
  | EmptyString, _ => true
  | String _ _, EmptyString => false
  | String a p', String b s' => Ascii.eqb a b && startsWith s' p'
  end.

(** [s.slice(n)] for [0 <= n] *)
Fixpoint drop (n : nat) (s : string) : string :=
  match n, s with
  | O, _ => s
  | S _, EmptyString => EmptyString
  | S n', String _ s' => drop n' s'
  end.

(** [s.includes(p)]: [p] occurs somewhere inside [s]. *)
Fixpoint includes (s p : string) : bool :=
  startsWith s p ||
  match s with
  | EmptyString => false
  | String _ s' => includes s' p
  end.

(** [s.replace(pat, rep)] with a string pattern: only the first
    occurrence is replaced ([rep] holds no [$] pattern here). *)
Fixpoint replace (s pat rep : string) : string :=
  if startsWith s pat then rep +:+ drop (String.length pat) s
  else match s with
       | EmptyString => EmptyString
       | String c s' => String c (replace s' pat rep)
       end.

(** [s.endsWith(suf)] *)
Definition endsWith (s suf : string) : bool :=
  (String.length suf <=? String.length s)%nat &&
  String.eqb (drop (String.length s - String.length suf) s) suf.

(** [s.split(c)] for a one-character separator: never the empty array. *)
Fixpoint split (c : ascii) (s : string) : list string :=
  match s with
  | EmptyString => [EmptyString]
  | String a s' =>
      if Ascii.eqb a c then EmptyString :: split c s'
      else match split c s' with
           | w :: ws => String a w :: ws
           | [] => [String a EmptyString]
           end
  end.

(** [l.join(sep)] *)
Fixpoint join (sep : string) (l : list string) : string :=
  match l with
  | [] => EmptyString
  | [w] => w
  | w :: ws => w +:+ sep +:+ join sep ws
  end.

(** [l.splice(-1)] as a statement: the array loses its last element. *)
Definition splice_last (l : list string) : list string := removelast l.

(** Template rendering of a number, [`${n}`], for a safe integer
    (below [2^53] in absolute value): a number the language holds
    exactly and prints in plain decimal.  A fraction, or an integer from
    [10^21] on, is printed in another form and is outside of what this
    function describes. *)
Definition number_to_string (n : Z) : string := pretty n.

End Js.

(** ** [path.join] of Node's posix flavour

    The plugin calls [join(prefix, relativePath)] only when the platform
    separator is ["/"].  [normalizeSegments] is the segment-level reading
    of Node's [normalizeString]: empty and ["."] segments vanish, [".."]
    removes the segment before it, or is kept when the path is relative
    and nothing is left to remove. *)

Module PosixPath.

Definition slash : ascii := "/"%char.

Fixpoint normalizeSegments (allowAboveRoot : bool)
    (acc : list string) (segs : list string) : list string :=
  match segs with
  | [] => rev acc
  | seg :: rest =>
      if String.eqb seg "" || String.eqb seg "." then
        normalizeSegments allowAboveRoot acc rest
      else if String.eqb seg ".." then
        match acc with
        | last :: acc' =>
            if String.eqb last ".."
            then normalizeSegments allowAboveRoot (".." :: acc) rest
            else normalizeSegments allowAboveRoot acc' rest
        | [] =>
            if allowAboveRoot
            then normalizeSegments allowAboveRoot [".."] rest
            else normalizeSegments allowAboveRoot [] rest
        end
      else normalizeSegments allowAboveRoot (seg :: acc) rest
  end.

Definition normalize (path : string) : string :=
  if String.eqb path "" then "."
  else
    let isAbsolute := Js.startsWith path "/" in
    let trailingSeparator := Js.endsWith path "/" in
    let p := Js.join "/"
               (normalizeSegments (negb isAbsolute) [] (Js.split slash path)) in
    if String.eqb p "" then
      if isAbsolute then "/" else if trailingSeparator then "./" else "."
    else
      let p := if trailingSeparator then p +:+ "/" else p in
      if isAbsolute then "/" +:+ p else p.

(** [join(a, b)]: the non-empty arguments glued by ["/"], normalized;
    ["."] when both are empty. *)
Definition join (a b : string) : string :=
  match String.eqb a "", String.eqb b "" with
  | true, true => "."
  | true, false => normalize b
  | false, true => normalize a
  | false, false => normalize (a +:+ "/" +:+ b)
  end.

End PosixPath.

(** ** [decodeURI]

    The built-in of the language, on UTF-8 byte strings: an escape of
    an ASCII character is replaced by the character unless it is one of
    the reserved characters, an escaped multi-byte sequence must be one
    well-formed UTF-8 code point, and anything else is a [URIError],
    here [None].  [pending] holds the octets of a started multi-byte
    sequence and the number of octets it still needs. *)

Module Uri.

Definition hexDigit (c : ascii) : option N :=
  let n := N_of_ascii c in
  if ((48 <=? n) && (n <=? 57))%N then Some (n - 48)%N
  else if ((65 <=? n) && (n <=? 70))%N then Some (n - 55)%N
  else if ((97 <=? n) && (n <=? 102))%N then Some (n - 87)%N
  else None.

Definition leadingOnes (b : N) : nat :=
  if (b <? 128)%N then 0%nat
  else if (b <? 192)%N then 1%nat
  else if (b <? 224)%N then 2%nat
  else if (b <? 240)%N then 3%nat
  else if (b <? 248)%N then 4%nat
  else 5%nat.

Definition between (lo hi b : N) : bool := ((lo <=? b) && (b <=? hi))%N.

Definition continuation : N -> bool := between 128 191.

Definition validUtf8 (octets : list N) : bool :=
  match octets with
  | [b0; b1] => between 194 223 b0 && continuation b1
  | [b0; b1; b2] =>
      (if (b0 =? 224)%N then between 160 191 b1
       else if (b0 =? 237)%N then between 128 159 b1
       else continuation b1) && continuation b2
  | [b0; b1; b2; b3] =>
      (if (b0 =? 240)%N then between 144 191 b1
       else if (b0 =? 244)%N then between 128 143 b1
       else (b0 <? 244)%N && continuation b1)
      && continuation b2 && continuation b3
  | _ => false
  end.

Definition reservedURISet : string := ";/?:@&=+$,#".

Definition bytes (octets : list N) : string :=
  fold_right (fun b s => String (ascii_of_N b) s) EmptyString octets.

Definition prepend (s : string) (r : option string) : option string :=
  match r with
  | Some t => Some (s +:+ t)
  | None => None
  end.

Fixpoint decode (pending : option (nat * list N)) (s : string) : option string :=
  match s with
  | EmptyString =>
      match pending with
      | None => Some EmptyString
      | Some _ => None
      end
  | String c s1 =>
      if Ascii.eqb c "%" then
        match s1 with
        | String h1 (String h2 rest) =>
            match hexDigit h1, hexDigit h2 with
            | Some a, Some b =>
                let B := (16 * a + b)%N in
                match pending with
                | None =>
                    match leadingOnes B with
                    | O =>
                        let C := String (ascii_of_N B) EmptyString in
                        if Js.includes reservedURISet C
                        then prepend (String c (String h1 (String h2 EmptyString)))
                                     (decode None rest)
                        else prepend C (decode None rest)
                    | S O => None
                    | S (S k) =>
                        if (k <=? 2)%nat then decode (Some (S k, [B])) rest
                        else None
                    end
                | Some (S O, octets) =>
                    if validUtf8 (octets ++ [B])%list
                    then prepend (bytes (octets ++ [B])%list) (decode None rest)
                    else None
                | Some (S k, octets) => decode (Some (k, (octets ++ [B])%list)) rest
                | Some (O, _) => None
                end
            | _, _ => None
            end
        | _ => None
        end
      else
        match pending with
        | None => prepend (String c EmptyString) (decode None s1)
        | Some _ => None
        end
  end.

Definition decodeURI (s : string) : option string := decode None s.

End Uri.

(** ** Records of strings and the headers of a response *)

(** A JavaScript object used as a record of strings (the [headers]
    option and its copy [{ ...headers }]): its own properties in
    property order, every name once. *)
Record JsObject := { properties : list (string * string) }.

Global Instance JsObject_empty : Empty JsObject := {| properties := [] |}.

(** [o[key] = value] on the properties: a property that is there keeps
    its place, a new one comes last (for a name that is no array index,
    as ["Etag"] and ["Cache-Control"] are). *)
Fixpoint assign (key value : string) (l : list (string * string))
  : list (string * string) :=
  match l with
  | [] => [(key, value)]
  | (k, v) :: rest =>
      if String.eqb k key then (key, value) :: rest
      else (k, v) :: assign key value rest
  end.

Global Instance JsObject_insert : Insert string string JsObject :=
  fun key value o => {| properties := assign key value (properties o) |}.

(** The [Headers] of the Fetch standard as far as a program can
    observe them: header names are matched without regard to case and
    the values given for one name are combined, in the order they were
    given, with [", "] between them.  A [Headers] is the map from the
    byte-lowercased names to the combined values. *)
Module Fetch.

Definition lowercase_ascii (c : ascii) : ascii :=
  let n := N_of_ascii c in
  if ((65 <=? n) && (n <=? 90))%N then ascii_of_N (n + 32) else c.

Fixpoint lowercase (s : string) : string :=
  match s with
  | EmptyString => EmptyString
  | String c s' => String (lowercase_ascii c) (lowercase s')
  end.

Abbreviation Headers := (gmap string string) (only parsing).

(** [headers.append(name, value)] *)
Definition append (h : Headers) (name value : string) : Headers :=
  match h !! lowercase name with
  | Some given => <[lowercase name := given +:+ ", " +:+ value]> h
  | None => <[lowercase name := value]> h
  end.

(** [new Headers(record)], also what [new Response(body, { headers })]
    does with its [headers]: the properties are appended in property
    order. *)
Definition new_Headers (o : JsObject) : Headers :=
  fold_left (fun h p => append h p.1 p.2) (properties o) ∅.

(** [headers.get(name)] *)
Definition get (h : Headers) (name : string) : option string :=
  h !! lowercase name.

(** A header name is a token. *)
Definition token_char (c : ascii) : bool :=
  let n := N_of_ascii c in
  ((48 <=? n) && (n <=? 57) || (65 <=? n) && (n <=? 90)
   || (97 <=? n) && (n <=? 122))%N
  || Js.includes "!#$%&'*+-.^_`|~" (String c EmptyString).

Fixpoint all_chars (p : ascii -> bool) (s : string) : bool :=
  match s with
  | EmptyString => true
  | String c s' => p c && all_chars p s'
  end.

Definition header_name (s : string) : bool :=
  negb (String.eqb s "") && all_chars token_char s.

Definition whitespace (c : ascii) : bool :=
  let n := N_of_ascii c in
  ((n =? 9) || (n =? 10) || (n =? 13) || (n =? 32))%N.

Definition last_char (s : string) : option ascii :=
  match Js.drop (String.length s - 1) s with
  | String c _ => Some c
  | EmptyString => None
  end.

(** A header value that [append] takes as it is: no white space at
    either end (it would be stripped), no NUL, CR or LF inside (the
    [TypeError] of [append]). *)
Definition header_value (s : string) : bool :=
  match s with
  | EmptyString => true
  | String c _ =>
      negb (whitespace c)
      && match last_char s with
         | Some z => negb (whitespace z)
         | None => true
         end
      && all_chars (fun x => let n := N_of_ascii x in
                             negb ((n =? 0) || (n =? 10) || (n =? 13))%N) s
  end.

End Fetch.

(** The values a record gives for the header [name], in property
    order, and what [Headers] combines them to. *)
Definition given_for (name : string) (l : list (string * string)) : list string :=
  map snd (List.filter (fun p => String.eqb (Fetch.lowercase p.1) name) l).

Definition combined (start : option string) (values : list string) : option string :=
  fold_left (fun acc value =>
               Some match acc with
                    | Some given => given +:+ ", " +:+ value
                    | None => value
                    end)
            values start.

(** A record that [new Headers] accepts and keeps as it is.  The
    [headers] option is such a record in all that follows: on any other
    [new Response] throws a [TypeError] or alters the values. *)
Definition header_record (o : JsObject) : Prop :=
  List.NoDup (map fst (properties o))
  /\ Forall (fun p => Fetch.header_name p.1 = true
                      /\ Fetch.header_value p.2 = true) (properties o).

(** The integers a JavaScript number holds exactly
    ([Number.isSafeInteger]); a template literal prints them in plain
    decimal, which is what [Js.number_to_string] computes. *)
Definition safe_integer (n : Z) : Prop := - 2 ^ 53 < n < 2 ^ 53.

(** ** Configuration *)

(** [directive]: the eight tokens of the option's type. *)
Inductive Directive :=
| d_public | d_private | d_must_revalidate | d_no_cache
| d_no_store | d_no_transform | d_proxy_revalidate | d_immutable.

Definition directive_token (d : Directive) : string :=
  match d with
  | d_public => "public"
  | d_private => "private"
  | d_must_revalidate => "must-revalidate"
  | d_no_cache => "no-cache"
  | d_no_store => "no-store"
  | d_no_transform => "no-transform"
  | d_proxy_revalidate => "proxy-revalidate"
  | d_immutable => "immutable"
  end.

(** An element of [ignorePatterns : Array<string | RegExp>].  A regular
    expression is the predicate its [test] method computes (one without
    the [g] and [y] flags, whose [test] keeps no state). *)
Inductive Pattern :=
| PString (s : string)
| PRegExp (test : string -> bool).

(** The process and platform the plugin runs on: [path.sep],
    [process.env.NODE_ENV], [process.env.ENV] and [path.resolve]. *)
Record Env := {
  sep : ascii;
  NODE_ENV : option string;
  ENV : option string;
  resolveFn : list string -> string
}.

Definition URL_PATH_SEP : ascii := "/"%char.

Definition str (c : ascii) : string := String c EmptyString.

(** The parameters of [staticPlugin] once destructured.  [staticLimit]
    and [maxAge] range over integers; what is said of the rendering of
    [maxAge] is said of a safe integer.  [headers] is a record of
    strings. *)
Record Config := {
  assets : string;
  prefix : string;
  staticLimit : Z;
  alwaysStatic : bool;
  ignorePatterns : list Pattern;
  noExtension : bool;
  enableDecodeURI : bool;
  resolve : list string -> string;
  headers : JsObject;
  noCache : bool;
  maxAge : option Z;
  directive : Directive;
  indexHTML : bool
}.

(** The caller's argument: every property may be left out; [maxAge]
    may be left out, [null] or a number. *)
Record Options := {
  o_assets : option string;
  o_prefix : option string;
  o_staticLimit : option Z;
  o_alwaysStatic : option bool;
  o_ignorePatterns : option (list Pattern);
  o_noExtension : option bool;
  o_enableDecodeURI : option bool;
  o_resolve : option (list string -> string);
  o_headers : option JsObject;
  o_noCache : option bool;
  o_maxAge : option (option Z);
  o_directive : option Directive;
  o_indexHTML : option bool
}.

Definition is_production (v : option string) : bool :=
  match v with
  | Some s => String.eqb s "production"
  | None => false
  end.

(** The default of the whole parameter, used when the plugin is called
    without an argument (lines 175-187). *)
Definition default_argument (env : Env) : Options := {|
  o_assets := Some "public";
  o_prefix := Some "/public";
  o_staticLimit := Some 1024;
  o_alwaysStatic := Some (is_production (NODE_ENV env));
  o_ignorePatterns := Some [];
  o_noExtension := Some false;
  o_enableDecodeURI := Some false;
  o_resolve := Some (resolveFn env);
  o_headers := Some ∅;
  o_noCache := Some false;
  o_maxAge := None;
  o_directive := None;
  o_indexHTML := Some true
|}.

(** The defaults of the destructuring pattern (lines 65-79). *)
Definition destructure (env : Env) (o : Options) : Config := {|
  assets := default "public" (o_assets o);
  prefix := default "/public" (o_prefix o);
  staticLimit := default 1024 (o_staticLimit o);
  alwaysStatic := default (is_production (NODE_ENV env)) (o_alwaysStatic o);
  ignorePatterns :=
    default [PString ".DS_Store"; PString ".git"; PString ".env"] (o_ignorePatterns o);
  noExtension := default false (o_noExtension o);
  enableDecodeURI := default false (o_enableDecodeURI o);
  resolve := default (resolveFn env) (o_resolve o);
  headers := default ∅ (o_headers o);
  noCache := default false (o_noCache o);
  maxAge := default (Some 86400) (o_maxAge o);
  directive := default d_public (o_directive o);
  indexHTML := default true (o_indexHTML o)
|}.

Definition parameters (env : Env) (arg : option Options) : Config :=
  destructure env (default (default_argument env) arg).

(** ** The world outside the plugin *)

(** What the plugin reads of an [fs.Stats]. *)
Record Stats := {
  isDirectory : bool;
  mtime : Z
}.

(** The file system and the clock as oracles.  [None] is a rejected
    promise (ENOENT, EACCES, ...).  The oracles are independent of each
    other: a file that [stat] finds and [readFile] cannot read is a
    permission error or a file deleted in between.  [generateETag] is an
    export of [./cache], whose source is not part of the repository
    snapshot; it reads the file, so it may reject too, and what it
    answers is a string that a header takes as it is (section 4.5 of the
    specification). *)
Record World := {
  stat : string -> option Stats;
  readFile : string -> option string;
  generateETag : string -> option string;
  now : Z
}.

(** The validators [isCached] reads off the parsed request headers. *)
Record Validators := {
  if_none_match : option string;
  if_modified_since : option Z
}.

Record Request := {
  pathname : string;
  parseHeaders : Validators
}.

Record Response := {
  status : Z;
  response_headers : Fetch.Headers;
  body : option string
}.

(** [empty(status, headers)] of the host framework: a response with no
    body and the headers of the record. *)
Definition empty (st : Z) (h : JsObject) : Response :=
  {| status := st; response_headers := Fetch.new_Headers h; body := None |}.

(** [new Response(new Uint8Array(fileBuffer), { headers })] *)
Definition new_Response (fileBuffer : string) (h : JsObject) : Response :=
  {| status := 200; response_headers := Fetch.new_Headers h;
     body := Some fileBuffer |}.

Inductive Error :=
| NotFoundError
| IOError
| URIError
| ECACHEFULL.

(** Calls that leave the plugin, in the order they are made. *)
Inductive Call :=
| CallStat (path : string)
| CallReadFile (path : string)
| CallGenerateETag (path : string)
| CallIsCached (v : Validators) (etag key : string)
| CallReaddir (path : string).

(** ** The three module-level caches

    [node-cache] with [maxKeys: 250] and [stdTTL: 3 * 60 * 60]: an entry
    holds its value and the time it expires at, in milliseconds (0 for
    never); [get] drops an entry that has expired and misses; [set]
    throws when the cache already holds [maxKeys] keys.  The periodic
    sweep of expired entries runs between requests. *)

Module NodeCache.

Definition maxKeys : nat := 250.
Definition stdTTL : Z := 3 * 60 * 60.

Definition get {V} (t : Z) (c : gmap string (V * Z)) (key : string)
  : option V * gmap string (V * Z) :=
  match c !! key with
  | Some (v, expires) =>
      if negb (expires =? 0) && (expires <? t)
      then (None, delete key c)
      else (Some v, c)
  | None => (None, c)
  end.

Definition set {V} (t : Z) (c : gmap string (V * Z)) (key : string) (v : V)
  : option (gmap string (V * Z)) :=
  if (maxKeys <=? size c)%nat then None
  else Some (<[key := (v, t + stdTTL * 1000)]> c).

End NodeCache.

Record Caches := {
  statCache : gmap string (Stats * Z);
  fileCache : gmap string (string * Z);
  htmlCache : gmap string (bool * Z)
}.

Definition no_caches : Caches :=
  {| statCache := ∅; fileCache := ∅; htmlCache := ∅ |}.

(** ** Computations of the plugin

    A computation reads the world, updates the caches, logs its outside
    calls, and returns or throws.  A throw keeps the caches as they are
    at that point, as in the source. *)

Inductive Outcome (A : Type) :=
| Returned (a : A)
| Threw (e : Error).
Arguments Returned {A} a.
Arguments Threw {A} e.

Definition M (A : Type) : Type := World -> Caches -> Outcome A * Caches * list Call.

Definition ret {A} (a : A) : M A := fun _ c => (Returned a, c, []).

Definition throw {A} (e : Error) : M A := fun _ c => (Threw e, c, []).

Definition bind {A B} (m : M A) (k : A -> M B) : M B :=
  fun w c =>
    match m w c with
    | (Returned a, c1, l1) =>
        match k a w c1 with
        | (o, c2, l2) => (o, c2, (l1 ++ l2)%list)
        end
    | (Threw e, c1, l1) => (Threw e, c1, l1)
    end.

(** [try { m } catch (error) { h error }] *)
Definition try_catch {A} (m : M A) (h : Error -> M A) : M A :=
  fun w c =>
    match m w c with
    | (Returned a, c1, l1) => (Returned a, c1, l1)
    | (Threw e, c1, l1) =>
        match h e w c1 with
        | (o, c2, l2) => (o, c2, (l1 ++ l2)%list)
        end
    end.

Notation "x <- m ;; k" := (bind m (fun x => k))
  (at level 100, m at next level, right associativity).
Notation "m ;;; k" := (bind m (fun _ => k))
  (at level 100, right associativity).

(** An awaited promise of the world: logged, then resolved or rejected. *)
Definition await {A} (call : Call) (oracle : World -> option A) : M A :=
  fun w c =>
    match oracle w with
    | Some a => (Returned a, c, [call])
    | None => (Threw IOError, c, [call])
    end.

Definition await_stat (path : string) : M Stats :=
  await (CallStat path) (fun w => stat w path).

Definition await_readFile (path : string) : M string :=
  await (CallReadFile path) (fun w => readFile w path).

Definition await_generateETag (path : string) : M string :=
  await (CallGenerateETag path) (fun w => generateETag w path).

(** [fileExists]: [stat(path).then(() => true, () => false)] *)
Definition fileExists (path : string) : M bool :=
  fun w c => (Returned (bool_decide (is_Some (stat w path))), c, [CallStat path]).

Definition statCache_get (key : string) : M (option Stats) :=
  fun w c =>
    let '(v, m) := NodeCache.get (now w) (statCache c) key in
    (Returned v,
     {| statCache := m; fileCache := fileCache c; htmlCache := htmlCache c |}, []).

Definition statCache_set (key : string) (v : Stats) : M unit :=
  fun w c =>
    match NodeCache.set (now w) (statCache c) key v with
    | Some m =>
        (Returned tt,
         {| statCache := m; fileCache := fileCache c; htmlCache := htmlCache c |}, [])
    | None => (Threw ECACHEFULL, c, [])
    end.

Definition fileCache_get (key : string) : M (option string) :=
  fun w c =>
    let '(v, m) := NodeCache.get (now w) (fileCache c) key in
    (Returned v,
     {| statCache := statCache c; fileCache := m; htmlCache := htmlCache c |}, []).

Definition fileCache_set (key : string) (v : string) : M unit :=
  fun w c =>
    match NodeCache.set (now w) (fileCache c) key v with
    | Some m =>
        (Returned tt,
         {| statCache := statCache c; fileCache := m; htmlCache := htmlCache c |}, [])
    | None => (Threw ECACHEFULL, c, [])
    end.

Definition htmlCache_get (key : string) : M (option bool) :=
  fun w c =>
    let '(v, m) := NodeCache.get (now w) (htmlCache c) key in
    (Returned v,
     {| statCache := statCache c; fileCache := fileCache c; htmlCache := m |}, []).

Definition htmlCache_set (key : string) (v : bool) : M unit :=
  fun w c =>
    match NodeCache.set (now w) (htmlCache c) key v with
    | Some m =>
        (Returned tt,
         {| statCache := statCache c; fileCache := fileCache c; htmlCache := m |}, [])
    | None => (Threw ECACHEFULL, c, [])
    end.

(** ** Routes

    A handler is a closure of the source; here it is the data the
    closure captures, and [handle] below is its body. *)
Inductive Handler :=
| StaticNoCache (absolutePath : string)
| StaticCached (etag key absolutePath : string)
| Wildcard.

Record Route := {
  method : string;
  path : string;
  handler : Handler
}.

Global Instance Handler_eq_dec : EqDecision Handler.
Proof. solve_decision. Defined.

Global Instance Route_eq_dec : EqDecision Route.
Proof. solve_decision. Defined.

(** ** [staticPlugin] *)

Section Plugin.

(** [isCached] is the other export of [./cache]: the conditional
    evaluator, called with the parsed headers, the ETag and a path.
    It is a parameter here; [None] is a rejected promise. *)
Variable isCached : World -> Validators -> string -> string -> option bool.
Variable env : Env.
Variable cfg : Config.

Definition await_isCached (v : Validators) (etag key : string) : M bool :=
  await (CallIsCached v etag key) (fun w => isCached w v etag key).

Definition isFSSepUnsafe : bool := negb (Ascii.eqb (sep env) URL_PATH_SEP).

(** Line 192: [if (prefix === URL_PATH_SEP) prefix = ''].  Every later
    use of [prefix] in the source is a use of this value. *)
Definition mount : string :=
  if String.eqb (prefix cfg) (str URL_PATH_SEP) then "" else prefix cfg.

(** Lines 194-201.  The result is the value of [find] (or [false]);
    the callers branch on whether it is truthy. *)
Definition shouldIgnore (file : string) : option Pattern :=
  if (length (ignorePatterns cfg) =? 0)%nat then None
  else
    find (fun pattern =>
            match pattern with
            | PString s => Js.includes s file
            | PRegExp test => test file
            end)
         (ignorePatterns cfg).

Definition truthy (found : option Pattern) : bool :=
  match found with
  | None => false
  | Some (PString s) => negb (String.eqb s "")
  | Some (PRegExp _) => true
  end.

(** Line 205 *)
Definition assetsDir : string :=
  match assets cfg with
  | String c _ =>
      if Ascii.eqb c (sep env) then assets cfg
      else resolve cfg [] +:+ str (sep env) +:+ assets cfg
  | EmptyString => resolve cfg [] +:+ str (sep env) +:+ assets cfg
  end.

(** Lines 244-248, 274-278 and 377-381 *)
Definition cacheControl : string :=
  match maxAge cfg with
  | None => directive_token (directive cfg)
  | Some n => directive_token (directive cfg) +:+ ", max-age=" +:+ Js.number_to_string n
  end.

Definition responseHeaders (etag : string) : JsObject :=
  <["Cache-Control" := cacheControl]> (<["Etag" := etag]> (headers cfg)).

(** The [noCache] handler body (lines 232-235, 262-265, 363-368) *)
Definition respond_noCache (file : string) : M Response :=
  fileBuffer <- await_readFile file ;;
  ret (new_Response fileBuffer (headers cfg)).

(** The caching handler body (lines 236-254, 266-284, 370-386) *)
Definition respond_cached (req : Request) (etag key file : string) : M Response :=
  let headersRecord := parseHeaders req in
  cached <- await_isCached headersRecord etag key ;;
  if cached : bool then ret (empty 304 (headers cfg))
  else
    fileBuffer <- await_readFile file ;;
    ret (new_Response fileBuffer (responseHeaders etag)).

(** The candidate file-system path of a request (lines 299-309) *)
Definition request_path (req : Request) : M string :=
  let urlPath := pathname req in
  let wildcardPath := Js.replace urlPath mount "" in
  path <- (if enableDecodeURI cfg
           then match Uri.decodeURI (assets cfg +:+ wildcardPath) with
                | Some p => ret p
                | None => throw URIError
                end
           else ret (assets cfg +:+ wildcardPath)) ;;
  ret (if isFSSepUnsafe
       then Js.replace path (str URL_PATH_SEP) (str (sep env))
       else path).

(** Lines 324-361: the file served for [path]. *)
Definition resolve_filePath (path : string) (status : Stats) : M string :=
  cached <- fileCache_get path ;;
  match cached with
  | Some (String c s) => ret (String c s)
  | _ =>
      let index := path +:+ str (sep env) +:+ "index.html" in
      filePath <-
        (if isDirectory status then
           hasCache <-
             (if indexHTML cfg then
                known <- htmlCache_get index ;;
                match known with
                | Some b => ret (Some b)
                | None => b <- fileExists index ;; ret (Some b)
                end
              else ret (Some false)) ;;
           if indexHTML cfg && default false hasCache then
             (if bool_decide (hasCache = None)
              then htmlCache_set index true
              else ret tt) ;;;
             fileCache_set path index ;;;
             ret (Some index)
           else
             (if indexHTML cfg && bool_decide (hasCache = None)
              then htmlCache_set index false
              else ret tt) ;;;
             throw NotFoundError
         else ret cached) ;;
      let filePath := default path filePath in
      fileCache_set path filePath ;;;
      ret filePath
  end.

(** The wildcard handler (lines 297-390) *)
Definition wildcard_handler (req : Request) : M Response :=
  path <- request_path req ;;
  if truthy (shouldIgnore path) then throw NotFoundError
  else
    try_catch
      (known <- statCache_get path ;;
       status <- match known with
                 | Some s => ret s
                 | None =>
                     s <- await_stat path ;;
                     statCache_set path s ;;;
                     ret s
                 end ;;
       if negb (indexHTML cfg) && isDirectory status then throw NotFoundError
       else
         filePath <- resolve_filePath path status ;;
         if noCache cfg then respond_noCache filePath
         else
           etag <- await_generateETag filePath ;;
           respond_cached req etag path filePath)
      (fun _ => throw NotFoundError).

(** What a route's handler does on a request. *)
Definition handle (h : Handler) (req : Request) : M Response :=
  match h with
  | StaticNoCache absolutePath => respond_noCache absolutePath
  | StaticCached etag key absolutePath => respond_cached req etag key absolutePath
  | Wildcard => wildcard_handler req
  end.

(** Lines 215-220 *)
Definition strip_extension (relativePath : string) : string :=
  let temp := Js.split "."%char relativePath in
  let temp := Js.splice_last temp in
  Js.join "." temp.

(** Lines 224-226 *)
Definition pathName_of (relativePath : string) : string :=
  if isFSSepUnsafe
  then mount +:+ Js.join (str URL_PATH_SEP) (Js.split (sep env) relativePath)
  else PosixPath.join mount relativePath.

Definition relativePath_of (absolutePath : string) : string :=
  let relativePath := Js.replace absolutePath assetsDir "" in
  if noExtension cfg then strip_extension relativePath else relativePath.

(** The routes one turn of the loop over [files] pushes (lines 228-285),
    once [etag] is known. *)
Definition pushed_routes (absolutePath etag : string) : list Route :=
  let relativePath := relativePath_of absolutePath in
  let pathName := pathName_of relativePath in
  {| method := "GET";
     path := pathName;
     handler := if noCache cfg then StaticNoCache absolutePath
                else StaticCached etag absolutePath absolutePath |}
  :: (if indexHTML cfg && Js.endsWith pathName "/index.html"
      then [ {| method := "GET";
                path := Js.replace pathName "/index.html" "";
                handler := if noCache cfg then StaticNoCache absolutePath
                           else StaticCached etag pathName absolutePath |} ]
      else []).

(** Line 212: [if (!absolutePath || shouldIgnore(absolutePath)) continue] *)
Definition skipped (absolutePath : string) : bool :=
  String.eqb absolutePath "" || truthy (shouldIgnore absolutePath).

(** One turn of the loop over [files] (lines 211-286) *)
Definition static_routes (absolutePath : string) : M (list Route) :=
  if skipped absolutePath then ret []
  else
    etag <- await_generateETag absolutePath ;;
    ret (pushed_routes absolutePath etag).

Fixpoint for_each_file (files : list string) (routes : list Route) : M (list Route) :=
  match files with
  | [] => ret routes
  | absolutePath :: rest =>
      pushed <- static_routes absolutePath ;;
      for_each_file rest (routes ++ pushed)%list
  end.

(** Line 207-210 *)
Definition static_mode (files : list string) : bool :=
  alwaysStatic cfg ||
  (is_production (ENV env) && (Z.of_nat (length files) <=? staticLimit cfg)).

Definition wildcard_route : Route :=
  {| method := "GET"; path := mount +:+ "/*"; handler := Wildcard |}.

(** The plugin, given the files [listFiles] has enumerated under the
    assets directory (lines 203-395). *)
Definition staticPlugin (files : list string) : M (list Route) :=
  let routes : list Route := [] in
  if static_mode files then for_each_file files routes
  else
    let wildcardExists :=
      existsb (fun route =>
                 String.eqb (path route) (mount +:+ "/*")
                 && String.eqb (method route) "GET")
              routes in
    if negb wildcardExists then ret (routes ++ [wildcard_route])%list
    else ret routes.

End Plugin.

(** Lines 315-361 on their own: from the candidate path of a request to
    the file served for it, the part of the [try] block that comes
    before the response. *)
Definition resolution (env : Env) (cfg : Config) (path : string) : M string :=
  known <- statCache_get path ;;
  status <- match known with
            | Some s => ret s
            | None =>
                s <- await_stat path ;;
                statCache_set path s ;;;
                ret s
            end ;;
  if negb (indexHTML cfg) && isDirectory status then throw NotFoundError
  else resolve_filePath env cfg path status.

(** The response of lines 363-386, once the file served is known. *)
Definition response_for
    (isCached : World -> Validators -> string -> string -> option bool)
    (cfg : Config) (req : Request) (path filePath : string) : M Response :=
  if noCache cfg then respond_noCache cfg filePath
  else
    etag <- await_generateETag filePath ;;
    respond_cached isCached cfg req etag path filePath.

(** The [alwaysStatic] property of the caller's argument, when the
    caller gave one. *)
Definition caller_flag (arg : option Options) : option bool :=
  arg ≫= o_alwaysStatic.

(** ** The conditional evaluator *)

(** Modelled from the spec: [isCached] of [./cache], which the
    repository snapshot does not hold (section 4.4, the Conditional
    Evaluator): true when the request carries an [If-None-Match] equal to
    the ETag; else true when it carries an [If-Modified-Since] at or
    after the last-modified time of the file named by the key, at the
    time of the check; false otherwise.  A key with no readable
    modification time satisfies neither condition. *)
Definition isCached_spec (w : World) (v : Validators) (etag key : string)
  : option bool :=
  Some
    (if bool_decide (if_none_match v = Some etag) then true
     else
       match if_modified_since v with
       | Some t =>
           match stat w key with
           | Some s => mtime s <=? t
           | None => false
           end
       | None => false
       end).

(** Modelled from the spec: the same section read with the precedence
    of the HTTP validators, where an [If-None-Match] that is present
    decides alone and [If-Modified-Since] is looked at only without it. *)
Definition isCached_precedence (w : World) (v : Validators) (etag key : string)
  : option bool :=
  Some
    match if_none_match v with
    | Some e => bool_decide (e = etag)
    | None =>
        match if_modified_since v with
        | Some t =>
            match stat w key with
            | Some s => mtime s <=? t
            | None => false
            end
        | None => false
        end
    end.

(** Modelled from the spec: what section 4.4 says of an evaluator
    whatever the reading, as three properties of the parameter
    [isCached].  An [If-None-Match] equal to the ETag it is given is
    fresh. *)
Definition answers_a_matching_etag
    (isCached : World -> Validators -> string -> string -> option bool) : Prop :=
  forall w v etag key,
    if_none_match v = Some etag -> isCached w v etag key = Some true.

(** Modelled from the spec: a request without validators is not fresh. *)
Definition answers_no_validator
    (isCached : World -> Validators -> string -> string -> option bool) : Prop :=
  forall w v etag key,
    if_none_match v = None -> if_modified_since v = None ->
    isCached w v etag key = Some false.

(** Modelled from the spec: an [If-None-Match] that differs from the
    ETag it is given is not fresh, whatever else the request carries
    (the reading of [isCached_precedence]; [isCached_spec] lets
    [If-Modified-Since] speak then). *)
Definition answers_a_stale_etag
    (isCached : World -> Validators -> string -> string -> option bool) : Prop :=
  forall w v etag key e,
    if_none_match v = Some e -> e <> etag ->
    isCached w v etag key = Some false.

(** ** A site to run the plugin on

    A posix host whose working directory is [/srv/app], with the default
    assets directory [public] under it. *)

Definition posix : Env := {|
  sep := "/"%char;
  NODE_ENV := None;
  ENV := None;
  resolveFn := fun _ => "/srv/app"
|}.

Definition no_options : Options := {|
  o_assets := None; o_prefix := None; o_staticLimit := None;
  o_alwaysStatic := None; o_ignorePatterns := None; o_noExtension := None;
  o_enableDecodeURI := None; o_resolve := None; o_headers := None;
  o_noCache := None; o_maxAge := None; o_directive := None;
  o_indexHTML := None
|}.

Definition a_file (t : Z) : Stats := {| isDirectory := false; mtime := t |}.
Definition a_directory (t : Z) : Stats := {| isDirectory := true; mtime := t |}.

(** The entries of the site by their path relative to [public]: the
    metadata, and the content of a regular file. *)
Definition site_entries : list (string * (Stats * option string)) :=
  [ ("", (a_directory 100, None));
    ("/a.txt", (a_file 100, Some "hi"));
    ("/LICENSE", (a_file 100, Some "MIT"));
    ("/.git", (a_directory 100, None));
    ("/.git/config", (a_file 100, Some "[core]"));
    ("/html", (a_directory 100, None));
    ("/html/index.html", (a_file 200, Some "<html></html>"));
    ("/index.html.d", (a_directory 100, None));
    ("/index.html.d/index.html", (a_file 100, Some "<p></p>")) ].

Fixpoint entry_of (entries : list (string * (Stats * option string)))
    (root path : string) : option (Stats * option string) :=
  match entries with
  | [] => None
  | (name, e) :: rest =>
      if String.eqb path (root +:+ name) then Some e
      else entry_of rest root path
  end.

(** A path names an entry through the relative root [public] or the
    absolute one. *)
Definition site_entry (path : string) : option (Stats * option string) :=
  match entry_of site_entries "public" path with
  | Some e => Some e
  | None => entry_of site_entries "/srv/app/public" path
  end.

Definition site : World := {|
  stat := fun path => fst <$> site_entry path;
  readFile := fun path => site_entry path ≫= snd;
  generateETag := fun path =>
    (fun content : string => "etag(" +:+ content +:+ ")") <$> (site_entry path ≫= snd);
  now := 1000
|}.

Definition GET (url_path : string) (v : Validators) : Request :=
  {| pathname := url_path; parseHeaders := v |}.

Definition no_validators : Validators :=
  {| if_none_match := None; if_modified_since := None |}.

(** ** Running computations *)

Definition outcome_of {A} (r : Outcome A * Caches * list Call) : Outcome A := r.1.1.
Definition caches_of {A} (r : Outcome A * Caches * list Call) : Caches := r.1.2.
Definition calls_of {A} (r : Outcome A * Caches * list Call) : list Call := r.2.

(** The evaluator was called. *)
Definition is_CallIsCached (c : Call) : bool :=
  match c with
  | CallIsCached _ _ _ => true
  | _ => false
  end.

(** The three outcomes the specification allows a handler. *)
Definition uniform_outcome (o : Outcome Response) : Prop :=
  match o with
  | Returned r => status r = 200 \/ status r = 304
  | Threw e => e = NotFoundError
  end.

Definition is_CallStat (c : Call) : bool :=
  match c with
  | CallStat _ => true
  | _ => false
  end.

Definition is_CallReaddir (c : Call) : bool :=
  match c with
  | CallReaddir _ => true
  | _ => false
  end.

Definition no_evaluator_call (l : list Call) : bool :=
  forallb (fun call => negb (is_CallIsCached call)) l.

Definition quiet {A} (m : M A) : Prop :=
  forall w c, no_evaluator_call (calls_of (m w c)) = true.

(** The world that gave a route its ETag: the one the plugin was built
    in for a static route, the one of the request for the wildcard
    route. *)
Definition etag_world (env : Env) (cfg : Config) (files : list string)
    (built request : World) : World :=
  if static_mode env cfg files then built else request.

(** A path segment that [normalize] keeps as it is. *)
Definition proper_segment (x : string) : Prop :=
  x <> "" /\ x <> "." /\ x <> "..".

(** ** Configurations and requests of the examples *)

Definition default_cfg : Config := parameters posix None.

Definition decoding_options : Options := {|
  o_assets := None; o_prefix := None; o_staticLimit := None;
  o_alwaysStatic := None; o_ignorePatterns := None; o_noExtension := None;
  o_enableDecodeURI := Some true; o_resolve := None; o_headers := None;
  o_noCache := None; o_maxAge := None; o_directive := None;
  o_indexHTML := None
|}.

Definition decoding_cfg : Config := parameters posix (Some decoding_options).

Definition matching_etag : Validators :=
  {| if_none_match := Some "etag(hi)"; if_modified_since := None |}.

Definition since_150 : Validators :=
  {| if_none_match := None; if_modified_since := Some 150 |}.

Definition static_options : Options := {|
  o_assets := None; o_prefix := None; o_staticLimit := None;
  o_alwaysStatic := Some true; o_ignorePatterns := None; o_noExtension := None;
  o_enableDecodeURI := None; o_resolve := None; o_headers := None;
  o_noCache := None; o_maxAge := None; o_directive := None;
  o_indexHTML := None
|}.

Definition static_cfg : Config := parameters posix (Some static_options).

Definition ignoring_cfg : Config := parameters posix (Some no_options).

Definition stripping_options : Options := {|
  o_assets := None; o_prefix := None; o_staticLimit := None;
  o_alwaysStatic := Some true; o_ignorePatterns := None;
  o_noExtension := Some true;
  o_enableDecodeURI := None; o_resolve := None; o_headers := None;
  o_noCache := None; o_maxAge := None; o_directive := None;
  o_indexHTML := None
|}.

Definition stripping_cfg : Config := parameters posix (Some stripping_options).

Definition rootless_options : Options := {|
  o_assets := None; o_prefix := Some ""; o_staticLimit := None;
  o_alwaysStatic := Some true; o_ignorePatterns := None;
  o_noExtension := Some true;
  o_enableDecodeURI := None; o_resolve := None; o_headers := None;
  o_noCache := None; o_maxAge := None; o_directive := None;
  o_indexHTML := None
|}.

Definition rootless_cfg : Config := parameters posix (Some rootless_options).

(** A production host: [NODE_ENV] is ["production"], [ENV] is not set. *)
Definition production_host : Env := {|
  sep := "/"%char;
  NODE_ENV := Some "production";
  ENV := None;
  resolveFn := fun _ => "/srv/app"
|}.

(** Two thousand enumerated files. *)
Definition two_thousand_files : list string :=
  (fun n : nat => "/srv/app/public/" +:+ pretty n) <$> seq 0 2000.

(** The site after [a.txt] has been edited: its content is ["ho"] and
    every other entry is as before. *)
Definition site_edited : World := {|
  stat := stat site;
  readFile := fun path =>
    if String.eqb path "/srv/app/public/a.txt" || String.eqb path "public/a.txt"
    then Some "ho" else readFile site path;
  generateETag := fun path =>
    if String.eqb path "/srv/app/public/a.txt" || String.eqb path "public/a.txt"
    then Some "etag(ho)" else generateETag site path;
  now := 2000
|}.

Definition current_etag : Validators :=
  {| if_none_match := Some "etag(ho)"; if_modified_since := None |}.

(** A [headers] option that names [Cache-Control] in lower case. *)
Definition folding_options : Options := {|
  o_assets := None; o_prefix := None; o_staticLimit := None;
  o_alwaysStatic := None; o_ignorePatterns := None; o_noExtension := None;
  o_enableDecodeURI := None; o_resolve := None;
  o_headers := Some {| properties := [("cache-control", "no-store")] |};
  o_noCache := None; o_maxAge := None; o_directive := None;
  o_indexHTML := None
|}.

Definition folding_cfg : Config := parameters posix (Some folding_options).

(** A [headers] option with one header of the application. *)
Definition powered_options (always no_cache no_extension : bool) : Options := {|
  o_assets := None; o_prefix := None; o_staticLimit := None;
  o_alwaysStatic := Some always; o_ignorePatterns := None;
  o_noExtension := Some no_extension;
  o_enableDecodeURI := None; o_resolve := None;
  o_headers := Some {| properties := [("X-Powered-By", "vafast")] |};
  o_noCache := Some no_cache; o_maxAge := None; o_directive := None;
  o_indexHTML := None
|}.

(** The two calls of [example/a.ts], whose routes are merged into one
    table. *)
Definition takodachi : Pattern :=
  PRegExp (fun file => Js.endsWith file "takodachi.png").

Definition example_options : Options := {|
  o_assets := None; o_prefix := None; o_staticLimit := None;
  o_alwaysStatic := None; o_ignorePatterns := Some [takodachi];
  o_noExtension := None; o_enableDecodeURI := None; o_resolve := None;
  o_headers := None; o_noCache := None; o_maxAge := None; o_directive := None;
  o_indexHTML := None
|}.

Definition aliased_options : Options := {|
  o_assets := Some "public-aliased"; o_prefix := None; o_staticLimit := None;
  o_alwaysStatic := None; o_ignorePatterns := Some [takodachi];
  o_noExtension := None; o_enableDecodeURI := None; o_resolve := None;
  o_headers := None; o_noCache := None; o_maxAge := None; o_directive := None;
  o_indexHTML := None
|}.

(** The routes one turn of the loop adds for a file, in the world the
    routes are built in. *)
Definition routes_of_file (env : Env) (cfg : Config) (w : World) (f : string)
  : list Route :=
  if skipped cfg f then []
  else match generateETag w f with
       | Some etag => pushed_routes env cfg f etag
       | None => []
       end.

(** The default options with [indexHTML] off. *)
Definition no_index_options : Options := {|
  o_assets := None; o_prefix := None; o_staticLimit := None;
  o_alwaysStatic := None; o_ignorePatterns := None; o_noExtension := None;
  o_enableDecodeURI := None; o_resolve := None; o_headers := None;
  o_noCache := None; o_maxAge := None; o_directive := None;
  o_indexHTML := Some false
|}.

Definition no_index_cfg : Config := parameters posix (Some no_index_options).

(** ** Enumeration of the assets directory *)

(** What [readdir] and [stat] answer below a path: something that is
    not a directory, a directory with its entries in the order of
    [readdir], a directory that [readdir] rejects, or a name that [stat]
    rejects. *)
Inductive Node :=
| RegularFile
| Directory (entries : Entries)
| UnreadableDirectory
| Broken
with Entries :=
| no_entries
| entry (name : string) (node : Node) (rest : Entries).

Scheme Node_mutual := Induction for Node Sort Prop
  with Entries_mutual := Induction for Entries Sort Prop.

Combined Scheme Node_Entries_ind from Node_mutual, Entries_mutual.

(** [listFiles] (lines 47-62) on the node found at [dir]: [readdir],
    then for each name [stat] and either the recursive call or the
    resolved path.  [Promise.all] rejects when one of the promises does;
    [all.flat()] appends the lists in the order of [readdir]. *)
Fixpoint listFiles (env : Env) (dir : string) (n : Node) {struct n}
  : option (list string) :=
  match n with
  | Directory entries => listEntries env dir entries
  | RegularFile | UnreadableDirectory | Broken => None
  end
with listEntries (env : Env) (dir : string) (files : Entries) {struct files}
  : option (list string) :=
  match files with
  | no_entries => Some []
  | entry name child rest =>
      let file := dir +:+ str (sep env) +:+ name in
      match
        match child with
        | Broken => None
        | RegularFile => Some [resolveFn env [dir; file]]
        | Directory _ | UnreadableDirectory => listFiles env file child
        end,
        listEntries env dir rest
      with
      | Some listed, Some others => Some (listed ++ others)%list
      | _, _ => None
      end
  end.

Fixpoint entry_names (files : Entries) : list string :=
  match files with
  | no_entries => []
  | entry name _ rest => name :: entry_names rest
  end.

(** The calls [listFiles] makes on the node found at [dir]: [readdir]
    of [dir]; when it answers, [stat] of every name, which [files.map]
    starts one after the other before any of them is answered; then the
    calls of [listFiles] on the names that are directories.  A rejected
    promise rejects [Promise.all] and stops none of the other calls.
    The calls below different names run side by side, in an order the
    event loop chooses; the list has them in the order of [readdir]. *)
Fixpoint listFiles_calls (env : Env) (dir : string) (n : Node) {struct n}
  : list Call :=
  CallReaddir dir ::
  match n with
  | Directory entries =>
      ((fun name => CallStat (dir +:+ str (sep env) +:+ name)) <$> entry_names entries)
      ++ entries_calls env dir entries
  | RegularFile | UnreadableDirectory | Broken => []
  end
with entries_calls (env : Env) (dir : string) (files : Entries) {struct files}
  : list Call :=
  match files with
  | no_entries => []
  | entry name child rest =>
      match child with
      | Directory _ | UnreadableDirectory =>
          listFiles_calls env (dir +:+ str (sep env) +:+ name) child
      | RegularFile | Broken => []
      end ++ entries_calls env dir rest
  end.

(** Every name below the node can be [stat]ed and every directory
    read. *)
Fixpoint readable (n : Node) : bool :=
  match n with
  | Directory entries => readable_entries entries
  | RegularFile | UnreadableDirectory | Broken => false
  end
with readable_entries (files : Entries) : bool :=
  match files with
  | no_entries => true
  | entry _ child rest =>
      match child with
      | RegularFile => true
      | _ => readable child
      end && readable_entries rest
  end.

Fixpoint count_files (n : Node) : nat :=
  match n with
  | Directory entries => count_entries entries
  | RegularFile | UnreadableDirectory | Broken => 0%nat
  end
with count_entries (files : Entries) : nat :=
  match files with
  | no_entries => 0%nat
  | entry _ child rest =>
      (match child with
       | RegularFile => 1%nat
       | _ => count_files child
       end + count_entries rest)%nat
  end.

Inductive has_entry : Entries -> string -> Node -> Prop :=
| has_entry_first name child rest : has_entry (entry name child rest) name child
| has_entry_later name child name' child' rest :
    has_entry rest name child ->
    has_entry (entry name' child' rest) name child.

(** [file_at n names]: descending from the directory [n] by [names]
    ends at something that is not a directory. *)
Inductive file_at : Node -> list string -> Prop :=
| file_at_entry entries name :
    has_entry entries name RegularFile ->
    file_at (Directory entries) [name]
| file_at_below entries name child names :
    has_entry entries name child ->
    file_at child names ->
    file_at (Directory entries) (name :: names).

(** The path the enumeration builds for [names] below [dir]:
    [dir + sep + name] at each level. *)
Definition path_under (env : Env) (dir : string) (names : list string) : string :=
  fold_left (fun d name => d +:+ str (sep env) +:+ name) names dir.

(** [path.resolve] of posix flavour: the arguments are taken from the
    right until the path is absolute, the working directory last. *)
Fixpoint resolve_args (from_right : list string) (resolvedPath : string)
  : string * bool :=
  match from_right with
  | [] => (resolvedPath, false)
  | path :: rest =>
      if String.eqb path "" then resolve_args rest resolvedPath
      else
        let resolvedPath := path +:+ "/" +:+ resolvedPath in
        if Js.startsWith path "/" then (resolvedPath, true)
        else resolve_args rest resolvedPath
  end.

Definition path_resolve (cwd : string) (args : list string) : string :=
  let '(resolvedPath, resolvedAbsolute) :=
    resolve_args (rev args ++ [cwd]) "" in
  let resolvedPath :=
    Js.join "/"
      (PosixPath.normalizeSegments (negb resolvedAbsolute) []
         (Js.split PosixPath.slash resolvedPath)) in
  if resolvedAbsolute then "/" +:+ resolvedPath
  else if String.eqb resolvedPath "" then "." else resolvedPath.

(** A posix host with the working directory [cwd] and the two
    environment variables the plugin reads. *)
Definition posix_host (cwd : string) (node_env env_var : option string) : Env := {|
  sep := "/"%char;
  NODE_ENV := node_env;
  ENV := env_var;
  resolveFn := path_resolve cwd
|}.

(** The plugin from its first line (189): the files are enumerated
    under the resolved assets directory, whose node is [root], before
    the mode is chosen. *)
Definition staticPlugin_from (env : Env) (cfg : Config) (root : Node)
  : M (list Route) :=
  fun w c =>
    let dir := resolveFn env [assets cfg] in
    match listFiles env dir root with
    | Some files =>
        match staticPlugin env cfg files w c with
        | (o, c', l) => (o, c', (listFiles_calls env dir root ++ l)%list)
        end
    | None => (Threw IOError, c, listFiles_calls env dir root)
    end.

(** A name that holds no separator and that [normalize] keeps. *)
Definition clean_segment (x : string) : Prop :=
  proper_segment x /\ Js.includes x "/" = false.

(** An absolute path in normal form: ["/"] followed by clean segments
    glued by ["/"]. *)
Definition clean_absolute (p : string) (segments : list string) : Prop :=
  segments <> [] /\ Forall clean_segment segments
  /\ p = "/" +:+ Js.join "/" segments.

Definition nonempty (s : string) : bool := negb (String.eqb s "").

Definition clean_or_empty (s : string) : Prop := s = "" \/ clean_segment s.

(** The path [listFiles] returns for the file reached by [names] below
    [dir]: [resolve(dir, file)] at the last level. *)
Definition listed_path (env : Env) (dir : string) (names : list string)
  : string :=
  resolveFn env [path_under env dir (removelast names);
                 path_under env dir names].

(** The file reached by [names] below [dir] on a posix host. *)
Definition file_under (dir : string) (names : list string) : string :=
  dir +:+ "/" +:+ Js.join "/" names.

(** The configuration with [enableDecodeURI] off and everything else
    as it is. *)
Definition without_decoding (cfg : Config) : Config := {|
  assets := assets cfg;
  prefix := prefix cfg;
  staticLimit := staticLimit cfg;
  alwaysStatic := alwaysStatic cfg;
  ignorePatterns := ignorePatterns cfg;
  noExtension := noExtension cfg;
  enableDecodeURI := false;
  resolve := resolve cfg;
  headers := headers cfg;
  noCache := noCache cfg;
  maxAge := maxAge cfg;
  directive := directive cfg;
  indexHTML := indexHTML cfg
|}.

(** The mode of lines 207-210 read off the tree below the assets
    directory. *)
Definition static_mode_of_tree (env : Env) (cfg : Config) (root : Node) : bool :=
  alwaysStatic cfg ||
  (is_production (ENV env) && (Z.of_nat (count_files root) <=? staticLimit cfg)).

(** The caches once line 318 has stored what [stat] answered for
    [path] at the time [t]. *)
Definition with_stat (c : Caches) (path : string) (s : Stats) (t : Z) : Caches := {|
  statCache := <[path := (s, t + NodeCache.stdTTL * 1000)]> (statCache c);
  fileCache := fileCache c;
  htmlCache := htmlCache c
|}.

(** ** Invariants of the caches *)

(** A computation that adds nothing to the html cache. *)
Definition keeps_html {A} (m : M A) : Prop :=
  forall w c, htmlCache (caches_of (m w c)) ⊆ htmlCache c.

(** A computation that leaves the three caches alone and never asks
    [stat]. *)
Definition cache_free {A} (m : M A) : Prop :=
  forall w c,
    caches_of (m w c) = c /\ existsb is_CallStat (calls_of (m w c)) = false.

(** ** The site of the examples as a tree

    The same site on a posix host with the working directory
    [/srv/app]: what [readdir] and [stat] answer below [public]. *)

Definition site_host : Env := posix_host "/srv/app" None None.

Definition site_tree : Node :=
  Directory
    (entry "a.txt" RegularFile
    (entry "LICENSE" RegularFile
    (entry ".git" (Directory (entry "config" RegularFile no_entries))
    (entry "html" (Directory (entry "index.html" RegularFile no_entries))
    (entry "index.html.d"
       (Directory (entry "index.html" RegularFile no_entries))
     no_entries))))).

Definition site_static_cfg : Config := parameters site_host (Some static_options).

(** The routes static mode builds for the site. *)
Definition site_routes : list Route :=
  match outcome_of (staticPlugin_from site_host site_static_cfg site_tree
                      site no_caches) with
  | Returned rs => rs
  | Threw _ => []
  end.

(** The options of the example of the README, but for the prefix. *)
Definition dotted_options : Options := {|
  o_assets := Some "./public"; o_prefix := None; o_staticLimit := None;
  o_alwaysStatic := Some true; o_ignorePatterns := None; o_noExtension := None;
  o_enableDecodeURI := None; o_resolve := None; o_headers := None;
  o_noCache := None; o_maxAge := None; o_directive := None;
  o_indexHTML := None
|}.

Definition dotted_cfg : Config := parameters site_host (Some dotted_options).

Definition dotted_routes : list Route :=
  match outcome_of (staticPlugin_from site_host dotted_cfg site_tree
                      site no_caches) with
  | Returned rs => rs
  | Threw _ => []
  end.

(** A stat cache that holds [maxKeys] paths, none of them expired at
    the time of [site]. *)
Definition crowded : Caches := {|
  statCache :=
    list_to_map
      ((fun n : nat => ("public/" +:+ pretty n, (a_file 100, 20000000)))
         <$> seq 0 NodeCache.maxKeys);
  fileCache := ∅;
  htmlCache := ∅
|}.

(** The caches after the first request for [/public/a.txt]. *)
Definition warmed : Caches :=
  caches_of (wildcard_handler isCached_spec posix default_cfg
               (GET "/public/a.txt" no_validators) site no_caches).

(** The site three hours later, emptied. *)
Definition emptied : World := {|
  stat := fun _ => None;
  readFile := fun _ => None;
  generateETag := fun _ => None;
  now := 1000 + 3 * 60 * 60 * 1000
|}.

(** A host whose separator is the backslash. *)
Definition backslash_host : Env := {|
  sep := "\"%char;
  NODE_ENV := None;
  ENV := None;
  resolveFn := fun _ => "C:\srv\app"
|}.

(** A file cache with one free place. *)
Definition nearly_full : Caches := {|
  statCache := ∅;
  fileCache :=
    list_to_map
      ((fun n : nat => ("public/" +:+ pretty n, ("public/" +:+ pretty n, 20000000)))
         <$> seq 1 (NodeCache.maxKeys - 1));
  htmlCache := ∅
|}.

(** Closes a goal that says a concrete path is in normal form. *)
Ltac normal_form :=
  repeat first [discriminate | reflexivity | constructor].

(** * Properties *)

(** ** Sample evaluations of the primitives *)

Example join_public_file :
  PosixPath.join "/public" "/nested/takodachi.png" = "/public/nested/takodachi.png".
Proof. reflexivity. Qed.

Example join_empty_empty : PosixPath.join "" "" = ".".
Proof. reflexivity. Qed.

Example join_dots : PosixPath.join "/public/" "/a/../b/./c/" = "/public/b/c/".
Proof. reflexivity. Qed.

Example replace_first_only : Js.replace "a/b/c" "/" "\" = "a\b/c".
Proof. reflexivity. Qed.

Example split_join_strip :
  Js.join "." (Js.splice_last (Js.split "."%char "/img/foo.tar.gz")) = "/img/foo.tar".
Proof. reflexivity. Qed.

Example number_rendering : Js.number_to_string 86400 = "86400".
Proof. reflexivity. Qed.

Example decodeURI_space : Uri.decodeURI "public/my%20file.txt" = Some "public/my file.txt".
Proof. reflexivity. Qed.

Example decodeURI_reserved : Uri.decodeURI "public/a%2Fb" = Some "public/a%2Fb".
Proof. reflexivity. Qed.

Example decodeURI_utf8 :
  Uri.decodeURI "%C3%A9" = Some (Uri.bytes [195%N; 169%N]).
Proof. reflexivity. Qed.

Example decodeURI_malformed : Uri.decodeURI "public/100%.txt" = None.
Proof. reflexivity. Qed.

Example decodeURI_truncated : Uri.decodeURI "public/%E0%A4%A" = None.
Proof. reflexivity. Qed.

(** ** Laws of the computations *)

Lemma bind_returned {A B} (m : M A) (k : A -> M B) w c b c' l :
  bind m k w c = (Returned b, c', l) ->
  exists a c1 l1 l2,
    m w c = (Returned a, c1, l1) /\ k a w c1 = (Returned b, c', l2)
    /\ l = (l1 ++ l2)%list.
Proof.
  unfold bind. destruct (m w c) as [[[a|e] c1] l1]; [|discriminate].
  destruct (k a w c1) as [[o c2] l2] eqn:Hk. intros [= -> -> <-].
  exists a, c1, l1, l2. auto.
Qed.

Lemma try_catch_returned {A} (m : M A) (h : Error -> M A) w c a c' l :
  try_catch m h w c = (Returned a, c', l) ->
  m w c = (Returned a, c', l)
  \/ exists e c1 l1 l2,
       m w c = (Threw e, c1, l1) /\ h e w c1 = (Returned a, c', l2)
       /\ l = (l1 ++ l2)%list.
Proof.
  unfold try_catch. destruct (m w c) as [[[x|e] c1] l1].
  - intros [= -> -> ->]. now left.
  - destruct (h e w c1) as [[o c2] l2] eqn:Hh. intros [= -> -> <-].
    right. exists e, c1, l1, l2. auto.
Qed.

(** A catch-all that rethrows [NotFoundError] lets nothing else out. *)
Lemma try_catch_NotFound {A} (m : M A) w c :
  match outcome_of (try_catch m (fun _ => throw NotFoundError) w c) with
  | Returned a => outcome_of (m w c) = Returned a
  | Threw e => e = NotFoundError
  end.
Proof.
  unfold try_catch, throw, outcome_of.
  destruct (m w c) as [[[a|e] c1] l1]; reflexivity.
Qed.

Lemma await_returned {A} (call : Call) (oracle : World -> option A) w c a c' l :
  await call oracle w c = (Returned a, c', l) ->
  oracle w = Some a /\ c' = c /\ l = [call].
Proof.
  unfold await. destruct (oracle w); intros [= <- <- <-]; auto.
Qed.

Section Facts.

Variable isCached : World -> Validators -> string -> string -> option bool.
Variable env : Env.
Variable cfg : Config.

Lemma respond_noCache_run file w c :
  respond_noCache cfg file w c =
    match readFile w file with
    | Some fileBuffer =>
        (Returned (new_Response fileBuffer (headers cfg)), c, [CallReadFile file])
    | None => (Threw IOError, c, [CallReadFile file])
    end.
Proof.
  unfold respond_noCache, bind, await_readFile, await, ret.
  destruct (readFile w file); reflexivity.
Qed.

Lemma respond_cached_run req etag key file w c :
  respond_cached isCached cfg req etag key file w c =
    let call := CallIsCached (parseHeaders req) etag key in
    match isCached w (parseHeaders req) etag key with
    | None => (Threw IOError, c, [call])
    | Some true => (Returned (empty 304 (headers cfg)), c, [call])
    | Some false =>
        match readFile w file with
        | Some fileBuffer =>
            (Returned (new_Response fileBuffer (responseHeaders cfg etag)), c,
             [call; CallReadFile file])
        | None => (Threw IOError, c, [call; CallReadFile file])
        end
    end.
Proof.
  unfold respond_cached, bind, await_isCached, await_readFile, await, ret.
  destruct (isCached w (parseHeaders req) etag key) as [[|]|]; try reflexivity.
  destruct (readFile w file); reflexivity.
Qed.

(** The computations before the response make no call but [stat]. *)
Lemma resolve_filePath_calls path status w c :
  forallb is_CallStat (calls_of (resolve_filePath env cfg path status w c)) = true.
Proof.
  unfold resolve_filePath, calls_of, bind, ret, throw, fileExists,
    fileCache_get, fileCache_set, htmlCache_get, htmlCache_set.
  repeat (case_match; simplify_eq/=); reflexivity.
Qed.

End Facts.

Section Wildcard.

Variable isCached : World -> Validators -> string -> string -> option bool.
Variable env : Env.
Variable cfg : Config.

Lemma request_path_returned req w c path c' l :
  request_path env cfg req w c = (Returned path, c', l) -> c' = c /\ l = [].
Proof.
  unfold request_path, bind, ret, throw.
  repeat (case_match; simplify_eq/=); intros; simplify_eq/=; auto.
Qed.

Lemma request_path_threw req w c e c' l :
  request_path env cfg req w c = (Threw e, c', l) ->
  e = URIError /\ enableDecodeURI cfg = true.
Proof.
  unfold request_path, bind, ret, throw.
  repeat (case_match; simplify_eq/=); intros; simplify_eq/=; auto.
Qed.

(** The status of [path] (lines 315-319) *)
Lemma status_calls path known w c s c' l :
  match known with
  | Some s => ret s
  | None => s <- await_stat path ;; statCache_set path s ;;; ret s
  end w c = (Returned s, c', l) ->
  forallb is_CallStat l = true.
Proof.
  unfold bind, ret, statCache_set, await_stat, await.
  repeat (case_match; simplify_eq/=); intros; simplify_eq/=; reflexivity.
Qed.

Lemma statCache_get_calls path w c known c' l :
  statCache_get path w c = (Returned known, c', l) -> l = [].
Proof.
  unfold statCache_get. case_match. intros; simplify_eq/=; reflexivity.
Qed.

(** Every response of the wildcard handler comes out of one of the two
    response bodies, for a file it resolved. *)
Lemma wildcard_returned req w c r c' l :
  wildcard_handler isCached env cfg req w c = (Returned r, c', l) ->
  exists path filePath l0,
    request_path env cfg req w c = (Returned path, c, [])
    /\ truthy (shouldIgnore cfg path) = false
    /\ forallb is_CallStat l0 = true
    /\ if noCache cfg then
         exists fileBuffer,
           readFile w filePath = Some fileBuffer
           /\ r = new_Response fileBuffer (headers cfg)
           /\ l = (l0 ++ [CallReadFile filePath])%list
       else
         exists etag cached,
           generateETag w filePath = Some etag
           /\ isCached w (parseHeaders req) etag path = Some cached
           /\ if cached : bool then
                r = empty 304 (headers cfg)
                /\ l = (l0 ++ [CallGenerateETag filePath;
                               CallIsCached (parseHeaders req) etag path])%list
              else
                exists fileBuffer,
                  readFile w filePath = Some fileBuffer
                  /\ r = new_Response fileBuffer (responseHeaders cfg etag)
                  /\ l = (l0 ++ [CallGenerateETag filePath;
                                 CallIsCached (parseHeaders req) etag path;
                                 CallReadFile filePath])%list.
Proof.
  unfold wildcard_handler. intros H.
  apply bind_returned in H as (path & c1 & l1 & l2 & Hp & H & ->).
  destruct (request_path_returned _ _ _ _ _ _ Hp) as [-> ->].
  destruct (truthy (shouldIgnore cfg path)) eqn:Hig; [discriminate|].
  apply try_catch_returned in H as [H|(e & c2 & l3 & l4 & _ & H & _)];
    [|discriminate].
  exists path.
  apply bind_returned in H as (known & c0 & l0 & l0' & Hk & H & ->).
  apply statCache_get_calls in Hk as ->.
  apply bind_returned in H as (status & c2 & l3 & l4 & Hs & H & ->).
  apply status_calls in Hs.
  destruct (negb (indexHTML cfg) && isDirectory status); [discriminate|].
  apply bind_returned in H as (filePath & c3 & l5 & l6 & Hf & H & ->).
  pose proof (resolve_filePath_calls env cfg path status w c2) as Hc.
  rewrite Hf in Hc. unfold calls_of in Hc. simpl in Hc.
  exists filePath, (l3 ++ l5)%list.
  split; [exact Hp|]. split; [exact Hig|].
  split; [rewrite forallb_app, Hs, Hc; reflexivity|].
  destruct (noCache cfg).
  - rewrite respond_noCache_run in H.
    destruct (readFile w filePath) as [b|]; [|discriminate].
    injection H as <- <- <-. exists b. simpl. rewrite <- app_assoc. auto.
  - apply bind_returned in H as (etag & c4 & l7 & l8 & He & H & ->).
    unfold await_generateETag in He.
    apply await_returned in He as (He & -> & ->).
    rewrite respond_cached_run in H. simpl in H.
    exists etag.
    destruct (isCached w (parseHeaders req) etag path) as [[|]|];
      [| |discriminate].
    + injection H as <- <- <-. exists true. simpl. rewrite <- app_assoc. auto.
    + destruct (readFile w filePath) as [b|]; [|discriminate].
      injection H as <- <- <-. exists false. simpl.
      repeat split; auto. exists b. rewrite <- app_assoc. auto.
Qed.

End Wildcard.

(** ** Facts about the string primitives *)

Lemma startsWith_empty s : Js.startsWith s "" = true.
Proof. destruct s; reflexivity. Qed.

Lemma includes_char a s c :
  Js.includes (String a s) (str c) = Ascii.eqb c a || Js.includes s (str c).
Proof.
  unfold str. simpl. rewrite startsWith_empty, andb_true_r. reflexivity.
Qed.

Lemma split_nonempty c s : Js.split c s <> [].
Proof.
  destruct s as [|a s]; simpl; [discriminate|].
  destruct (Ascii.eqb a c); [discriminate|].
  destruct (Js.split c s); discriminate.
Qed.

(** A string without the separator is the only piece of its split. *)
Lemma split_without c s :
  Js.includes s (str c) = false -> Js.split c s = [s].
Proof.
  induction s as [|a s IH]; [reflexivity|].
  rewrite includes_char. intros [Ha Hs]%orb_false_iff.
  simpl. rewrite Ascii.eqb_sym, Ha, (IH Hs). reflexivity.
Qed.

Lemma split_app c s t :
  Js.split c (s +:+ String c t) = (Js.split c s ++ Js.split c t)%list.
Proof.
  induction s as [|a s IH]; simpl.
  - rewrite Ascii.eqb_refl. reflexivity.
  - rewrite IH. destruct (Ascii.eqb a c); [reflexivity|].
    pose proof (split_nonempty c s).
    destruct (Js.split c s); [contradiction|reflexivity].
Qed.

Lemma join_split c s : Js.join (str c) (Js.split c s) = s.
Proof.
  induction s as [|a s IH]; [reflexivity|]. simpl.
  destruct (Ascii.eqb a c) eqn:Hac.
  - apply Ascii.eqb_eq in Hac as ->.
    pose proof (split_nonempty c s).
    destruct (Js.split c s) eqn:E; [contradiction|].
    simpl in *. rewrite IH. reflexivity.
  - pose proof (split_nonempty c s).
    destruct (Js.split c s) as [|w ws] eqn:E; [contradiction|].
    simpl in *. destruct ws; simpl in *; rewrite <- IH; reflexivity.
Qed.

Lemma removelast_snoc {A} (l : list A) x : removelast (l ++ [x]) = l.
Proof. apply removelast_last. Qed.

Section Strip.

Variable cfg : Config.

(** Lines 215-220 on a path with a dot: everything from the last dot on
    goes. *)
Lemma strip_extension_dot base ext :
  Js.includes ext "." = false ->
  strip_extension (base +:+ "." +:+ ext) = base.
Proof.
  intros Hext. unfold strip_extension, Js.splice_last.
  change ("." +:+ ext) with (String "."%char ext).
  rewrite split_app, (split_without _ _ Hext), removelast_snoc.
  apply (join_split "."%char).
Qed.

(** Lines 215-220 on a path without a dot: nothing is left. *)
Lemma strip_extension_no_dot relativePath :
  Js.includes relativePath "." = false ->
  strip_extension relativePath = "".
Proof.
  intros H. unfold strip_extension, Js.splice_last.
  rewrite (split_without _ _ H). reflexivity.
Qed.

End Strip.

(** ** Static mode: the routes of the loop *)

Section Static.

Variable env : Env.
Variable cfg : Config.

Lemma static_routes_run absolutePath w c :
  static_routes env cfg absolutePath w c =
    if skipped cfg absolutePath then (Returned [], c, [])
    else
      match generateETag w absolutePath with
      | Some etag =>
          (Returned (pushed_routes env cfg absolutePath etag), c,
           [CallGenerateETag absolutePath])
      | None => (Threw IOError, c, [CallGenerateETag absolutePath])
      end.
Proof.
  unfold static_routes, bind, await_generateETag, await, ret.
  destruct (skipped cfg absolutePath); [reflexivity|].
  destruct (generateETag w absolutePath); reflexivity.
Qed.

(** The loop returns the routes it started with followed by the routes
    pushed for each file it did not skip, and it has computed the ETag of
    each of those files. *)
Lemma for_each_file_returned files : forall routes w c rs c' l,
  for_each_file env cfg files routes w c = (Returned rs, c', l) ->
  (forall f, f ∈ files -> skipped cfg f = false ->
     exists etag, generateETag w f = Some etag)
  /\ (forall r, r ∈ rs <->
        r ∈ routes
        \/ exists f etag, f ∈ files /\ skipped cfg f = false
             /\ generateETag w f = Some etag
             /\ r ∈ pushed_routes env cfg f etag).
Proof.
  induction files as [|f files IH]; intros routes w c rs c' l H.
  - simpl in H. unfold ret in H. injection H as <- <- <-. split.
    + intros f Hf. inversion Hf.
    + intros r. split; [auto|]. intros [Hr|(f & e & Hf & _)]; [auto|].
      inversion Hf.
  - simpl in H.
    apply bind_returned in H as (pushed & c1 & l1 & l2 & Hp & H & ->).
    rewrite static_routes_run in Hp.
    apply IH in H as [Hetag Hrs].
    destruct (skipped cfg f) eqn:Hskip.
    + injection Hp as <- <- <-. split.
      * intros g [->|Hg]%elem_of_cons Hg'; [congruence|auto].
      * intros r. rewrite Hrs, app_nil_r. split.
        -- intros [Hr|(g & e & Hg & Hrest)]; [auto|].
           right. exists g, e. split; [by right|auto].
        -- intros [Hr|(g & e & [->|Hg]%elem_of_cons & Hsk & Hrest)];
             [auto|congruence|].
           right. exists g, e. auto.
    + destruct (generateETag w f) as [etag|] eqn:He; [|discriminate].
      injection Hp as <- <- <-. split.
      * intros g [->|Hg]%elem_of_cons Hg'; [eauto|auto].
      * intros r. rewrite Hrs, elem_of_app. split.
        -- intros [[Hr|Hr]|(g & e & Hg & Hrest)]; [auto| |].
           ++ right. exists f, etag. split; [by left|auto].
           ++ right. exists g, e. split; [by right|auto].
        -- intros [Hr|(g & e & [->|Hg]%elem_of_cons & Hsk & Hg' & Hr)];
             [auto| |].
           ++ left. right. congruence.
           ++ right. exists g, e. auto.
Qed.

(** The routes of the plugin, whichever mode it selects. *)
Lemma staticPlugin_routes files w c rs c' l r :
  staticPlugin env cfg files w c = (Returned rs, c', l) ->
  r ∈ rs ->
  (static_mode env cfg files = false /\ r = wildcard_route cfg)
  \/ (static_mode env cfg files = true
      /\ exists f etag, f ∈ files /\ skipped cfg f = false
           /\ generateETag w f = Some etag
           /\ r ∈ pushed_routes env cfg f etag).
Proof.
  unfold staticPlugin. destruct (static_mode env cfg files).
  - intros H Hr. right. split; [reflexivity|].
    apply for_each_file_returned in H as [_ H].
    apply H in Hr as [Hr|Hr]; [inversion Hr|exact Hr].
  - simpl. unfold ret. intros [= <- <- <-] Hr. left.
    apply list_elem_of_singleton in Hr. auto.
Qed.

(** The handler of a pushed route reads the file it was pushed for. *)
Lemma pushed_routes_handler absolutePath etag r :
  r ∈ pushed_routes env cfg absolutePath etag ->
  method r = "GET"
  /\ if noCache cfg then handler r = StaticNoCache absolutePath
     else exists key, handler r = StaticCached etag key absolutePath.
Proof.
  unfold pushed_routes.
  intros [->|Hr]%elem_of_cons.
  - simpl. destruct (noCache cfg); eauto.
  - destruct (indexHTML cfg && _); [|inversion Hr].
    apply list_elem_of_singleton in Hr as ->.
    simpl. destruct (noCache cfg); eauto.
Qed.

End Static.

(** ** Calls of the conditional evaluator *)

Lemma quiet_ret {A} (a : A) : quiet (ret a).
Proof. intros w c. reflexivity. Qed.

Lemma quiet_throw {A} e : quiet (@throw A e).
Proof. intros w c. reflexivity. Qed.

Lemma quiet_bind {A B} (m : M A) (k : A -> M B) :
  quiet m -> (forall a, quiet (k a)) -> quiet (bind m k).
Proof.
  intros Hm Hk w c. specialize (Hm w c). unfold bind, calls_of in *.
  destruct (m w c) as [[[a|e] c1] l1]; simpl in *; [|exact Hm].
  specialize (Hk a w c1). unfold calls_of in Hk.
  destruct (k a w c1) as [[o c2] l2]. simpl in *.
  unfold no_evaluator_call in *. rewrite forallb_app, Hm, Hk. reflexivity.
Qed.

Lemma quiet_try_catch {A} (m : M A) (h : Error -> M A) :
  quiet m -> (forall e, quiet (h e)) -> quiet (try_catch m h).
Proof.
  intros Hm Hh w c. specialize (Hm w c). unfold try_catch, calls_of in *.
  destruct (m w c) as [[[a|e] c1] l1]; simpl in *; [exact Hm|].
  specialize (Hh e w c1). unfold calls_of in Hh.
  destruct (h e w c1) as [[o c2] l2]. simpl in *.
  unfold no_evaluator_call in *. rewrite forallb_app, Hm, Hh. reflexivity.
Qed.

Lemma quiet_await {A} call (oracle : World -> option A) :
  is_CallIsCached call = false -> quiet (await call oracle).
Proof.
  intros H w c. unfold await, calls_of, no_evaluator_call.
  destruct (oracle w); simpl; rewrite H; reflexivity.
Qed.

Lemma only_stat_no_evaluator l :
  forallb is_CallStat l = true -> no_evaluator_call l = true.
Proof.
  unfold no_evaluator_call. rewrite !forallb_forall.
  intros H x Hx. specialize (H x Hx). destruct x; simpl in *; congruence.
Qed.

Section Quiet.

Variable isCached : World -> Validators -> string -> string -> option bool.
Variable env : Env.
Variable cfg : Config.

Lemma quiet_respond_noCache file : quiet (respond_noCache cfg file).
Proof.
  apply quiet_bind; [apply quiet_await; reflexivity|].
  intros b. apply quiet_ret.
Qed.

Lemma quiet_request_path req : quiet (request_path env cfg req).
Proof.
  apply quiet_bind; [|intros; apply quiet_ret].
  destruct (enableDecodeURI cfg); [|apply quiet_ret].
  destruct (Uri.decodeURI _); [apply quiet_ret|apply quiet_throw].
Qed.

Lemma quiet_statCache_get key : quiet (statCache_get key).
Proof. intros w c. unfold statCache_get. case_match. reflexivity. Qed.

Lemma quiet_statCache_set key v : quiet (statCache_set key v).
Proof. intros w c. unfold statCache_set. case_match; reflexivity. Qed.

(** With [noCache] the wildcard handler never reaches the evaluator. *)
Lemma quiet_wildcard_noCache req :
  noCache cfg = true -> quiet (wildcard_handler isCached env cfg req).
Proof.
  intros Hnc. unfold wildcard_handler.
  apply quiet_bind; [apply quiet_request_path|]. intros path.
  destruct (truthy _); [apply quiet_throw|].
  apply quiet_try_catch; [|intros; apply quiet_throw].
  apply quiet_bind; [apply quiet_statCache_get|]. intros known.
  apply quiet_bind.
  { destruct known; [apply quiet_ret|].
    apply quiet_bind; [apply quiet_await; reflexivity|]. intros s.
    apply quiet_bind; [apply quiet_statCache_set|]. intros; apply quiet_ret. }
  intros status. destruct (negb _ && _); [apply quiet_throw|].
  apply quiet_bind.
  { intros w c. apply only_stat_no_evaluator, resolve_filePath_calls. }
  intros filePath. rewrite Hnc. apply quiet_respond_noCache.
Qed.

End Quiet.

(** ** Responses of the routes of the plugin *)

Section Responses.

Variable isCached : World -> Validators -> string -> string -> option bool.
Variable env : Env.
Variable cfg : Config.

(** Every response of a route of the plugin is the full body of one file
    under the configured headers when [noCache] is set; otherwise the
    evaluator was asked about the ETag of that file and the response is
    what its answer selects. *)
Lemma route_returned files wb cb rs cb' lb r req w c resp c' l :
  staticPlugin env cfg files wb cb = (Returned rs, cb', lb) ->
  r ∈ rs ->
  handle isCached env cfg (handler r) req w c = (Returned resp, c', l) ->
  exists file,
    if noCache cfg then
      exists fileBuffer,
        readFile w file = Some fileBuffer
        /\ resp = new_Response fileBuffer (headers cfg)
    else
      exists etag key cached,
        generateETag (etag_world env cfg files wb w) file = Some etag
        /\ isCached w (parseHeaders req) etag key = Some cached
        /\ In (CallIsCached (parseHeaders req) etag key) l
        /\ if cached : bool then resp = empty 304 (headers cfg)
           else exists fileBuffer,
                  readFile w file = Some fileBuffer
                  /\ resp = new_Response fileBuffer (responseHeaders cfg etag).
Proof.
  intros Hbuilt Hr Hrun. unfold etag_world.
  destruct (staticPlugin_routes _ _ _ _ _ _ _ _ _ Hbuilt Hr)
    as [[Hmode ->]|(Hmode & f & etag & Hf & Hskip & Hetag & Hpushed)];
    rewrite Hmode.
  - simpl in Hrun.
    apply wildcard_returned in Hrun
      as (path & filePath & l0 & _ & _ & _ & Hrun).
    exists filePath. destruct (noCache cfg).
    + destruct Hrun as (b & Hb & -> & _). eauto.
    + destruct Hrun as (etag & cached & He & Hc & Hrun).
      exists etag, path, cached. split; [exact He|]. split; [exact Hc|].
      destruct cached.
      * destruct Hrun as [-> ->]. split; [|reflexivity].
        apply in_or_app. right. simpl. auto.
      * destruct Hrun as (b & Hb & -> & ->). split; [|eauto].
        apply in_or_app. right. simpl. auto.
  - exists f. apply pushed_routes_handler in Hpushed as [_ Hh].
    destruct (noCache cfg).
    + rewrite Hh in Hrun. simpl in Hrun. rewrite respond_noCache_run in Hrun.
      destruct (readFile w f) as [b|]; [|discriminate].
      injection Hrun as <- <- <-. eauto.
    + destruct Hh as [key Hh]. rewrite Hh in Hrun. simpl in Hrun.
      rewrite respond_cached_run in Hrun. simpl in Hrun.
      destruct (isCached w (parseHeaders req) etag key) as [cached|] eqn:Hc;
        [|discriminate].
      exists etag, key, cached. split; [exact Hetag|]. split; [exact Hc|].
      destruct cached.
      * injection Hrun as <- <- <-. split; [simpl; auto|reflexivity].
      * destruct (readFile w f) as [b|]; [|discriminate].
        injection Hrun as <- <- <-. split; [simpl; auto|eauto].
Qed.

(** With [noCache], no run of a route of the plugin calls the
    evaluator, whatever its outcome. *)
Lemma route_quiet_noCache files wb cb rs cb' lb r req :
  noCache cfg = true ->
  staticPlugin env cfg files wb cb = (Returned rs, cb', lb) ->
  r ∈ rs ->
  quiet (handle isCached env cfg (handler r) req).
Proof.
  intros Hnc Hbuilt Hr.
  destruct (staticPlugin_routes _ _ _ _ _ _ _ _ _ Hbuilt Hr)
    as [[_ ->]|(_ & f & etag & _ & _ & _ & Hpushed)].
  - simpl. apply quiet_wildcard_noCache, Hnc.
  - apply pushed_routes_handler in Hpushed as [_ Hh].
    rewrite Hnc in Hh. rewrite Hh. simpl. apply quiet_respond_noCache.
Qed.

(** The wildcard handler lets out a response or [NotFoundError], and
    beside them only the [URIError] of [decodeURI], thrown before the
    [try] block is entered. *)
Lemma wildcard_outcome req w c :
  match outcome_of (wildcard_handler isCached env cfg req w c) with
  | Returned resp => status resp = 200 \/ status resp = 304
  | Threw e =>
      e = NotFoundError \/ (e = URIError /\ enableDecodeURI cfg = true)
  end.
Proof.
  destruct (wildcard_handler isCached env cfg req w c) as [[[resp|e] c'] l] eqn:H.
  - simpl. apply wildcard_returned in H as (path & filePath & l0 & _ & _ & _ & H).
    destruct (noCache cfg).
    + destruct H as (b & _ & -> & _). left. reflexivity.
    + destruct H as (etag & [|] & _ & _ & H).
      * destruct H as [-> _]. right. reflexivity.
      * destruct H as (b & _ & -> & _). left. reflexivity.
  - simpl. unfold wildcard_handler, bind in H.
    destruct (request_path env cfg req w c) as [[[path|e0] c1] l1] eqn:Hp.
    + destruct (truthy (shouldIgnore cfg path)).
      * unfold throw in H. injection H as <- _ _. left. reflexivity.
      * match type of H with
        | context [try_catch ?m _ w c1] =>
            pose proof (try_catch_NotFound m w c1) as Hcatch
        end.
        unfold outcome_of in Hcatch.
        destruct (try_catch _ _ w c1) as [[o c2] l2].
        injection H as -> _ _. simpl in Hcatch. left. exact Hcatch.
    + injection H as <- _ _. right.
      eapply request_path_threw, Hp.
Qed.

End Responses.

Lemma quiet_static_routes env cfg absolutePath :
  quiet (static_routes env cfg absolutePath).
Proof.
  unfold static_routes. destruct (skipped cfg absolutePath); [apply quiet_ret|].
  apply quiet_bind; [apply quiet_await; reflexivity|].
  intros etag. apply quiet_ret.
Qed.

Lemma quiet_staticPlugin env cfg files : quiet (staticPlugin env cfg files).
Proof.
  unfold staticPlugin. destruct (static_mode env cfg files).
  - generalize (@nil Route). induction files as [|f files IH]; intros routes.
    + apply quiet_ret.
    + simpl. apply quiet_bind; [apply quiet_static_routes|].
      intros pushed. apply IH.
  - simpl. apply quiet_ret.
Qed.

(** ** Outcomes of the wildcard handler *)

(** X13: without [enableDecodeURI] the wildcard handler is uniform: every
    failure of the file system, of the caches and of the [./cache]
    module is folded into [NotFoundError]. *)
Lemma wildcard_uniform_without_decoding
    (isCached : World -> Validators -> string -> string -> option bool)
    (env : Env) (cfg : Config) (req : Request) (w : World) (c : Caches) :
  enableDecodeURI cfg = false ->
  uniform_outcome (outcome_of (wildcard_handler isCached env cfg req w c)).
Proof.
  intros Hd. pose proof (wildcard_outcome isCached env cfg req w c) as H.
  unfold uniform_outcome.
  destruct (outcome_of _) as [resp|e]; [exact H|].
  destruct H as [H|[_ H]]; [exact H|congruence].
Qed.

Lemma uniform_outcome_witness :
  uniform_outcome
    (outcome_of (wildcard_handler isCached_spec posix default_cfg
                   (GET "/public/missing.txt" no_validators) site no_caches)).
Proof.
  apply (wildcard_uniform_without_decoding isCached_spec posix default_cfg
           (GET "/public/missing.txt" no_validators) site no_caches).
  reflexivity.
Defined.

(** C3, at the request that breaks it: with [enableDecodeURI] set, a
    request whose path holds a malformed escape (here the lone [%] of
    [/public/100%.txt]) makes [decodeURI] throw before the [try] block is
    entered; the handler lets the [URIError] out, which is neither a
    response of status 200 or 304 nor [NotFoundError], whatever the file
    system and the caches hold. *)
Theorem C3_malformed_escape_escapes_the_catch
    (isCached : World -> Validators -> string -> string -> option bool)
    (w : World) (c : Caches) :
  outcome_of (wildcard_handler isCached posix decoding_cfg
                (GET "/public/100%.txt" no_validators) w c)
  = Threw URIError
  /\ ~ uniform_outcome
         (outcome_of (wildcard_handler isCached posix decoding_cfg
                        (GET "/public/100%.txt" no_validators) w c)).
Proof.
  split; [reflexivity|].
  change (outcome_of _) with (@Threw Response URIError).
  simpl. discriminate.
Qed.

(** ** The key handed to the conditional evaluator *)

(** X20: in dynamic mode the key handed to the evaluator is always the
    candidate path of the request, also when another file is served. *)
Lemma wildcard_evaluator_key
    (isCached : World -> Validators -> string -> string -> option bool)
    (env : Env) (cfg : Config) (req : Request) (w : World) (c : Caches)
    (resp : Response) (c' : Caches) (l : list Call) v etag key :
  wildcard_handler isCached env cfg req w c = (Returned resp, c', l) ->
  In (CallIsCached v etag key) l ->
  request_path env cfg req w c = (Returned key, c, []).
Proof.
  intros H Hin.
  apply wildcard_returned in H as (path & filePath & l0 & Hp & _ & Hl0 & H).
  assert (Hnot : ~ In (CallIsCached v etag key) l0).
  { intros Hin0. rewrite forallb_forall in Hl0.
    specialize (Hl0 _ Hin0). discriminate. }
  destruct (noCache cfg).
  - destruct H as (b & _ & _ & ->).
    apply in_app_or in Hin as [Hin|[Hin|[]]]; [contradiction|discriminate].
  - destruct H as (e & [|] & _ & _ & H).
    + destruct H as [_ ->].
      apply in_app_or in Hin as [Hin|[Hin|[Hin|[]]]];
        [contradiction|discriminate|congruence].
    + destruct H as (b & _ & _ & ->).
      apply in_app_or in Hin as [Hin|[Hin|[Hin|[Hin|[]]]]];
        [contradiction|discriminate|congruence|discriminate].
Qed.

Lemma evaluator_key_witness :
  request_path posix default_cfg (GET "/public/html" since_150) site no_caches
  = (Returned "public/html", no_caches, []).
Proof.
  apply (wildcard_evaluator_key isCached_spec posix default_cfg
           (GET "/public/html" since_150) site no_caches
           (empty 304 ∅)
           (caches_of (wildcard_handler isCached_spec posix default_cfg
                         (GET "/public/html" since_150) site no_caches))
           [CallStat "public/html"; CallStat "public/html/index.html";
            CallGenerateETag "public/html/index.html";
            CallIsCached since_150 "etag(<html></html>)" "public/html"]
           since_150 "etag(<html></html>)" "public/html").
  - vm_compute. reflexivity.
  - do 3 right. left. reflexivity.
Defined.

(** C5, at the request that breaks it: [public/html] is a directory
    last modified at 100 whose [index.html] was last modified at 200.  A
    request for [/public/html] with [If-Modified-Since] 150 is served
    from the index file, whose ETag is computed, but the evaluator is
    called with the directory as its key; under the evaluator of the
    specification the answer is 304, although with the index file as key
    the same evaluator answers that the file was modified.  The second
    route that static mode pushes for an index file hands the evaluator
    the URL path of the first route, not the path of the file. *)
Theorem C5_evaluator_key_is_not_the_served_file :
  calls_of (wildcard_handler isCached_spec posix default_cfg
              (GET "/public/html" since_150) site no_caches)
  = [CallStat "public/html"; CallStat "public/html/index.html";
     CallGenerateETag "public/html/index.html";
     CallIsCached since_150 "etag(<html></html>)" "public/html"]
  /\ outcome_of (wildcard_handler isCached_spec posix default_cfg
                   (GET "/public/html" since_150) site no_caches)
     = Returned (empty 304 ∅)
  /\ stat site "public/html" = Some (a_directory 100)
  /\ stat site "public/html/index.html" = Some (a_file 200)
  /\ isCached_spec site since_150 "etag(<html></html>)" "public/html/index.html"
     = Some false
  /\ handler <$> pushed_routes posix static_cfg
                   "/srv/app/public/html/index.html" "etag(<html></html>)"
     = [ StaticCached "etag(<html></html>)" "/srv/app/public/html/index.html"
           "/srv/app/public/html/index.html";
         StaticCached "etag(<html></html>)" "/public/html/index.html"
           "/srv/app/public/html/index.html" ].
Proof.
  repeat split; vm_compute; reflexivity.
Qed.

(** ** Ignore rules *)

(** X10: what the code does exclude is not served in either mode. *)
Lemma ignored_is_not_served
    (isCached : World -> Validators -> string -> string -> option bool)
    (env : Env) (cfg : Config) :
  (forall absolutePath w c,
     truthy (shouldIgnore cfg absolutePath) = true ->
     static_routes env cfg absolutePath w c = (Returned [], c, []))
  /\ (forall req w c path,
        request_path env cfg req w c = (Returned path, c, []) ->
        truthy (shouldIgnore cfg path) = true ->
        wildcard_handler isCached env cfg req w c = (Threw NotFoundError, c, [])).
Proof.
  split.
  - intros f w c H. rewrite static_routes_run. unfold skipped.
    rewrite H, orb_true_r. reflexivity.
  - intros req w c path Hp H. unfold wildcard_handler, bind.
    rewrite Hp, H. reflexivity.
Qed.

(** C1, at the input that breaks it: the rule [".git"] of the default
    list occurs inside the path of [public/.git/config], so the
    specification excludes the file; but [shouldIgnore] asks whether the path occurs
    inside the rule, finds no rule, and the file is published: static
    mode pushes a route for it, and in dynamic mode the request for it is
    answered 200 with its content. *)
Theorem C1_string_rule_is_tested_the_wrong_way_round :
  ignorePatterns static_cfg = [PString ".DS_Store"; PString ".git"; PString ".env"]
  /\ Js.includes "/srv/app/public/.git/config" ".git" = true
  /\ Js.includes ".git" "/srv/app/public/.git/config" = false
  /\ shouldIgnore static_cfg "/srv/app/public/.git/config" = None
  /\ outcome_of (staticPlugin posix static_cfg ["/srv/app/public/.git/config"]
                   site no_caches)
     = Returned [ {| method := "GET";
                     path := "/public/.git/config";
                     handler := StaticCached "etag([core])"
                                  "/srv/app/public/.git/config"
                                  "/srv/app/public/.git/config" |} ]
  /\ ignorePatterns ignoring_cfg = ignorePatterns static_cfg
  /\ static_mode posix ignoring_cfg [] = false
  /\ Js.includes "public/.git/config" ".git" = true
  /\ shouldIgnore ignoring_cfg "public/.git/config" = None
  /\ outcome_of (wildcard_handler isCached_spec posix ignoring_cfg
                   (GET "/public/.git/config" no_validators) site no_caches)
     = Returned (new_Response "[core]"
                   (responseHeaders ignoring_cfg "etag([core])")).
Proof.
  repeat split; vm_compute; reflexivity.
Qed.

(** ** The second route of an index file *)

Lemma startsWith_app s t p :
  (String.length p <= String.length s)%nat ->
  Js.startsWith (s +:+ t) p = Js.startsWith s p.
Proof.
  revert s. induction p as [|b p IH]; intros s Hlen.
  - rewrite !startsWith_empty. reflexivity.
  - destruct s as [|a s]; [simpl in Hlen; lia|].
    change (String a s +:+ t) with (String a (s +:+ t)).
    cbn [Js.startsWith]. rewrite IH by (simpl in Hlen; lia). reflexivity.
Qed.

Lemma length_app s t :
  String.length (s +:+ t) = (String.length s + String.length t)%nat.
Proof. induction s; simpl; auto. Qed.

Lemma string_app_assoc s t u : (s +:+ t) +:+ u = s +:+ (t +:+ u).
Proof.
  induction s as [|a s IH]; [reflexivity|].
  change (String a ((s +:+ t) +:+ u) = String a (s +:+ (t +:+ u))).
  rewrite IH. reflexivity.
Qed.

(** When ["/index.html"] occurs in the path only as its suffix, line 260
    removes that suffix. *)
Lemma replace_index_suffix base :
  Js.includes (base +:+ "/index.htm") "/index.html" = false ->
  Js.replace (base +:+ "/index.html") "/index.html" "" = base.
Proof.
  induction base as [|a base IH]; intros H; [reflexivity|].
  change (String a base +:+ "/index.htm")
    with (String a (base +:+ "/index.htm")) in H.
  cbn [Js.includes] in H. apply orb_false_iff in H as [Hhere Hrest].
  assert (Hstart :
    Js.startsWith (String a base +:+ "/index.html") "/index.html" = false).
  { change "/index.html" with ("/index.htm" +:+ "l") at 1.
    rewrite <- string_app_assoc.
    rewrite startsWith_app; [exact Hhere|].
    rewrite length_app. simpl. lia. }
  change (String a base +:+ "/index.html")
    with (String a (base +:+ "/index.html")) in *.
  cbn [Js.replace]. rewrite Hstart. f_equal. apply IH, Hrest.
Qed.

(** C8, at the file that breaks it: [index.html] inside the directory
    [index.html.d].  The first route is at
    [/public/index.html.d/index.html]; the second is pushed at that path
    with the first occurrence of ["/index.html"] removed,
    [/public.d/index.html], and not at the path with its trailing
    ["/index.html"] removed, [/public/index.html.d].  Both routes serve
    the same file under the same ETag. *)
Theorem C8_second_route_drops_the_first_occurrence :
  outcome_of (staticPlugin posix static_cfg
                ["/srv/app/public/index.html.d/index.html"] site no_caches)
  = Returned
      [ {| method := "GET";
           path := "/public/index.html.d/index.html";
           handler := StaticCached "etag(<p></p>)"
                        "/srv/app/public/index.html.d/index.html"
                        "/srv/app/public/index.html.d/index.html" |};
        {| method := "GET";
           path := "/public.d/index.html";
           handler := StaticCached "etag(<p></p>)"
                        "/public/index.html.d/index.html"
                        "/srv/app/public/index.html.d/index.html" |} ]
  /\ "/public/index.html.d/index.html" = "/public/index.html.d" +:+ "/index.html"
  /\ Js.replace "/public/index.html.d/index.html" "/index.html" ""
     <> "/public/index.html.d".
Proof.
  split; [vm_compute; reflexivity|]. split; [reflexivity|].
  vm_compute. discriminate.
Qed.

(** ** The URL path of a file and of its extension-less route *)

Lemma includes_app_char s t c :
  Js.includes (s +:+ t) (str c) = Js.includes s (str c) || Js.includes t (str c).
Proof.
  induction s as [|a s IH].
  - change ("" +:+ t) with t. reflexivity.
  - change (String a s +:+ t) with (String a (s +:+ t)).
    rewrite !includes_char, IH, orb_assoc. reflexivity.
Qed.

(** Appending a text without the separator extends the last piece. *)
Lemma split_app_tail c s t :
  Js.includes t (str c) = false ->
  exists init final,
    Js.split c s = (init ++ [final])%list
    /\ Js.split c (s +:+ t) = (init ++ [final +:+ t])%list.
Proof.
  intros Ht. induction s as [|a s (init & final & Hs & Hst)].
  - exists [], "". split; [reflexivity|].
    change ("" +:+ t) with t. apply split_without, Ht.
  - change (String a s +:+ t) with (String a (s +:+ t)). simpl.
    rewrite Hs, Hst. destruct (Ascii.eqb a c).
    + exists ("" :: init), final. split; reflexivity.
    + destruct init as [|w init]; simpl.
      * exists [], (String a final). split; reflexivity.
      * exists (String a w :: init), final. split; reflexivity.
Qed.

Lemma join_cons sep w ws :
  ws <> [] -> Js.join sep (w :: ws) = w +:+ sep +:+ Js.join sep ws.
Proof. destruct ws; [contradiction|reflexivity]. Qed.

Lemma join_snoc_app sep L x t :
  Js.join sep (L ++ [x +:+ t]) = Js.join sep (L ++ [x]) +:+ t.
Proof.
  induction L as [|w L IH]; [reflexivity|].
  rewrite <- !app_comm_cons.
  rewrite !join_cons by (destruct L; discriminate).
  rewrite IH, !string_app_assoc. reflexivity.
Qed.

Lemma join_snoc_nonempty sep L x :
  x <> "" -> Js.join sep (L ++ [x]) <> "".
Proof.
  intros Hx. induction L as [|w L IH]; [exact Hx|].
  rewrite <- app_comm_cons, join_cons by (destruct L; discriminate).
  destruct w; [|discriminate].
  change ("" +:+ sep +:+ Js.join sep (L ++ [x]))
    with (sep +:+ Js.join sep (L ++ [x])).
  destruct sep; [exact IH|discriminate].
Qed.

Lemma drop_app P s n :
  Js.drop (String.length P + n) (P +:+ s) = Js.drop n s.
Proof. induction P as [|a P IH]; [reflexivity|exact IH]. Qed.

Lemma drop_to_last s : forall a,
  exists z, Js.drop (String.length s) (String a s) = String z ""
            /\ forall c, Js.includes (String a s) (str c) = false ->
                         Ascii.eqb z c = false.
Proof.
  induction s as [|b s IH]; intros a.
  - exists a. split; [reflexivity|]. intros c. rewrite includes_char.
    intros [H _]%orb_false_iff. rewrite Ascii.eqb_sym. exact H.
  - destruct (IH b) as (z & Hz & Hc). exists z. split; [exact Hz|].
    intros c. rewrite includes_char. intros [_ H]%orb_false_iff. auto.
Qed.

(** A path whose last piece is not empty does not end with the
    separator. *)
Lemma endsWith_char_false P t c :
  t <> "" -> Js.includes t (str c) = false ->
  Js.endsWith (P +:+ t) (str c) = false.
Proof.
  intros Ht Hc. destruct t as [|a t]; [contradiction|].
  destruct (drop_to_last t a) as (z & Hz & Hzc).
  unfold Js.endsWith. rewrite length_app. simpl String.length.
  replace (String.length P + S (String.length t) - 1)%nat
    with (String.length P + String.length t)%nat by lia.
  rewrite drop_app, Hz. simpl. rewrite (Hzc c Hc), andb_false_r. reflexivity.
Qed.

Lemma normalizeSegments_proper b acc x :
  proper_segment x ->
  PosixPath.normalizeSegments b acc [x] = rev (x :: acc).
Proof.
  intros (H1 & H2 & H3). simpl.
  apply String.eqb_neq in H1, H2, H3. rewrite H1, H2, H3. reflexivity.
Qed.

Lemma normalizeSegments_snoc b S : forall acc,
  exists acc', forall x,
    PosixPath.normalizeSegments b acc (S ++ [x])
    = PosixPath.normalizeSegments b acc' [x].
Proof.
  induction S as [|seg S IH]; intros acc; [exists acc; reflexivity|].
  cbn [app PosixPath.normalizeSegments].
  destruct (String.eqb seg "" || String.eqb seg "."); [apply IH|].
  destruct (String.eqb seg ".."); [|apply IH].
  destruct acc as [|final acc]; [destruct b; apply IH|].
  destruct (String.eqb final ".."); apply IH.
Qed.

Lemma proper_with_extension stem ext :
  proper_segment stem -> proper_segment (stem +:+ "." +:+ ext).
Proof.
  intros (H1 & H2 & H3). destruct stem as [|a stem]; [contradiction|].
  change (String a stem +:+ "." +:+ ext)
    with (String a (stem +:+ "." +:+ ext)).
  split; [discriminate|]. split.
  - intros [= -> H]. destruct stem; discriminate.
  - intros [= -> H]. destruct stem as [|b stem]; [|].
    + contradiction.
    + injection H as -> H. destruct stem; discriminate.
Qed.

(** [normalize] leaves the extension of a proper file name alone. *)
Lemma normalize_extension P stem ext :
  P = "" \/ (exists Q, P = Q +:+ "/") ->
  proper_segment stem ->
  Js.includes stem "/" = false ->
  Js.includes ext "/" = false ->
  PosixPath.normalize (P +:+ stem +:+ "." +:+ ext)
  = PosixPath.normalize (P +:+ stem) +:+ "." +:+ ext.
Proof.
  intros HP Hstem Hs He.
  set (t := "." +:+ ext).
  assert (Ht : Js.includes (stem +:+ t) (str PosixPath.slash) = false).
  { rewrite includes_app_char. apply orb_false_iff. split; [exact Hs|].
    unfold t. change ("." +:+ ext) with (String "."%char ext).
    rewrite includes_char. exact He. }
  assert (Hsplit : exists S,
            Js.split PosixPath.slash (P +:+ stem) = (S ++ [stem])%list
            /\ Js.split PosixPath.slash (P +:+ stem +:+ t)
               = (S ++ [stem +:+ t])%list).
  { destruct HP as [->|[Q ->]].
    - exists []. split; apply split_without; assumption.
    - exists (Js.split PosixPath.slash Q).
      rewrite !string_app_assoc.
      change ("/" +:+ stem) with (String PosixPath.slash stem).
      change ("/" +:+ stem +:+ t) with (String PosixPath.slash (stem +:+ t)).
      rewrite !split_app. split; f_equal; apply split_without; assumption. }
  destruct Hsplit as (S & HS & HSt).
  assert (Hne : P +:+ stem <> "").
  { destruct Hstem as [H _]. destruct P; [exact H|discriminate]. }
  assert (Hlen : (1 <= String.length (P +:+ stem))%nat).
  { destruct (P +:+ stem); [contradiction|simpl; lia]. }
  assert (Hend : Js.endsWith (P +:+ stem) "/" = false).
  { apply (endsWith_char_false P stem PosixPath.slash); [apply Hstem|exact Hs]. }
  assert (Hendt : Js.endsWith (P +:+ stem +:+ t) "/" = false).
  { apply (endsWith_char_false P (stem +:+ t) PosixPath.slash); [|exact Ht].
    destruct Hstem as [H _]. destruct stem; [contradiction|discriminate]. }
  revert HSt Hendt. rewrite <- (string_app_assoc P stem t).
  generalize dependent (P +:+ stem). intros J HS Hne Hlen Hend HSt Hendt.
  unfold PosixPath.normalize.
  assert (Hnet : String.eqb (J +:+ t) "" = false).
  { apply String.eqb_neq. destruct J; [contradiction|discriminate]. }
  apply String.eqb_neq in Hne. rewrite Hnet, Hne.
  rewrite (startsWith_app J t "/") by exact Hlen.
  rewrite HS, HSt, Hend, Hendt. cbv zeta.
  destruct (normalizeSegments_snoc (negb (Js.startsWith J "/")) S [])
    as [acc Hacc].
  rewrite !Hacc.
  rewrite !normalizeSegments_proper
    by (try apply proper_with_extension; exact Hstem).
  cbn [rev]. rewrite join_snoc_app.
  assert (Hp : Js.join "/" (rev acc ++ [stem]) <> "")
    by (apply join_snoc_nonempty, Hstem).
  apply String.eqb_neq in Hp as Hp'. rewrite Hp'.
  assert (Hpt : String.eqb (Js.join "/" (rev acc ++ [stem]) +:+ t) "" = false).
  { apply String.eqb_neq. destruct (Js.join "/" (rev acc ++ [stem]));
      [contradiction|discriminate]. }
  rewrite Hpt. destruct (Js.startsWith J "/"); reflexivity.
Qed.

Section PathName.

Variable env : Env.
Variable cfg : Config.

(** Where the platform separator is not ["/"], the URL path keeps the
    extension of the relative path as it is. *)
Lemma pathName_of_extension_other base ext :
  isFSSepUnsafe env = true ->
  Js.includes ("." +:+ ext) (str (sep env)) = false ->
  pathName_of env cfg (base +:+ "." +:+ ext)
  = pathName_of env cfg base +:+ "." +:+ ext.
Proof.
  intros Hsep Hext. unfold pathName_of. rewrite Hsep.
  destruct (split_app_tail (sep env) base _ Hext) as (init & final & H1 & H2).
  rewrite H1, H2, join_snoc_app, string_app_assoc. reflexivity.
Qed.

(** On posix, [join] keeps the extension of a file name whose stem is a
    proper segment. *)
Lemma pathName_of_extension_posix dir stem ext :
  isFSSepUnsafe env = false ->
  dir = "" \/ (exists Q, dir = Q +:+ "/") ->
  proper_segment stem ->
  Js.includes stem "/" = false ->
  Js.includes ext "/" = false ->
  pathName_of env cfg ((dir +:+ stem) +:+ "." +:+ ext)
  = pathName_of env cfg (dir +:+ stem) +:+ "." +:+ ext.
Proof.
  intros Hsep Hdir Hstem Hs He. unfold pathName_of. rewrite Hsep.
  unfold PosixPath.join.
  assert (Hne : dir +:+ stem <> "").
  { destruct Hstem as [H _]. destruct dir; [exact H|discriminate]. }
  assert (Hnet : (dir +:+ stem) +:+ "." +:+ ext <> "").
  { destruct (dir +:+ stem); [contradiction|discriminate]. }
  apply String.eqb_neq in Hne, Hnet. rewrite Hne, Hnet.
  destruct (String.eqb (mount cfg) "").
  - rewrite string_app_assoc. apply normalize_extension; assumption.
  - replace (mount cfg +:+ "/" +:+ (dir +:+ stem) +:+ "." +:+ ext)
      with ((mount cfg +:+ "/" +:+ dir) +:+ stem +:+ "." +:+ ext)
      by (rewrite !string_app_assoc; reflexivity).
    replace (mount cfg +:+ "/" +:+ dir +:+ stem)
      with ((mount cfg +:+ "/" +:+ dir) +:+ stem)
      by (rewrite !string_app_assoc; reflexivity).
    apply normalize_extension; try assumption.
    right. destruct Hdir as [->|[Q ->]].
    + exists (mount cfg). f_equal.
    + exists (mount cfg +:+ "/" +:+ Q). rewrite !string_app_assoc. reflexivity.
Qed.

End PathName.

(** ** The strip-extension option *)

Section NoExtension.

Variable env : Env.
Variable cfg : Config.

(** The route of a file: its path is built from the relative path as
    lines 213-220 leave it, its handler reads the file itself. *)
Lemma first_route_pushed files w c rs c' l f :
  static_mode env cfg files = true ->
  staticPlugin env cfg files w c = (Returned rs, c', l) ->
  f ∈ files ->
  skipped cfg f = false ->
  exists etag,
    generateETag w f = Some etag
    /\ {| method := "GET";
          path := pathName_of env cfg (relativePath_of env cfg f);
          handler := if noCache cfg then StaticNoCache f
                     else StaticCached etag f f |} ∈ rs.
Proof.
  intros Hmode Hbuilt Hf Hskip. unfold staticPlugin in Hbuilt.
  rewrite Hmode in Hbuilt.
  apply for_each_file_returned in Hbuilt as [Hetag Hrs].
  destruct (Hetag f Hf Hskip) as [etag He]. exists etag. split; [exact He|].
  apply Hrs. right. exists f, etag. repeat split; auto.
  unfold pushed_routes. apply list_elem_of_here.
Qed.

(** A response of status 200 of a static handler is the content of the
    file the handler was built for. *)
Lemma static_handler_reads isCached f h req w c resp c' l :
  (h = StaticNoCache f \/ exists etag key, h = StaticCached etag key f) ->
  handle isCached env cfg h req w c = (Returned resp, c', l) ->
  status resp = 200 ->
  body resp = readFile w f /\ is_Some (body resp) /\ In (CallReadFile f) l.
Proof.
  intros [->|(etag & key & ->)] Hrun Hstatus; simpl in Hrun.
  - rewrite respond_noCache_run in Hrun.
    destruct (readFile w f) as [b|]; [|discriminate].
    injection Hrun as <- <- <-. simpl. eauto.
  - rewrite respond_cached_run in Hrun. simpl in Hrun.
    destruct (isCached w (parseHeaders req) etag key) as [[|]|];
      [subst; injection Hrun as <- _ _; discriminate| |discriminate].
    destruct (readFile w f) as [b|]; [|discriminate].
    injection Hrun as <- <- <-. simpl. eauto.
Qed.

End NoExtension.


(** C10 fails as stated: with the empty prefix, the file [LICENSE],
    whose relative path holds no dot, gets the route path ["."], which is
    not the configured prefix. *)
Lemma C10_empty_prefix_counterexample :
  prefix rootless_cfg = ""
  /\ Js.replace "/srv/app/public/LICENSE" (assetsDir posix rootless_cfg) ""
     = "/LICENSE"
  /\ Js.includes "/LICENSE" "." = false
  /\ outcome_of (staticPlugin posix rootless_cfg ["/srv/app/public/LICENSE"]
                   site no_caches)
     = Returned [ {| method := "GET";
                     path := ".";
                     handler := StaticCached "etag(MIT)"
                                  "/srv/app/public/LICENSE"
                                  "/srv/app/public/LICENSE" |} ]
  /\ "." <> prefix rootless_cfg.
Proof.
  repeat split; try (vm_compute; reflexivity). vm_compute. discriminate.
Qed.

(** C10, amended: in static mode with [noExtension] the stripping works
    on the whole relative path at its last dot.  For a file whose
    relative path holds no dot the whole relative path goes, and the
    route path is built from the empty relative path: it is the prefix
    when the platform separator is not ["/"], and otherwise what
    [path.join] makes of the prefix alone, that is ["."] for the empty
    prefix and the normalized prefix for any other.  For a file whose
    relative path is [a.b] with no dot in [b], wherever the dot stands,
    the route path is built from [a], the relative path cut at that
    dot. *)
Theorem C10_stripping_works_on_the_relative_path
    (env : Env) (cfg : Config) (files : list string)
    (w : World) (c : Caches) (rs : list Route) (c' : Caches) (l : list Call)
    (f : string) :
  noExtension cfg = true ->
  static_mode env cfg files = true ->
  staticPlugin env cfg files w c = (Returned rs, c', l) ->
  f ∈ files ->
  skipped cfg f = false ->
  exists etag,
    generateETag w f = Some etag
    /\ (Js.includes (Js.replace f (assetsDir env cfg) "") "." = false ->
          {| method := "GET";
             path := pathName_of env cfg "";
             handler := if noCache cfg then StaticNoCache f
                        else StaticCached etag f f |} ∈ rs
          /\ pathName_of env cfg ""
             = (if isFSSepUnsafe env then mount cfg
                else if String.eqb (mount cfg) "" then "."
                else PosixPath.normalize (mount cfg)))
    /\ (forall a b,
          Js.replace f (assetsDir env cfg) "" = a +:+ "." +:+ b ->
          Js.includes b "." = false ->
          {| method := "GET";
             path := pathName_of env cfg a;
             handler := if noCache cfg then StaticNoCache f
                        else StaticCached etag f f |} ∈ rs).
Proof.
  intros Hne Hmode Hbuilt Hf Hskip.
  destruct (first_route_pushed env cfg _ _ _ _ _ _ _ Hmode Hbuilt Hf Hskip)
    as (etag & He & Hr).
  unfold relativePath_of in Hr. rewrite Hne in Hr.
  exists etag. split; [exact He|]. split.
  - intros Hdot. rewrite (strip_extension_no_dot _ Hdot) in Hr.
    split; [exact Hr|].
    unfold pathName_of. destruct (isFSSepUnsafe env).
    + simpl. clear. induction (mount cfg) as [|a s IH]; [reflexivity|].
      change (String a s +:+ "") with (String a (s +:+ "")).
      rewrite IH. reflexivity.
    + unfold PosixPath.join. destruct (String.eqb (mount cfg) ""); reflexivity.
  - intros a b Hrel Hb. rewrite Hrel, (strip_extension_dot _ _ Hb) in Hr.
    exact Hr.
Qed.

Lemma C10_stripping_witness :
  exists etag,
    generateETag site "/srv/app/public/LICENSE" = Some etag
    /\ (Js.includes (Js.replace "/srv/app/public/LICENSE"
                       (assetsDir posix stripping_cfg) "") "." = false ->
          {| method := "GET";
             path := pathName_of posix stripping_cfg "";
             handler := if noCache stripping_cfg
                        then StaticNoCache "/srv/app/public/LICENSE"
                        else StaticCached etag "/srv/app/public/LICENSE"
                               "/srv/app/public/LICENSE" |}
          ∈ [ {| method := "GET"; path := "/public";
                 handler := StaticCached "etag(MIT)" "/srv/app/public/LICENSE"
                              "/srv/app/public/LICENSE" |} ]
          /\ pathName_of posix stripping_cfg ""
             = (if isFSSepUnsafe posix then mount stripping_cfg
                else if String.eqb (mount stripping_cfg) "" then "."
                else PosixPath.normalize (mount stripping_cfg)))
    /\ (forall a b,
          Js.replace "/srv/app/public/LICENSE" (assetsDir posix stripping_cfg) ""
          = a +:+ "." +:+ b ->
          Js.includes b "." = false ->
          {| method := "GET";
             path := pathName_of posix stripping_cfg a;
             handler := if noCache stripping_cfg
                        then StaticNoCache "/srv/app/public/LICENSE"
                        else StaticCached etag "/srv/app/public/LICENSE"
                               "/srv/app/public/LICENSE" |}
          ∈ [ {| method := "GET"; path := "/public";
                 handler := StaticCached "etag(MIT)" "/srv/app/public/LICENSE"
                              "/srv/app/public/LICENSE" |} ]).
Proof.
  apply (C10_stripping_works_on_the_relative_path posix stripping_cfg
           ["/srv/app/public/LICENSE"] site no_caches
           [ {| method := "GET"; path := "/public";
                handler := StaticCached "etag(MIT)" "/srv/app/public/LICENSE"
                             "/srv/app/public/LICENSE" |} ]
           no_caches [CallGenerateETag "/srv/app/public/LICENSE"]
           "/srv/app/public/LICENSE").
  - reflexivity.
  - reflexivity.
  - vm_compute. reflexivity.
  - apply list_elem_of_here.
  - reflexivity.
Defined.

(** ** Enumeration of the assets directory: what [listFiles] returns *)

Lemma file_at_nonempty n names : file_at n names -> names <> [].
Proof. intros H. destruct H; discriminate. Qed.

Lemma file_at_later name child rest names :
  file_at (Directory rest) names ->
  file_at (Directory (entry name child rest)) names.
Proof.
  intros H. inversion H; subst.
  - apply file_at_entry. apply has_entry_later. assumption.
  - eapply file_at_below; [apply has_entry_later|]; eassumption.
Qed.

(** The files below an entry list are those below its first entry and
    those below the rest. *)
Lemma file_at_entry_inv name child rest names :
  file_at (Directory (entry name child rest)) names ->
  (names = [name] /\ child = RegularFile)
  \/ (exists below, names = name :: below /\ file_at child below)
  \/ file_at (Directory rest) names.
Proof.
  intros H. inversion H as [es nm Hh|es nm ch below Hh Hb]; subst.
  - inversion Hh; subst; [left; auto|].
    right. right. apply file_at_entry. assumption.
  - inversion Hh; subst; [right; left; eauto|].
    right. right. eapply file_at_below; eassumption.
Qed.

Lemma listed_path_cons env dir name names :
  names <> [] ->
  listed_path env dir (name :: names)
  = listed_path env (dir +:+ str (sep env) +:+ name) names.
Proof.
  intros H. unfold listed_path. destruct names; [contradiction|reflexivity].
Qed.

Lemma listFiles_members env :
  (forall n dir l, listFiles env dir n = Some l ->
     forall x, In x l <->
       exists names, file_at n names /\ x = listed_path env dir names)
  /\ (forall files dir l, listEntries env dir files = Some l ->
        forall x, In x l <->
          exists names, file_at (Directory files) names
                        /\ x = listed_path env dir names).
Proof.
  apply Node_Entries_ind.
  - intros dir l H. discriminate.
  - intros entries IH dir l H x. simpl in H. exact (IH dir l H x).
  - intros dir l H. discriminate.
  - intros dir l H. discriminate.
  - intros dir l H x. simpl in H. injection H as <-. split; [intros []|].
    intros (names & H & _). inversion H as [? ? Hh|? ? ? ? Hh]; inversion Hh.
  - intros name child IHc rest IHr dir l H x. simpl in H.
    set (file := dir +:+ str (sep env) +:+ name) in *.
    destruct (listEntries env dir rest) as [others|] eqn:Hrest;
      [|destruct child; try destruct (listFiles env file _); discriminate].
    specialize (IHr dir others Hrest x).
    assert (Hlater : In x others ->
              exists names, file_at (Directory (entry name child rest)) names
                            /\ x = listed_path env dir names).
    { intros Hx. apply IHr in Hx as (names & Hn & ->).
      exists names. split; [apply file_at_later; exact Hn|reflexivity]. }
    destruct child as [|entries| |].
    + injection H as <-. split.
      * intros [<-|Hx]; [|auto].
        exists [name]. split; [apply file_at_entry, has_entry_first|reflexivity].
      * intros (names & Hn & ->).
        apply file_at_entry_inv in Hn as [[-> _]|[(below & -> & Hb)|Hn]].
        -- left. reflexivity.
        -- inversion Hb.
        -- right. apply IHr. eauto.
    + destruct (listFiles env file (Directory entries)) as [listed|] eqn:Hc;
        [|discriminate].
      injection H as <-. specialize (IHc file listed Hc x).
      rewrite in_app_iff. split.
      * intros [Hx|Hx]; [|auto].
        apply IHc in Hx as (names & Hn & ->).
        exists (name :: names). split.
        -- eapply file_at_below; [apply has_entry_first|exact Hn].
        -- symmetry. apply listed_path_cons. eapply file_at_nonempty, Hn.
      * intros (names & Hn & ->).
        apply file_at_entry_inv in Hn as [[_ [=]]|[(below & -> & Hb)|Hn]].
        -- left. apply IHc. exists below. split; [exact Hb|].
           apply listed_path_cons. eapply file_at_nonempty, Hb.
        -- right. apply IHr. eauto.
    + discriminate.
    + discriminate.
Qed.

Lemma listFiles_length env :
  (forall n dir l, listFiles env dir n = Some l -> length l = count_files n)
  /\ (forall files dir l, listEntries env dir files = Some l ->
        length l = count_entries files).
Proof.
  apply Node_Entries_ind.
  - intros dir l H. discriminate.
  - intros entries IH dir l H. simpl in H. exact (IH dir l H).
  - intros dir l H. discriminate.
  - intros dir l H. discriminate.
  - intros dir l H. simpl in H. injection H as <-. reflexivity.
  - intros name child IHc rest IHr dir l H. simpl in H.
    set (file := dir +:+ str (sep env) +:+ name) in *.
    destruct (listEntries env dir rest) as [others|] eqn:Hrest;
      [|destruct child; try destruct (listFiles env file _); discriminate].
    specialize (IHr dir others Hrest).
    destruct child as [|entries| |]; try discriminate.
    + injection H as <-. simpl. rewrite IHr. reflexivity.
    + destruct (listFiles env file (Directory entries)) as [listed|] eqn:Hc;
        [|discriminate].
      injection H as <-. rewrite List.length_app, IHr, (IHc file listed Hc).
      reflexivity.
Qed.

Lemma is_Some_both {A} (a b : option (list A)) :
  is_Some match a, b with
          | Some x, Some y => Some (x ++ y)%list
          | _, _ => None
          end
  <-> is_Some a /\ is_Some b.
Proof.
  destruct a as [x|], b as [y|]; split.
  all: try (intros [z Hz]; discriminate).
  all: try (intros [[z Hz] [z' Hz']]; discriminate).
  - intros _. split; eexists; reflexivity.
  - intros _. eexists; reflexivity.
Qed.

Lemma listFiles_readable env :
  (forall n dir, is_Some (listFiles env dir n) <-> readable n = true)
  /\ (forall files dir,
        is_Some (listEntries env dir files) <-> readable_entries files = true).
Proof.
  assert (Hnone : forall A, is_Some (@None A) <-> false = true).
  { intros A. split; [intros [? [=]]|discriminate]. }
  apply Node_Entries_ind.
  - intros dir. apply Hnone.
  - intros entries IH dir. simpl. apply IH.
  - intros dir. apply Hnone.
  - intros dir. apply Hnone.
  - intros dir. simpl. split; eauto.
  - intros name child IHc rest IHr dir.
    cbn [listEntries readable_entries].
    rewrite is_Some_both, andb_true_iff, (IHr dir).
    apply and_iff_compat_r.
    destruct child as [|entries| |].
    + split; eauto.
    + apply IHc.
    + apply Hnone.
    + apply Hnone.
Qed.

(** ** Paths in normal form *)

Lemma clean_slashless s : clean_or_empty s -> Js.includes s "/" = false.
Proof. intros [->|[_ H]]; [reflexivity|exact H]. Qed.

Lemma split_join L :
  L <> [] -> Forall clean_or_empty L ->
  Js.split PosixPath.slash (Js.join "/" L) = L.
Proof.
  induction L as [|w L IH]; [contradiction|]. intros _ HL.
  apply Forall_cons_iff in HL as [Hw HL].
  destruct L as [|w' L].
  - simpl. apply (split_without PosixPath.slash), clean_slashless, Hw.
  - rewrite join_cons by discriminate.
    change ("/" +:+ Js.join "/" (w' :: L))
      with (String PosixPath.slash (Js.join "/" (w' :: L))).
    rewrite split_app, IH by (discriminate || assumption).
    rewrite (split_without PosixPath.slash _ (clean_slashless _ Hw)).
    reflexivity.
Qed.

Lemma normalizeSegments_filter b L : forall acc,
  Forall clean_or_empty L ->
  PosixPath.normalizeSegments b acc L = (rev acc ++ List.filter nonempty L)%list.
Proof.
  induction L as [|w L IH]; intros acc HL.
  - simpl. rewrite app_nil_r. reflexivity.
  - apply Forall_cons_iff in HL as [Hw HL].
    cbn [PosixPath.normalizeSegments List.filter].
    destruct Hw as [->|[(H1 & H2 & H3) _]].
    + simpl. apply IH, HL.
    + unfold nonempty. apply String.eqb_neq in H1, H2, H3.
      rewrite H1, H2, H3. simpl. rewrite IH by exact HL.
      simpl. rewrite <- app_assoc. reflexivity.
Qed.

Lemma join_app A B :
  A <> [] -> B <> [] ->
  Js.join "/" (A ++ B) = Js.join "/" A +:+ "/" +:+ Js.join "/" B.
Proof.
  intros HA HB. induction A as [|a A IH]; [contradiction|].
  destruct A as [|a' A].
  - simpl app. rewrite join_cons by exact HB. reflexivity.
  - rewrite <- app_comm_cons. rewrite !join_cons by discriminate.
    rewrite IH by discriminate. rewrite !string_app_assoc. reflexivity.
Qed.

Lemma split_absolute s :
  Js.split PosixPath.slash ("/" +:+ s) = "" :: Js.split PosixPath.slash s.
Proof. reflexivity. Qed.

Lemma startsWith_absolute s : Js.startsWith ("/" +:+ s) "/" = true.
Proof. simpl. apply startsWith_empty. Qed.

(** [normalize] on an absolute path with empty and clean segments that
    ends in a clean one: the empty segments go. *)
Lemma normalize_absolute S final :
  Forall clean_or_empty S -> clean_segment final ->
  PosixPath.normalize ("/" +:+ Js.join "/" (S ++ [final]))
  = "/" +:+ Js.join "/" (List.filter nonempty S ++ [final]).
Proof.
  intros HS Hfinal.
  assert (Hall : Forall clean_or_empty (S ++ [final])).
  { apply Forall_app. split; [exact HS|]. constructor; [right; exact Hfinal|constructor]. }
  assert (Hend : Js.endsWith ("/" +:+ Js.join "/" (S ++ [final])) "/" = false).
  { change final with ("" +:+ final) at 1. rewrite join_snoc_app.
    rewrite <- string_app_assoc.
    apply (endsWith_char_false _ final PosixPath.slash);
      [apply Hfinal|apply Hfinal]. }
  unfold PosixPath.normalize.
  rewrite Hend, startsWith_absolute, split_absolute.
  rewrite split_join by (try exact Hall; destruct S; discriminate).
  change (String.eqb ("/" +:+ Js.join "/" (S ++ [final])) "") with false.
  cbn [PosixPath.normalizeSegments String.eqb orb negb].
  rewrite normalizeSegments_filter by exact Hall.
  rewrite List.filter_app. cbn [List.filter rev app].
  assert (Hne : nonempty final = true).
  { unfold nonempty. destruct Hfinal as [(H & _) _].
    apply String.eqb_neq in H. rewrite H. reflexivity. }
  rewrite Hne.
  assert (Hp : Js.join "/" (List.filter nonempty S ++ [final]) <> "")
    by (apply join_snoc_nonempty, Hfinal).
  apply String.eqb_neq in Hp. rewrite Hp. reflexivity.
Qed.

Lemma filter_clean L :
  Forall clean_segment L -> List.filter nonempty L = L.
Proof.
  induction L as [|w L IH]; [reflexivity|]. intros HL.
  apply Forall_cons_iff in HL as [[(H & _) _] HL]. simpl.
  unfold nonempty at 1. apply String.eqb_neq in H. rewrite H. simpl.
  rewrite IH by exact HL. reflexivity.
Qed.

Lemma clean_is_clean_or_empty L :
  Forall clean_segment L -> Forall clean_or_empty L.
Proof.
  induction 1 as [|x L Hx _ IH]; constructor; [right; exact Hx|exact IH].
Qed.

(** A path in normal form is a fixed point of [normalize]. *)
Lemma normalize_clean p segments :
  clean_absolute p segments -> PosixPath.normalize p = p.
Proof.
  intros (Hne & Hclean & ->).
  destruct (exists_last Hne) as (S & final & ->).
  apply Forall_app in Hclean as [HS Hfinal].
  apply Forall_cons_iff in Hfinal as [Hfinal _].
  rewrite normalize_absolute by (try apply clean_is_clean_or_empty; assumption).
  rewrite filter_clean by exact HS. reflexivity.
Qed.

Lemma join_nonempty L :
  L <> [] -> Forall clean_segment L -> Js.join "/" L <> "".
Proof.
  intros HL Hc. destruct (exists_last HL) as (S & final & ->).
  apply Forall_app in Hc as [_ Hf]. apply Forall_cons_iff in Hf as [Hf _].
  apply join_snoc_nonempty, Hf.
Qed.

(** A path of clean segments does not start with the separator. *)
Lemma join_relative L :
  L <> [] -> Forall clean_segment L ->
  Js.startsWith (Js.join "/" L) "/" = false.
Proof.
  intros HL Hc. destruct L as [|w L]; [contradiction|].
  apply Forall_cons_iff in Hc as [[(Hw & _) Hs] _].
  destruct w as [|a w]; [contradiction|].
  change (String a w) with (String a w) in Hs.
  change "/" with (str PosixPath.slash) in Hs. rewrite includes_char in Hs.
  apply orb_false_iff in Hs as [Ha _].
  unfold PosixPath.slash in Ha.
  assert (Hstart : forall t, Js.startsWith (String a w +:+ t) "/" = false).
  { intros t. change (String a w +:+ t) with (String a (w +:+ t)).
    cbn [Js.startsWith]. rewrite Ha. reflexivity. }
  destruct L as [|w' L].
  - cbn [Js.join Js.startsWith]. rewrite Ha. reflexivity.
  - rewrite join_cons by discriminate. apply Hstart.
Qed.

Lemma split_trailing s :
  Js.split PosixPath.slash (s +:+ "/")
  = (Js.split PosixPath.slash s ++ [""])%list.
Proof.
  change "/" with (String PosixPath.slash ""). rewrite split_app. reflexivity.
Qed.

Lemma filter_trailing L :
  Forall clean_segment L ->
  List.filter nonempty ("" :: L ++ [""]) = L.
Proof.
  intros H. cbn [List.filter]. change (nonempty "") with false. cbn iota.
  rewrite List.filter_app, filter_clean by exact H.
  simpl. apply app_nil_r.
Qed.

(** What [path.resolve] leaves of an absolute path with a trailing
    separator whose segments are clean. *)
Lemma resolved_segments p segments :
  clean_absolute p segments ->
  "/" +:+ Js.join "/"
            (PosixPath.normalizeSegments false []
               (Js.split PosixPath.slash (p +:+ "/")))
  = p.
Proof.
  intros (Hne & Hc & ->).
  rewrite split_trailing, split_absolute.
  rewrite split_join by (try apply clean_is_clean_or_empty; assumption).
  cbn [app]. rewrite normalizeSegments_filter.
  - cbn [rev app]. rewrite filter_trailing by exact Hc. reflexivity.
  - constructor; [left; reflexivity|]. apply Forall_app. split.
    + apply clean_is_clean_or_empty, Hc.
    + constructor; [left; reflexivity|constructor].
Qed.

Lemma clean_absolute_nonempty p segments :
  clean_absolute p segments ->
  String.eqb p "" = false /\ Js.startsWith p "/" = true.
Proof.
  intros (_ & _ & ->). split; [reflexivity|apply startsWith_absolute].
Qed.

(** [path.resolve] with an absolute last argument in normal form. *)
Lemma resolve_absolute cwd dir file segments :
  clean_absolute file segments -> path_resolve cwd [dir; file] = file.
Proof.
  intros H. destruct (clean_absolute_nonempty _ _ H) as [Hne Habs].
  unfold path_resolve. cbn [rev app resolve_args]. rewrite Hne, Habs.
  cbn [negb]. change ("/" +:+ "") with "/".
  apply (resolved_segments _ _ H).
Qed.

Lemma clean_absolute_app p segments names :
  clean_absolute p segments -> names <> [] -> Forall clean_segment names ->
  clean_absolute (p +:+ "/" +:+ Js.join "/" names) (segments ++ names).
Proof.
  intros (Hne & Hc & ->) Hn Hcn. split; [|split].
  - destruct segments; [contradiction|discriminate].
  - apply Forall_app. split; assumption.
  - rewrite join_app by assumption. rewrite !string_app_assoc. reflexivity.
Qed.

(** [path.resolve] of a relative path in normal form: it is put under
    the working directory. *)
Lemma resolve_relative cwd csegs asegs :
  clean_absolute cwd csegs -> asegs <> [] -> Forall clean_segment asegs ->
  path_resolve cwd [Js.join "/" asegs] = cwd +:+ "/" +:+ Js.join "/" asegs.
Proof.
  intros Hcwd Hne Hc.
  destruct (clean_absolute_nonempty _ _ Hcwd) as [Hcne Hcabs].
  pose proof (join_nonempty _ Hne Hc) as Ha. apply String.eqb_neq in Ha.
  unfold path_resolve. cbn [rev app resolve_args].
  rewrite Ha, (join_relative _ Hne Hc), Hcne, Hcabs.
  cbn [negb]. change ("/" +:+ "") with "/".
  replace (cwd +:+ "/" +:+ Js.join "/" asegs +:+ "/")
    with ((cwd +:+ "/" +:+ Js.join "/" asegs) +:+ "/")
    by (rewrite !string_app_assoc; reflexivity).
  apply (resolved_segments _ _ (clean_absolute_app _ _ _ Hcwd Hne Hc)).
Qed.

Lemma path_under_join env dir names :
  names <> [] ->
  path_under env dir names
  = dir +:+ str (sep env) +:+ Js.join (str (sep env)) names.
Proof.
  revert dir. induction names as [|name names IH]; [contradiction|].
  intros dir _. unfold path_under in *. cbn [fold_left].
  destruct names as [|name' names]; [reflexivity|].
  rewrite IH by discriminate.
  rewrite (join_cons _ name) by discriminate.
  rewrite !string_app_assoc. reflexivity.
Qed.

(** On a posix host with clean paths, [listFiles] returns each file
    under the very path it was reached by. *)
Lemma listed_path_clean env cwd dir dsegs names :
  sep env = "/"%char -> resolveFn env = path_resolve cwd ->
  clean_absolute dir dsegs -> names <> [] -> Forall clean_segment names ->
  listed_path env dir names = file_under dir names.
Proof.
  intros Hsep Hres Hdir Hne Hc. unfold listed_path, file_under.
  rewrite Hres, (path_under_join env dir names Hne), Hsep.
  change (str "/") with "/".
  eapply resolve_absolute. apply clean_absolute_app; eassumption.
Qed.

(** [s.replace(p, '')] removes a leading [p]. *)
Lemma replace_prefix p rest : Js.replace (p +:+ rest) p "" = rest.
Proof.
  assert (Hs : Js.startsWith (p +:+ rest) p = true).
  { induction p as [|a p IH]; [apply startsWith_empty|].
    change (String a p +:+ rest) with (String a (p +:+ rest)).
    cbn [Js.startsWith]. rewrite Ascii.eqb_refl. exact IH. }
  assert (Hd : Js.drop (String.length p) (p +:+ rest) = rest).
  { rewrite <- (Nat.add_0_r (String.length p)). apply drop_app. }
  destruct p as [|a p].
  - change ("" +:+ rest) with rest in *.
    destruct rest; simpl; reflexivity.
  - change (String a p +:+ rest) with (String a (p +:+ rest)) in *.
    cbn [Js.replace]. rewrite Hs, Hd. reflexivity.
Qed.

(** [path.resolve] of one absolute path in normal form. *)
Lemma resolve_absolute_one cwd p segments :
  clean_absolute p segments -> path_resolve cwd [p] = p.
Proof.
  intros H. destruct (clean_absolute_nonempty _ _ H) as [Hne Habs].
  unfold path_resolve. cbn [rev app resolve_args]. rewrite Hne, Habs.
  cbn [negb]. change ("/" +:+ "") with "/".
  apply (resolved_segments _ _ H).
Qed.

(** ** Static mode on a posix host *)

Lemma filter_with_gap A B :
  Forall clean_segment A -> Forall clean_segment B ->
  List.filter nonempty (A ++ "" :: B) = (A ++ B)%list.
Proof.
  intros HA HB. rewrite List.filter_app. cbn [List.filter].
  change (nonempty "") with false. cbn iota.
  rewrite !filter_clean by assumption. reflexivity.
Qed.

(** [join(prefix, relativePath)] for a prefix in normal form (or the
    empty one) and a relative path [/n1/.../nk] of clean names is the
    plain concatenation. *)
Lemma join_under_mount mount names :
  mount = "" \/ (exists msegs, clean_absolute mount msegs) ->
  names <> [] -> Forall clean_segment names ->
  PosixPath.join mount ("/" +:+ Js.join "/" names)
  = mount +:+ "/" +:+ Js.join "/" names.
Proof.
  intros Hm Hne Hc. unfold PosixPath.join.
  change (String.eqb ("/" +:+ Js.join "/" names) "") with false.
  destruct Hm as [->|[msegs Hm]].
  - cbn [String.eqb]. eapply normalize_clean. split; [exact Hne|]. split; eauto.
  - destruct (clean_absolute_nonempty _ _ Hm) as [-> _].
    destruct Hm as (Hmne & Hmc & ->).
    destruct (exists_last Hne) as (ninit & nfinal & ->).
    apply Forall_app in Hc as [Hni Hnf].
    assert (Hnf' : clean_segment nfinal)
      by (apply Forall_cons_iff in Hnf as [H _]; exact H).
    replace (("/" +:+ Js.join "/" msegs) +:+ "/" +:+ "/"
             +:+ Js.join "/" (ninit ++ [nfinal]))
      with ("/" +:+ Js.join "/" ((msegs ++ "" :: ninit) ++ [nfinal])).
    + rewrite normalize_absolute; [|
        apply Forall_app; split;
          [apply clean_is_clean_or_empty, Hmc|
           constructor; [left; reflexivity|apply clean_is_clean_or_empty, Hni]]
        |exact Hnf'].
      rewrite filter_with_gap by assumption.
      rewrite <- app_assoc, join_app
        by (try exact Hmne; destruct ninit; discriminate).
      rewrite !string_app_assoc. reflexivity.
    + rewrite <- app_assoc, <- app_comm_cons.
      rewrite join_app by (try exact Hmne; discriminate).
      rewrite (join_cons _ "") by (destruct ninit; discriminate).
      rewrite !string_app_assoc. reflexivity.
Qed.

Lemma endsWith_suffix s t : Js.endsWith (s +:+ t) t = true.
Proof.
  unfold Js.endsWith. rewrite length_app.
  replace (String.length s + String.length t - String.length t)%nat
    with (String.length s + 0)%nat by lia.
  rewrite drop_app. cbn [Js.drop]. rewrite String.eqb_refl, andb_true_r.
  apply Nat.leb_le. lia.
Qed.

Section IndexRoute.

Variable env : Env.
Variable cfg : Config.

(** The second route of a file whose URL path ends in ["/index.html"]
    (lines 257-285). *)
Lemma second_route_pushed files w c rs c' l f :
  static_mode env cfg files = true ->
  staticPlugin env cfg files w c = (Returned rs, c', l) ->
  f ∈ files ->
  skipped cfg f = false ->
  indexHTML cfg = true ->
  Js.endsWith (pathName_of env cfg (relativePath_of env cfg f)) "/index.html"
  = true ->
  exists etag,
    generateETag w f = Some etag
    /\ {| method := "GET";
          path := Js.replace (pathName_of env cfg (relativePath_of env cfg f))
                    "/index.html" "";
          handler := if noCache cfg then StaticNoCache f
                     else StaticCached etag
                            (pathName_of env cfg (relativePath_of env cfg f)) f |}
       ∈ rs.
Proof.
  intros Hmode Hbuilt Hf Hskip Hindex Hends. unfold staticPlugin in Hbuilt.
  rewrite Hmode in Hbuilt.
  apply for_each_file_returned in Hbuilt as [Hetag Hrs].
  destruct (Hetag f Hf Hskip) as [etag He]. exists etag. split; [exact He|].
  apply Hrs. right. exists f, etag. repeat split; auto.
  unfold pushed_routes. rewrite Hindex, Hends. cbn [andb].
  apply list_elem_of_further, list_elem_of_here.
Qed.

End IndexRoute.

(** The number of files line 209 compares with [staticLimit] is the
    number of files below the enumerated directory. *)
Lemma static_mode_counts env cfg dir root files :
  listFiles env dir root = Some files ->
  static_mode env cfg files = static_mode_of_tree env cfg root.
Proof.
  intros H. unfold static_mode, static_mode_of_tree.
  rewrite (proj1 (listFiles_length env) _ _ _ H). reflexivity.
Qed.

Lemma plugin_of_tree env cfg dir root w c rs c' l :
  resolveFn env [assets cfg] = dir ->
  staticPlugin_from env cfg root w c = (Returned rs, c', l) ->
  exists files l0,
    listFiles env dir root = Some files
    /\ staticPlugin env cfg files w c = (Returned rs, c', l0).
Proof.
  intros <-. unfold staticPlugin_from. cbv zeta.
  destruct (listFiles env (resolveFn env [assets cfg]) root) as [files|];
    [|discriminate].
  destruct (staticPlugin env cfg files w c) as [[o c1] l1] eqn:Hrun.
  intros [= -> -> <-]. exists files, l1. split; [reflexivity|exact Hrun].
Qed.

(** On a posix host a file of the tree is enumerated under its own
    path. *)
Lemma listed_in_files env cwd dir dsegs root files names :
  sep env = "/"%char -> resolveFn env = path_resolve cwd ->
  clean_absolute dir dsegs ->
  listFiles env dir root = Some files ->
  file_at root names -> Forall clean_segment names ->
  file_under dir names ∈ files.
Proof.
  intros Hsep Hres Hdir Hlist Hat Hnc.
  assert (Hnne : names <> []) by (eapply file_at_nonempty, Hat).
  apply list_elem_of_In.
  apply (proj1 (listFiles_members env) _ _ _ Hlist).
  exists names. split; [exact Hat|]. symmetry.
  eapply listed_path_clean; eassumption.
Qed.

Lemma pathName_of_posix env cfg relativePath :
  sep env = "/"%char ->
  pathName_of env cfg relativePath = PosixPath.join (mount cfg) relativePath.
Proof.
  intros Hsep. unfold pathName_of, isFSSepUnsafe. rewrite Hsep. reflexivity.
Qed.

Section PosixSite.

Variables (host : Env) (cwd : string) (csegs asegs : list string).
Variable cfg : Config.

Hypothesis posix_separator : sep host = "/"%char.
Hypothesis posix_resolve : resolveFn host = path_resolve cwd.
Hypothesis working_directory : clean_absolute cwd csegs.
Hypothesis assets_segments : asegs <> [] /\ Forall clean_segment asegs.
Hypothesis assets_normal :
  assets cfg = Js.join "/" asegs \/ assets cfg = "/" +:+ Js.join "/" asegs.
Hypothesis resolve_default : resolve cfg [] = cwd.
Hypothesis mount_normal :
  mount cfg = "" \/ exists msegs, clean_absolute (mount cfg) msegs.

(** Line 189 enumerates the directory line 205 computes, and it is in
    normal form. *)
Lemma assets_directory :
  resolveFn host [assets cfg] = assetsDir host cfg
  /\ exists dsegs, clean_absolute (assetsDir host cfg) dsegs.
Proof.
  destruct assets_segments as [Hne Hc].
  destruct assets_normal as [Ha|Ha].
  - assert (Hdir : assetsDir host cfg = cwd +:+ "/" +:+ assets cfg).
    { unfold assetsDir. rewrite resolve_default.
      pose proof (join_relative _ Hne Hc) as Hrel.
      pose proof (join_nonempty _ Hne Hc) as Hnon.
      rewrite <- Ha in Hrel, Hnon.
      destruct (assets cfg) as [|a rest]; [contradiction|].
      cbn [Js.startsWith] in Hrel.
      rewrite startsWith_empty, andb_true_r in Hrel.
      rewrite posix_separator, Ascii.eqb_sym, Hrel. reflexivity. }
    rewrite Hdir, posix_resolve, Ha. split.
    + eapply resolve_relative; eassumption.
    + exists (csegs ++ asegs)%list. apply clean_absolute_app; assumption.
  - assert (Hdir : assetsDir host cfg = assets cfg).
    { unfold assetsDir. rewrite Ha, posix_separator. reflexivity. }
    assert (Hclean : clean_absolute (assets cfg) asegs)
      by (split; [exact Hne|split; [exact Hc|exact Ha]]).
    rewrite Hdir, posix_resolve. split.
    + eapply resolve_absolute_one, Hclean.
    + exists asegs. exact Hclean.
Qed.

(** Without [noExtension], lines 213-226 give a file of the tree the
    URL path of its names under the prefix. *)
Lemma listed_file_path names :
  names <> [] -> Forall clean_segment names ->
  noExtension cfg = false ->
  pathName_of host cfg
    (relativePath_of host cfg (file_under (assetsDir host cfg) names))
  = mount cfg +:+ "/" +:+ Js.join "/" names.
Proof.
  intros Hnne Hnc Hnoext. unfold relativePath_of, file_under. rewrite Hnoext.
  rewrite replace_prefix, pathName_of_posix by exact posix_separator.
  apply join_under_mount; assumption.
Qed.

(** X3: in static mode on a posix host, every file found below the
    assets directory by the names [n1 ... nk] is published at
    [<prefix>/n1/.../nk] by a handler that reads
    [<assets directory>/n1/.../nk], unless line 212 skips it.  The
    [assets] option is a relative or an absolute path in normal form, the
    working directory and the prefix are absolute paths in normal form
    (or the prefix is empty) and [noExtension] is off.  Static mode is
    selected by [alwaysStatic], or by the production environment when
    the tree holds at most [staticLimit] files. *)
Theorem every_file_gets_its_route
    (root : Node) (w : World) (c : Caches)
    (rs : list Route) (c' : Caches) (l : list Call) (names : list string) :
  static_mode_of_tree host cfg root = true ->
  noExtension cfg = false ->
  staticPlugin_from host cfg root w c = (Returned rs, c', l) ->
  file_at root names -> Forall clean_segment names ->
  skipped cfg (file_under (assetsDir host cfg) names) = false ->
  exists etag,
    generateETag w (file_under (assetsDir host cfg) names) = Some etag
    /\ {| method := "GET";
          path := mount cfg +:+ "/" +:+ Js.join "/" names;
          handler :=
            if noCache cfg
            then StaticNoCache (file_under (assetsDir host cfg) names)
            else StaticCached etag (file_under (assetsDir host cfg) names)
                   (file_under (assetsDir host cfg) names) |} ∈ rs.
Proof.
  intros Hmode Hnoext Hbuilt Hat Hnc Hskip.
  destruct assets_directory as [Hdir [dsegs Hdirc]].
  apply (plugin_of_tree _ _ _ _ _ _ _ _ _ Hdir) in Hbuilt
    as (files & l0 & Hlist & Hbuilt).
  rewrite <- (static_mode_counts _ _ _ _ _ Hlist) in Hmode.
  pose proof (listed_in_files _ _ _ _ _ _ _ posix_separator posix_resolve
                Hdirc Hlist Hat Hnc) as Hin.
  destruct (first_route_pushed host cfg files w c rs c' l0 _
              Hmode Hbuilt Hin Hskip) as (etag & He & Hroute).
  exists etag. split; [exact He|].
  rewrite listed_file_path in Hroute;
    [exact Hroute|eapply file_at_nonempty, Hat|exact Hnc|exact Hnoext].
Qed.

(** X4: under the same assumptions, with [indexHTML] an [index.html]
    found in the directory [n1 ... nk] below the assets directory is also
    published at the URL of the directory, [<prefix>/n1/.../nk] (the bare
    prefix for the assets directory itself), provided ["/index.html"]
    occurs in the URL path of the file only as its suffix.  The handler
    reads the index file; the key it hands the evaluator is the URL path
    of the file. *)
Theorem directory_url_serves_index
    (root : Node) (w : World) (c : Caches)
    (rs : list Route) (c' : Caches) (l : list Call) (names : list string) :
  static_mode_of_tree host cfg root = true ->
  noExtension cfg = false ->
  indexHTML cfg = true ->
  staticPlugin_from host cfg root w c = (Returned rs, c', l) ->
  file_at root (names ++ ["index.html"]) -> Forall clean_segment names ->
  skipped cfg (file_under (assetsDir host cfg) (names ++ ["index.html"])) = false ->
  Js.includes (mount cfg +:+ Js.join "/" ("" :: names) +:+ "/index.htm")
    "/index.html" = false ->
  exists etag,
    generateETag w (file_under (assetsDir host cfg) (names ++ ["index.html"]))
    = Some etag
    /\ {| method := "GET";
          path := mount cfg +:+ Js.join "/" ("" :: names);
          handler :=
            if noCache cfg
            then StaticNoCache
                   (file_under (assetsDir host cfg) (names ++ ["index.html"]))
            else StaticCached etag
                   (mount cfg +:+ Js.join "/" ("" :: names) +:+ "/index.html")
                   (file_under (assetsDir host cfg) (names ++ ["index.html"])) |}
       ∈ rs.
Proof.
  intros Hmode Hnoext Hindex Hbuilt Hat Hnc Hskip Honce.
  destruct assets_directory as [Hdir [dsegs Hdirc]].
  apply (plugin_of_tree _ _ _ _ _ _ _ _ _ Hdir) in Hbuilt
    as (files & l0 & Hlist & Hbuilt).
  rewrite <- (static_mode_counts _ _ _ _ _ Hlist) in Hmode.
  assert (Hnc' : Forall clean_segment (names ++ ["index.html"])).
  { apply Forall_app. split; [exact Hnc|].
    constructor; [|constructor].
    split; [|reflexivity]. repeat split; discriminate. }
  pose proof (listed_in_files _ _ _ _ _ _ _ posix_separator posix_resolve
                Hdirc Hlist Hat Hnc') as Hin.
  assert (Hpath :
    pathName_of host cfg
      (relativePath_of host cfg
         (file_under (assetsDir host cfg) (names ++ ["index.html"])))
    = (mount cfg +:+ Js.join "/" ("" :: names)) +:+ "/index.html").
  { rewrite listed_file_path;
      [|eapply file_at_nonempty, Hat|exact Hnc'|exact Hnoext].
    destruct names as [|n names'].
    - cbn [app Js.join]. rewrite string_app_assoc. reflexivity.
    - rewrite join_app by discriminate.
      rewrite (join_cons _ "") by discriminate.
      rewrite !string_app_assoc. reflexivity. }
  destruct (second_route_pushed host cfg files w c rs c' l0 _
              Hmode Hbuilt Hin Hskip Hindex) as (etag & He & Hroute).
  { rewrite Hpath. apply endsWith_suffix. }
  exists etag. split; [exact He|].
  rewrite Hpath in Hroute.
  rewrite replace_index_suffix in Hroute
    by (rewrite string_app_assoc; exact Honce).
  rewrite <- string_app_assoc. exact Hroute.
Qed.

End PosixSite.

Lemma every_file_witness :
  exists etag,
    generateETag site "/srv/app/public/.git/config" = Some etag
    /\ {| method := "GET";
          path := "/public/.git/config";
          handler := StaticCached etag "/srv/app/public/.git/config"
                       "/srv/app/public/.git/config" |} ∈ site_routes.
Proof.
  apply (every_file_gets_its_route site_host "/srv/app" ["srv"; "app"] ["public"]
           site_static_cfg)
    with (root := site_tree) (c := no_caches) (c' := no_caches)
         (l := calls_of (staticPlugin_from site_host site_static_cfg site_tree
                           site no_caches))
         (names := [".git"; "config"]).
  - reflexivity.
  - reflexivity.
  - normal_form.
  - normal_form.
  - left. reflexivity.
  - vm_compute. reflexivity.
  - right. exists ["public"]. normal_form.
  - reflexivity.
  - reflexivity.
  - vm_compute. reflexivity.
  - eapply file_at_below; [apply has_entry_later, has_entry_later, has_entry_first|].
    apply file_at_entry, has_entry_first.
  - normal_form.
  - vm_compute. reflexivity.
Defined.

Lemma directory_url_witness :
  exists etag,
    generateETag site "/srv/app/public/html/index.html" = Some etag
    /\ {| method := "GET";
          path := "/public/html";
          handler := StaticCached etag "/public/html/index.html"
                       "/srv/app/public/html/index.html" |} ∈ site_routes.
Proof.
  apply (directory_url_serves_index site_host "/srv/app" ["srv"; "app"] ["public"]
           site_static_cfg)
    with (root := site_tree) (c := no_caches) (c' := no_caches)
         (l := calls_of (staticPlugin_from site_host site_static_cfg site_tree
                           site no_caches))
         (names := ["html"]).
  - reflexivity.
  - reflexivity.
  - normal_form.
  - normal_form.
  - left. reflexivity.
  - vm_compute. reflexivity.
  - right. exists ["public"]. normal_form.
  - reflexivity.
  - reflexivity.
  - reflexivity.
  - vm_compute. reflexivity.
  - eapply file_at_below;
      [apply has_entry_later, has_entry_later, has_entry_later, has_entry_first|].
    apply file_at_entry, has_entry_first.
  - normal_form.
  - vm_compute. reflexivity.
  - vm_compute. reflexivity.
Defined.

(** ** The enumeration and the start of the plugin *)

(** X1: [listFiles] returns exactly the files of the tree: a path is
    in the list exactly when it is the resolved path of a non-directory
    reached by descending from the directory, and the list is as long as
    the tree has files. *)
Theorem listFiles_enumerates
    (env : Env) (dir : string) (root : Node) (files : list string) :
  listFiles env dir root = Some files ->
  (forall file,
     In file files <->
     exists names, file_at root names /\ file = listed_path env dir names)
  /\ length files = count_files root.
Proof.
  intros H. split.
  - apply (proj1 (listFiles_members env) _ _ _ H).
  - apply (proj1 (listFiles_length env) _ _ _ H).
Qed.

Lemma listFiles_enumerates_witness :
  (forall file,
     In file ["/srv/app/public/a.txt"; "/srv/app/public/LICENSE";
              "/srv/app/public/.git/config"; "/srv/app/public/html/index.html";
              "/srv/app/public/index.html.d/index.html"] <->
     exists names,
       file_at site_tree names
       /\ file = listed_path site_host "/srv/app/public" names)
  /\ length ["/srv/app/public/a.txt"; "/srv/app/public/LICENSE";
             "/srv/app/public/.git/config"; "/srv/app/public/html/index.html";
             "/srv/app/public/index.html.d/index.html"]
     = count_files site_tree.
Proof.
  apply (listFiles_enumerates site_host "/srv/app/public" site_tree).
  vm_compute. reflexivity.
Defined.


(** ** The caches of the wildcard handler *)

Lemma bind_run {A B} (m : M A) (k : A -> M B) w c a c1 l1 :
  m w c = (Returned a, c1, l1) ->
  bind m k w c
  = (outcome_of (k a w c1), caches_of (k a w c1), (l1 ++ calls_of (k a w c1))%list).
Proof.
  intros H. unfold bind, outcome_of, caches_of, calls_of. rewrite H.
  destruct (k a w c1) as [[o c2] l2]. reflexivity.
Qed.

Lemma bind_threw {A B} (m : M A) (k : A -> M B) w c e c1 l1 :
  m w c = (Threw e, c1, l1) -> bind m k w c = (Threw e, c1, l1).
Proof. intros H. unfold bind. rewrite H. reflexivity. Qed.

Lemma caches_eta c :
  {| statCache := statCache c; fileCache := fileCache c;
     htmlCache := htmlCache c |} = c.
Proof. destruct c. reflexivity. Qed.

Lemma keeps_html_ret {A} (a : A) : keeps_html (ret a).
Proof. intros w c. reflexivity. Qed.

Lemma keeps_html_throw {A} e : keeps_html (@throw A e).
Proof. intros w c. reflexivity. Qed.

Lemma keeps_html_bind {A B} (m : M A) (k : A -> M B) :
  keeps_html m -> (forall a, keeps_html (k a)) -> keeps_html (bind m k).
Proof.
  intros Hm Hk w c. specialize (Hm w c). unfold bind, caches_of in *.
  destruct (m w c) as [[[a|e] c1] l1]; simpl in *; [|exact Hm].
  specialize (Hk a w c1). unfold caches_of in Hk.
  destruct (k a w c1) as [[o c2] l2]. simpl in *.
  etrans; eassumption.
Qed.

Lemma keeps_html_try_catch {A} (m : M A) (h : Error -> M A) :
  keeps_html m -> (forall e, keeps_html (h e)) -> keeps_html (try_catch m h).
Proof.
  intros Hm Hh w c. specialize (Hm w c). unfold try_catch, caches_of in *.
  destruct (m w c) as [[[a|e] c1] l1]; simpl in *; [exact Hm|].
  specialize (Hh e w c1). unfold caches_of in Hh.
  destruct (h e w c1) as [[o c2] l2]. simpl in *.
  etrans; eassumption.
Qed.

Lemma keeps_html_await {A} call (oracle : World -> option A) :
  keeps_html (await call oracle).
Proof. intros w c. unfold await. destruct (oracle w); reflexivity. Qed.

Lemma get_subseteq {V} t (m : gmap string (V * Z)) key :
  (NodeCache.get t m key).2 ⊆ m.
Proof.
  unfold NodeCache.get. destruct (m !! key) as [[v e]|]; [|reflexivity].
  destruct (negb (e =? 0) && (e <? t)); [apply delete_subseteq|reflexivity].
Qed.

Section HtmlCache.

Variable isCached : World -> Validators -> string -> string -> option bool.
Variable env : Env.
Variable cfg : Config.

Lemma keeps_html_resolve_filePath path status :
  keeps_html (resolve_filePath env cfg path status).
Proof.
  intros w c.
  unfold resolve_filePath, caches_of, bind, ret, throw, fileExists,
    fileCache_get, fileCache_set, htmlCache_get, htmlCache_set.
  pose proof (get_subseteq (now w) (htmlCache c)
                (path +:+ str (sep env) +:+ "index.html")) as Hget.
  repeat (case_match; simplify_eq/=); try reflexivity; try exact Hget.
Qed.

Lemma keeps_html_respond_cached req etag key file :
  keeps_html (respond_cached isCached cfg req etag key file).
Proof.
  intros w c. rewrite respond_cached_run. simpl.
  repeat case_match; reflexivity.
Qed.

Lemma keeps_html_respond_noCache file : keeps_html (respond_noCache cfg file).
Proof.
  intros w c. rewrite respond_noCache_run. case_match; reflexivity.
Qed.

Lemma keeps_html_wildcard req : keeps_html (wildcard_handler isCached env cfg req).
Proof.
  unfold wildcard_handler.
  apply keeps_html_bind.
  { intros w c. unfold request_path, caches_of, bind, ret, throw.
    repeat (case_match; simplify_eq/=); reflexivity. }
  intros path. destruct (truthy _); [apply keeps_html_throw|].
  apply keeps_html_try_catch; [|intros; apply keeps_html_throw].
  apply keeps_html_bind.
  { intros w c. unfold statCache_get. case_match. reflexivity. }
  intros known. apply keeps_html_bind.
  { destruct known; [apply keeps_html_ret|].
    apply keeps_html_bind; [apply keeps_html_await|]. intros s.
    apply keeps_html_bind; [|intros; apply keeps_html_ret].
    intros w c. unfold statCache_set. case_match; reflexivity. }
  intros status. destruct (negb _ && _); [apply keeps_html_throw|].
  apply keeps_html_bind; [apply keeps_html_resolve_filePath|].
  intros filePath. destruct (noCache cfg); [apply keeps_html_respond_noCache|].
  apply keeps_html_bind; [apply keeps_html_await|].
  intros etag. apply keeps_html_respond_cached.
Qed.

End HtmlCache.

(** X19: no run of a handler writes the html cache (lines 340-344 and
    349-353 are never reached: [hasCache] is a boolean once the
    assignment of line 332 has run).  Whatever the handler, the request,
    the file system and the outcome, the html cache afterwards holds no
    entry it did not hold before; being empty when the module is loaded,
    it stays empty. *)
Theorem htmlCache_is_never_written
    (isCached : World -> Validators -> string -> string -> option bool)
    (env : Env) (cfg : Config) (h : Handler) (req : Request)
    (w : World) (c : Caches) :
  htmlCache (caches_of (handle isCached env cfg h req w c)) ⊆ htmlCache c
  /\ (htmlCache c = ∅ ->
      htmlCache (caches_of (handle isCached env cfg h req w c)) = ∅).
Proof.
  assert (H : htmlCache (caches_of (handle isCached env cfg h req w c))
              ⊆ htmlCache c).
  { destruct h; simpl.
    - apply keeps_html_respond_noCache.
    - apply keeps_html_respond_cached.
    - apply keeps_html_wildcard. }
  split; [exact H|].
  intros Hempty. rewrite Hempty in H.
  apply map_empty. intros key.
  destruct (htmlCache _ !! key) as [x|] eqn:Hx; [|reflexivity].
  apply (lookup_weaken _ _ _ _ Hx) in H. rewrite lookup_empty in H.
  discriminate.
Qed.

(** ** Runs of the wildcard handler *)

Lemma try_catch_run {A} (m : M A) (h : Error -> M A) w c a c1 l1 :
  m w c = (Returned a, c1, l1) -> try_catch m h w c = (Returned a, c1, l1).
Proof. intros H. unfold try_catch. rewrite H. reflexivity. Qed.

Lemma get_miss {V} t (m : gmap string (V * Z)) key :
  m !! key = None -> NodeCache.get t m key = (None, m).
Proof. intros H. unfold NodeCache.get. rewrite H. reflexivity. Qed.

Lemma get_hit {V} t (m : gmap string (V * Z)) key v expires :
  m !! key = Some (v, expires) ->
  negb (expires =? 0) && (expires <? t) = false ->
  NodeCache.get t m key = (Some v, m).
Proof. intros H Hlive. unfold NodeCache.get. rewrite H, Hlive. reflexivity. Qed.

Lemma set_room {V} t (m : gmap string (V * Z)) key v :
  (size m < NodeCache.maxKeys)%nat ->
  NodeCache.set t m key v = Some (<[key := (v, t + NodeCache.stdTTL * 1000)]> m).
Proof.
  intros H. unfold NodeCache.set.
  apply Nat.leb_gt in H. rewrite H. reflexivity.
Qed.

Lemma set_full {V} t (m : gmap string (V * Z)) key v :
  (NodeCache.maxKeys <= size m)%nat -> NodeCache.set t m key v = None.
Proof.
  intros H. unfold NodeCache.set.
  apply Nat.leb_le in H. rewrite H. reflexivity.
Qed.

Lemma statCache_get_miss path w c :
  statCache c !! path = None -> statCache_get path w c = (Returned None, c, []).
Proof.
  intros H. unfold statCache_get. rewrite (get_miss _ _ _ H), caches_eta.
  reflexivity.
Qed.

Lemma statCache_get_hit path w c s expires :
  statCache c !! path = Some (s, expires) ->
  negb (expires =? 0) && (expires <? now w) = false ->
  statCache_get path w c = (Returned (Some s), c, []).
Proof.
  intros H Hlive. unfold statCache_get.
  rewrite (get_hit _ _ _ _ _ H Hlive), caches_eta. reflexivity.
Qed.

Lemma fileCache_get_miss path w c :
  fileCache c !! path = None -> fileCache_get path w c = (Returned None, c, []).
Proof.
  intros H. unfold fileCache_get. rewrite (get_miss _ _ _ H), caches_eta.
  reflexivity.
Qed.

Lemma fileCache_get_hit path w c file expires :
  fileCache c !! path = Some (file, expires) ->
  negb (expires =? 0) && (expires <? now w) = false ->
  fileCache_get path w c = (Returned (Some file), c, []).
Proof.
  intros H Hlive. unfold fileCache_get.
  rewrite (get_hit _ _ _ _ _ H Hlive), caches_eta. reflexivity.
Qed.

Section Runs.

Variable isCached : World -> Validators -> string -> string -> option bool.
Variable env : Env.
Variable cfg : Config.

(** The candidate path does not depend on the world or the caches. *)
Lemma request_path_pure req w c path w' c' :
  request_path env cfg req w c = (Returned path, c, []) ->
  request_path env cfg req w' c' = (Returned path, c', []).
Proof.
  unfold request_path, bind, ret, throw.
  repeat (case_match; simplify_eq/=); intros; simplify_eq/=; reflexivity.
Qed.

(** Lines 299-304 on a URL under the prefix, without decoding. *)
Lemma request_path_prefix req rest w c :
  enableDecodeURI cfg = false ->
  pathname req = mount cfg +:+ rest ->
  request_path env cfg req w c
  = (Returned (if isFSSepUnsafe env
               then Js.replace (assets cfg +:+ rest) (str URL_PATH_SEP)
                      (str (sep env))
               else assets cfg +:+ rest), c, []).
Proof.
  intros Hd Hp. unfold request_path, bind, ret.
  rewrite Hd, Hp, replace_prefix. reflexivity.
Qed.

(** Lines 324-361 for a path the file cache does not hold. *)
Lemma resolve_filePath_miss path status w c :
  fileCache c !! path = None ->
  resolve_filePath env cfg path status w c
  = let index := path +:+ str (sep env) +:+ "index.html" in
    let store file cs :=
      match NodeCache.set (now w) (fileCache cs) path file with
      | Some m =>
          (Returned tt,
           {| statCache := statCache cs; fileCache := m;
              htmlCache := htmlCache cs |})
      | None => (Threw ECACHEFULL, cs)
      end in
    if isDirectory status then
      if indexHTML cfg then
        let '(known, html) := NodeCache.get (now w) (htmlCache c) index in
        let c1 := {| statCache := statCache c; fileCache := fileCache c;
                     htmlCache := html |} in
        let asked := match known with Some _ => [] | None => [CallStat index] end in
        if default (bool_decide (is_Some (stat w index))) known then
          match store index c1 with
          | (Returned _, c2) =>
              match store index c2 with
              | (Returned _, c3) => (Returned index, c3, asked)
              | (Threw e, c3) => (Threw e, c3, asked)
              end
          | (Threw e, c2) => (Threw e, c2, asked)
          end
        else (Threw NotFoundError, c1, asked)
      else (Threw NotFoundError, c, [])
    else
      match store path c with
      | (Returned _, c2) => (Returned path, c2, [])
      | (Threw e, c2) => (Threw e, c2, [])
      end.
Proof.
  intros H. unfold resolve_filePath.
  rewrite (bind_run _ _ _ _ _ _ _ (fileCache_get_miss _ w _ H)).
  unfold bind, ret, throw, fileExists, fileCache_set, htmlCache_get,
    htmlCache_set, outcome_of, caches_of, calls_of.
  cbn zeta.
  repeat (case_match; simplify_eq/=); try reflexivity.
Qed.

End Runs.

Lemma try_catch_trace {A} (m : M A) e w c :
  caches_of (try_catch m (fun _ => throw e) w c) = caches_of (m w c)
  /\ calls_of (try_catch m (fun _ => throw e) w c) = calls_of (m w c).
Proof.
  unfold try_catch, throw, caches_of, calls_of.
  destruct (m w c) as [[[a|e0] c1] l1]; simpl; [auto|].
  rewrite app_nil_r. auto.
Qed.

Lemma bind_pure {A B} (m : M A) (k : A -> M B) w c a :
  m w c = (Returned a, c, []) -> bind m k w c = k a w c.
Proof.
  intros H. unfold bind. rewrite H.
  destruct (k a w c) as [[o c2] l2]. reflexivity.
Qed.

Lemma replace_first_slash a rest s :
  Js.includes a "/" = false ->
  Js.replace (a +:+ "/" +:+ rest) "/" s = a +:+ s +:+ rest.
Proof.
  induction a as [|x a IH]; intros H.
  - change ("" +:+ "/" +:+ rest) with (String "/" rest).
    change ("" +:+ s +:+ rest) with (s +:+ rest).
    cbn [Js.replace Js.startsWith]. rewrite startsWith_empty. reflexivity.
  - change "/" with (str "/") in H. rewrite includes_char in H.
    apply orb_false_iff in H as [Hx Ha].
    change (String x a +:+ "/" +:+ rest) with (String x (a +:+ "/" +:+ rest)).
    cbn [Js.replace Js.startsWith]. rewrite Hx. cbn [andb].
    rewrite (IH Ha). reflexivity.
Qed.

Lemma set_Some {V} t (m m' : gmap string (V * Z)) key v :
  NodeCache.set t m key v = Some m' ->
  m' = <[key := (v, t + NodeCache.stdTTL * 1000)]> m
  /\ (size m < NodeCache.maxKeys)%nat.
Proof.
  unfold NodeCache.set.
  destruct (NodeCache.maxKeys <=? size m)%nat eqn:E; [discriminate|].
  intros [= <-]. split; [reflexivity|]. apply Nat.leb_gt, E.
Qed.

Section Served.

Variable isCached : World -> Validators -> string -> string -> option bool.
Variable env : Env.
Variable cfg : Config.

(** Lines 363-386, whichever file they are run for: no cache is
    touched, [stat] is not asked. *)
Lemma response_cache_free req path filePath :
  cache_free
    (if noCache cfg then respond_noCache cfg filePath
     else etag <- await_generateETag filePath ;;
          respond_cached isCached cfg req etag path filePath).
Proof.
  intros w c. destruct (noCache cfg).
  - rewrite respond_noCache_run. destruct (readFile w filePath); auto.
  - unfold bind, await_generateETag, await.
    destruct (generateETag w filePath) as [etag|]; [|auto].
    rewrite respond_cached_run. cbn zeta.
    destruct (isCached w (parseHeaders req) etag path) as [[|]|]; auto.
    destruct (readFile w filePath); auto.
Qed.

Lemma response_returned req path filePath w c resp c' l :
  (if noCache cfg then respond_noCache cfg filePath
   else etag <- await_generateETag filePath ;;
        respond_cached isCached cfg req etag path filePath) w c
  = (Returned resp, c', l) ->
  c' = c.
Proof.
  intros H. pose proof (response_cache_free req path filePath w c) as [Hc _].
  rewrite H in Hc. exact Hc.
Qed.

(** Lines 317-318 when they complete. *)
Lemma status_step_returned path w c status c2 l :
  (s <- await_stat path ;; statCache_set path s ;;; ret s) w c
  = (Returned status, c2, l) ->
  stat w path = Some status
  /\ c2 = {| statCache :=
               <[path := (status, now w + NodeCache.stdTTL * 1000)]> (statCache c);
             fileCache := fileCache c; htmlCache := htmlCache c |}
  /\ l = [CallStat path].
Proof.
  unfold bind, await_stat, await, statCache_set, NodeCache.set, ret.
  destruct (stat w path) as [s|]; [|discriminate].
  destruct (NodeCache.maxKeys <=? size (statCache c))%nat; [discriminate|].
  intros [= <- <- <-]. auto.
Qed.

(** Lines 324-361 when they complete for a path the file cache does not
    hold: the path now maps to the file served, for [stdTTL] seconds. *)
Lemma resolve_filePath_miss_returned path status w c filePath c3 l :
  fileCache c !! path = None ->
  resolve_filePath env cfg path status w c = (Returned filePath, c3, l) ->
  statCache c3 = statCache c
  /\ fileCache c3 !! path
     = Some (filePath, now w + NodeCache.stdTTL * 1000)
  /\ filePath = (if isDirectory status
                 then path +:+ str (sep env) +:+ "index.html" else path).
Proof.
  intros Hmiss. rewrite (resolve_filePath_miss env cfg _ _ _ _ Hmiss).
  cbv zeta. destruct (isDirectory status).
  - destruct (indexHTML cfg); [|discriminate].
    destruct (NodeCache.get (now w) (htmlCache c) _) as [known html].
    destruct (default _ known); [|discriminate].
    cbn [fileCache statCache htmlCache].
    destruct (NodeCache.set (now w) (fileCache c) path _) as [m1|] eqn:E1;
      [|discriminate].
    cbn [fileCache statCache htmlCache].
    destruct (NodeCache.set (now w) m1 path _) as [m2|] eqn:E2;
      [|discriminate].
    intros [= <- <- <-]. apply set_Some in E2 as [-> _].
    cbn [fileCache statCache]. rewrite lookup_insert_eq. auto.
  - destruct (NodeCache.set (now w) (fileCache c) path path) as [m1|] eqn:E1;
      [|discriminate].
    intros [= <- <- <-]. apply set_Some in E1 as [-> _].
    cbn [fileCache statCache]. rewrite lookup_insert_eq. auto.
Qed.

(** Lines 324-361 for a path the file cache holds. *)
Lemma resolve_filePath_hit path status w c filePath expires :
  fileCache c !! path = Some (filePath, expires) ->
  negb (expires =? 0) && (expires <? now w) = false ->
  filePath <> "" ->
  resolve_filePath env cfg path status w c = (Returned filePath, c, []).
Proof.
  intros H Hlive Hne. unfold resolve_filePath.
  rewrite (bind_run _ _ _ _ _ _ _ (fileCache_get_hit _ _ _ _ _ H Hlive)).
  destruct filePath; [contradiction|reflexivity].
Qed.

(** The [try] block for a path both caches hold. *)
Lemma warm_path req path w c s e1 filePath e2 :
  request_path env cfg req w c = (Returned path, c, []) ->
  truthy (shouldIgnore cfg path) = false ->
  statCache c !! path = Some (s, e1) ->
  negb (e1 =? 0) && (e1 <? now w) = false ->
  negb (indexHTML cfg) && isDirectory s = false ->
  fileCache c !! path = Some (filePath, e2) ->
  negb (e2 =? 0) && (e2 <? now w) = false ->
  filePath <> "" ->
  caches_of (wildcard_handler isCached env cfg req w c) = c
  /\ existsb is_CallStat (calls_of (wildcard_handler isCached env cfg req w c))
     = false.
Proof.
  intros Hp Hig Hs Hl1 Hdir Hf Hl2 Hne. unfold wildcard_handler.
  rewrite (bind_pure _ _ _ _ _ Hp), Hig.
  match goal with
  | |- context [try_catch ?m _ w c] =>
      destruct (try_catch_trace m NotFoundError w c) as [-> ->];
      assert (Hm : m w c
                   = (if noCache cfg then respond_noCache cfg filePath
                      else etag <- await_generateETag filePath ;;
                           respond_cached isCached cfg req etag path filePath)
                       w c)
  end.
  { rewrite (bind_pure _ _ _ _ _ (statCache_get_hit _ _ _ _ _ Hs Hl1)).
    rewrite (bind_pure (ret s) _ w c s eq_refl), Hdir.
    rewrite (bind_pure _ _ _ _ _
               (resolve_filePath_hit _ s _ _ _ _ Hf Hl2 Hne)).
    reflexivity. }
  rewrite Hm. apply response_cache_free.
Qed.

End Served.

Section Requests.

Variable isCached : World -> Validators -> string -> string -> option bool.
Variable env : Env.
Variable cfg : Config.

(** The handler once the candidate path is known and not ignored. *)
Lemma wildcard_try req path w c :
  request_path env cfg req w c = (Returned path, c, []) ->
  truthy (shouldIgnore cfg path) = false ->
  wildcard_handler isCached env cfg req w c
  = try_catch
      (known <- statCache_get path ;;
       status <- match known with
                 | Some s => ret s
                 | None =>
                     s <- await_stat path ;;
                     statCache_set path s ;;;
                     ret s
                 end ;;
       if negb (indexHTML cfg) && isDirectory status then throw NotFoundError
       else
         filePath <- resolve_filePath env cfg path status ;;
         if noCache cfg then respond_noCache cfg filePath
         else
           etag <- await_generateETag filePath ;;
           respond_cached isCached cfg req etag path filePath)
      (fun _ => throw NotFoundError) w c.
Proof.
  intros Hp Hig. unfold wildcard_handler.
  rewrite (bind_pure _ _ _ _ _ Hp), Hig. reflexivity.
Qed.

(** The first request for a path: the stat cache does not hold it. *)
Lemma cold_path req path w c :
  request_path env cfg req w c = (Returned path, c, []) ->
  truthy (shouldIgnore cfg path) = false ->
  statCache c !! path = None ->
  wildcard_handler isCached env cfg req w c
  = try_catch
      (status <- (s <- await_stat path ;; statCache_set path s ;;; ret s) ;;
       if negb (indexHTML cfg) && isDirectory status then throw NotFoundError
       else
         filePath <- resolve_filePath env cfg path status ;;
         if noCache cfg then respond_noCache cfg filePath
         else
           etag <- await_generateETag filePath ;;
           respond_cached isCached cfg req etag path filePath)
      (fun _ => throw NotFoundError) w c.
Proof.
  intros Hp Hig Hmiss. rewrite (wildcard_try _ _ _ _ Hp Hig).
  unfold try_catch.
  rewrite (bind_pure _ _ _ _ _ (statCache_get_miss _ w _ Hmiss)).
  reflexivity.
Qed.

Lemma status_step_run path w c s :
  stat w path = Some s ->
  (size (statCache c) < NodeCache.maxKeys)%nat ->
  (s <- await_stat path ;; statCache_set path s ;;; ret s) w c
  = (Returned s,
     {| statCache := <[path := (s, now w + NodeCache.stdTTL * 1000)]> (statCache c);
        fileCache := fileCache c; htmlCache := htmlCache c |},
     [CallStat path]).
Proof.
  intros Hs Hroom.
  unfold bind, await_stat, await, statCache_set, ret.
  rewrite Hs, (set_room _ _ _ _ Hroom). reflexivity.
Qed.

Lemma response_run req path filePath content etag w c :
  readFile w filePath = Some content ->
  (noCache cfg = false ->
   generateETag w filePath = Some etag
   /\ isCached w (parseHeaders req) etag path = Some false) ->
  (if noCache cfg then respond_noCache cfg filePath
   else etag <- await_generateETag filePath ;;
        respond_cached isCached cfg req etag path filePath) w c
  = (Returned (new_Response content
                 (if noCache cfg then headers cfg else responseHeaders cfg etag)),
     c,
     if noCache cfg then [CallReadFile filePath]
     else [CallGenerateETag filePath;
           CallIsCached (parseHeaders req) etag path;
           CallReadFile filePath]).
Proof.
  intros Hr Hc. destruct (noCache cfg).
  - rewrite respond_noCache_run, Hr. reflexivity.
  - destruct (Hc eq_refl) as [He Hi].
    unfold bind, await_generateETag, await. rewrite He.
    rewrite respond_cached_run. cbn zeta. rewrite Hi, Hr. reflexivity.
Qed.

End Requests.

(** X14: the first request for a regular file in dynamic mode.  The
    candidate path is in neither cache and both caches have room; [stat]
    finds a file that is not a directory and [readFile] gives its
    content (with caching enabled, the ETag is computed and the
    evaluator answers that the client's copy is stale).  The handler
    answers 200 with the content, after exactly one [stat] call, and
    leaves the metadata and the path in the caches for [stdTTL]
    seconds. *)
Theorem first_request_serves_the_file
    (isCached : World -> Validators -> string -> string -> option bool)
    (env : Env) (cfg : Config) (req : Request) (w : World) (c : Caches)
    (path : string) (s : Stats) (content etag : string) :
  request_path env cfg req w c = (Returned path, c, []) ->
  truthy (shouldIgnore cfg path) = false ->
  statCache c !! path = None ->
  fileCache c !! path = None ->
  (size (statCache c) < NodeCache.maxKeys)%nat ->
  (size (fileCache c) < NodeCache.maxKeys)%nat ->
  stat w path = Some s ->
  isDirectory s = false ->
  readFile w path = Some content ->
  (noCache cfg = false ->
   generateETag w path = Some etag
   /\ isCached w (parseHeaders req) etag path = Some false) ->
  wildcard_handler isCached env cfg req w c
  = (Returned (new_Response content
                 (if noCache cfg then headers cfg else responseHeaders cfg etag)),
     {| statCache := <[path := (s, now w + NodeCache.stdTTL * 1000)]> (statCache c);
        fileCache := <[path := (path, now w + NodeCache.stdTTL * 1000)]> (fileCache c);
        htmlCache := htmlCache c |},
     CallStat path ::
       (if noCache cfg then [CallReadFile path]
        else [CallGenerateETag path;
              CallIsCached (parseHeaders req) etag path;
              CallReadFile path])).
Proof.
  intros Hp Hig Hsm Hfm Hsr Hfr Hs Hd Hr Hc.
  rewrite (cold_path _ _ _ _ _ _ _ Hp Hig Hsm).
  apply try_catch_run.
  rewrite (bind_run _ _ _ _ _ _ _ (status_step_run path w c s Hs Hsr)).
  cbv beta. rewrite Hd, andb_false_r.
  set (c2 := {| statCache := <[path := (s, now w + NodeCache.stdTTL * 1000)]>
                               (statCache c);
                 fileCache := fileCache c; htmlCache := htmlCache c |}).
  assert (Hres : resolve_filePath env cfg path s w c2
                 = (Returned path,
                    {| statCache := statCache c2;
                       fileCache := <[path := (path, now w + NodeCache.stdTTL * 1000)]>
                                      (fileCache c2);
                       htmlCache := htmlCache c2 |}, [])).
  { rewrite resolve_filePath_miss by exact Hfm.
    cbv zeta. rewrite Hd. cbn [fileCache c2].
    rewrite (set_room _ _ _ _ Hfr). reflexivity. }
  rewrite (bind_run _ _ _ _ _ _ _ Hres).
  rewrite (response_run isCached cfg req path path content etag w _ Hr Hc).
  reflexivity.
Qed.

Lemma first_request_witness :
  wildcard_handler isCached_spec posix default_cfg
    (GET "/public/a.txt" no_validators) site no_caches
  = (Returned (new_Response "hi" (responseHeaders default_cfg "etag(hi)")),
     {| statCache :=
          <["public/a.txt" := (a_file 100, 1000 + NodeCache.stdTTL * 1000)]> ∅;
        fileCache :=
          <["public/a.txt" := ("public/a.txt", 1000 + NodeCache.stdTTL * 1000)]> ∅;
        htmlCache := ∅ |},
     [CallStat "public/a.txt"; CallGenerateETag "public/a.txt";
      CallIsCached no_validators "etag(hi)" "public/a.txt";
      CallReadFile "public/a.txt"]).
Proof.
  apply (first_request_serves_the_file isCached_spec posix default_cfg
           (GET "/public/a.txt" no_validators) site no_caches
           "public/a.txt" (a_file 100) "hi" "etag(hi)").
  - reflexivity.
  - reflexivity.
  - reflexivity.
  - reflexivity.
  - vm_compute. lia.
  - vm_compute. lia.
  - reflexivity.
  - reflexivity.
  - reflexivity.
  - intros _. split; reflexivity.
Defined.

Lemma try_catch_threw {A} (m : M A) e0 w c e c1 l1 :
  m w c = (Threw e, c1, l1) ->
  try_catch m (fun _ => throw e0) w c = (Threw e0, c1, l1).
Proof.
  intros H. unfold try_catch, throw. rewrite H, app_nil_r. reflexivity.
Qed.

Lemma status_step_cases path w c :
  (s <- await_stat path ;; statCache_set path s ;;; ret s) w c
  = match stat w path with
    | None => (Threw IOError, c, [CallStat path])
    | Some s =>
        match NodeCache.set (now w) (statCache c) path s with
        | Some m =>
            (Returned s,
             {| statCache := m; fileCache := fileCache c;
                htmlCache := htmlCache c |},
             [CallStat path])
        | None => (Threw ECACHEFULL, c, [CallStat path])
        end
    end.
Proof.
  unfold bind, await_stat, await, statCache_set, ret.
  destruct (stat w path) as [s|]; [|reflexivity].
  destruct (NodeCache.set (now w) (statCache c) path s); reflexivity.
Qed.

Lemma statCache_get_others path w c known c' l :
  statCache_get path w c = (Returned known, c', l) ->
  fileCache c' = fileCache c /\ htmlCache c' = htmlCache c
  /\ (statCache c !! path = None -> known = None /\ c' = c).
Proof.
  unfold statCache_get.
  destruct (NodeCache.get (now w) (statCache c) path) as [v m] eqn:E.
  intros [= <- <- <-]. split; [reflexivity|split; [reflexivity|]].
  intros Hmiss. rewrite (get_miss _ _ _ Hmiss) in E. injection E as <- <-.
  split; [reflexivity|apply caches_eta].
Qed.

Section NotFound.

Variable isCached : World -> Validators -> string -> string -> option bool.
Variable env : Env.
Variable cfg : Config.

(** X15: the first request for a directory that holds an [index.html],
    with [indexHTML].  The handler looks for the index file with one more
    [stat] call, answers 200 with its content, and remembers under the
    path of the directory that the index file is what it serves.  The
    file cache is written twice (lines 347 and 360), so two free places
    are needed. *)
Theorem first_request_serves_the_index
    (req : Request) (w : World) (c : Caches)
    (path : string) (s : Stats) (content etag : string) :
  request_path env cfg req w c = (Returned path, c, []) ->
  truthy (shouldIgnore cfg path) = false ->
  statCache c !! path = None ->
  fileCache c !! path = None ->
  (size (statCache c) < NodeCache.maxKeys)%nat ->
  (S (size (fileCache c)) < NodeCache.maxKeys)%nat ->
  stat w path = Some s ->
  isDirectory s = true ->
  indexHTML cfg = true ->
  htmlCache c !! (path +:+ str (sep env) +:+ "index.html") = None ->
  is_Some (stat w (path +:+ str (sep env) +:+ "index.html")) ->
  readFile w (path +:+ str (sep env) +:+ "index.html") = Some content ->
  (noCache cfg = false ->
   generateETag w (path +:+ str (sep env) +:+ "index.html") = Some etag
   /\ isCached w (parseHeaders req) etag path = Some false) ->
  wildcard_handler isCached env cfg req w c
  = (Returned (new_Response content
                 (if noCache cfg then headers cfg else responseHeaders cfg etag)),
     {| statCache := <[path := (s, now w + NodeCache.stdTTL * 1000)]> (statCache c);
        fileCache := <[path := (path +:+ str (sep env) +:+ "index.html",
                                now w + NodeCache.stdTTL * 1000)]> (fileCache c);
        htmlCache := htmlCache c |},
     CallStat path :: CallStat (path +:+ str (sep env) +:+ "index.html") ::
       (if noCache cfg
        then [CallReadFile (path +:+ str (sep env) +:+ "index.html")]
        else [CallGenerateETag (path +:+ str (sep env) +:+ "index.html");
              CallIsCached (parseHeaders req) etag path;
              CallReadFile (path +:+ str (sep env) +:+ "index.html")])).
Proof.
  intros Hp Hig Hsm Hfm Hsr Hfr Hs Hd Hindex Hhm Hi Hr Hc.
  set (index := path +:+ str (sep env) +:+ "index.html") in *.
  rewrite (cold_path _ _ _ _ _ _ _ Hp Hig Hsm).
  apply try_catch_run.
  rewrite (bind_run _ _ _ _ _ _ _ (status_step_run path w c s Hs Hsr)).
  cbv beta. rewrite Hindex. cbn [negb andb].
  set (c2 := {| statCache := <[path := (s, now w + NodeCache.stdTTL * 1000)]>
                               (statCache c);
                 fileCache := fileCache c; htmlCache := htmlCache c |}).
  assert (Hres : resolve_filePath env cfg path s w c2
                 = (Returned index,
                    {| statCache := statCache c2;
                       fileCache := <[path := (index, now w + NodeCache.stdTTL * 1000)]>
                                      (fileCache c2);
                       htmlCache := htmlCache c2 |}, [CallStat index])).
  { rewrite resolve_filePath_miss by exact Hfm.
    cbv zeta. rewrite Hd, Hindex. fold index. cbn [htmlCache fileCache c2].
    rewrite (get_miss _ _ _ Hhm). cbn [default].
    rewrite bool_decide_eq_true_2 by exact Hi.
    cbn [htmlCache fileCache statCache].
    rewrite (set_room _ (fileCache c) _ _ (Nat.lt_succ_l _ _ Hfr)).
    cbn [htmlCache fileCache statCache].
    rewrite set_room
      by (rewrite map_size_insert_None by exact Hfm; exact Hfr).
    rewrite insert_insert_eq. reflexivity. }
  rewrite (bind_run _ _ _ _ _ _ _ Hres).
  rewrite (response_run isCached cfg req path index content etag w _ Hr Hc).
  reflexivity.
Qed.

(** X21: with one free place only, the same request fails: the second
    write of the file cache (line 360) finds the cache full, although it
    writes the key that line 347 has just written, and the [catch] turns
    the error into [NotFoundError]. *)
Theorem index_request_needs_two_places
    (req : Request) (w : World) (c : Caches) (path : string) (s : Stats) :
  request_path env cfg req w c = (Returned path, c, []) ->
  truthy (shouldIgnore cfg path) = false ->
  statCache c !! path = None ->
  fileCache c !! path = None ->
  (size (statCache c) < NodeCache.maxKeys)%nat ->
  S (size (fileCache c)) = NodeCache.maxKeys ->
  stat w path = Some s ->
  isDirectory s = true ->
  indexHTML cfg = true ->
  htmlCache c !! (path +:+ str (sep env) +:+ "index.html") = None ->
  is_Some (stat w (path +:+ str (sep env) +:+ "index.html")) ->
  outcome_of (wildcard_handler isCached env cfg req w c) = Threw NotFoundError.
Proof.
  intros Hp Hig Hsm Hfm Hsr Hfr Hs Hd Hindex Hhm Hi.
  set (index := path +:+ str (sep env) +:+ "index.html") in *.
  rewrite (cold_path _ _ _ _ _ _ _ Hp Hig Hsm).
  set (c2 := {| statCache := <[path := (s, now w + NodeCache.stdTTL * 1000)]>
                               (statCache c);
                 fileCache := fileCache c; htmlCache := htmlCache c |}).
  assert (Hres : exists c3,
            resolve_filePath env cfg path s w c2
            = (Threw ECACHEFULL, c3, [CallStat index])).
  { rewrite resolve_filePath_miss by exact Hfm.
    cbv zeta. rewrite Hd, Hindex. fold index. cbn [htmlCache fileCache c2].
    rewrite (get_miss _ _ _ Hhm). cbn [default].
    rewrite bool_decide_eq_true_2 by exact Hi.
    cbn [htmlCache fileCache statCache].
    rewrite (set_room _ (fileCache c)) by (rewrite <- Hfr; apply Nat.lt_succ_diag_r).
    cbn [htmlCache fileCache statCache].
    rewrite set_full
      by (rewrite map_size_insert_None by exact Hfm; rewrite Hfr; apply Nat.le_refl).
    eexists. reflexivity. }
  destruct Hres as [c3 Hres].
  erewrite try_catch_threw; [reflexivity|].
  rewrite (bind_run _ _ _ _ _ _ _ (status_step_run path w c s Hs Hsr)).
  cbv beta. rewrite Hindex. cbn [negb andb].
  rewrite (bind_threw _ _ _ _ _ _ _ Hres). reflexivity.
Qed.


Lemma resolve_filePath_full path status w c filePath c' l :
  fileCache c !! path = None ->
  (NodeCache.maxKeys <= size (fileCache c))%nat ->
  resolve_filePath env cfg path status w c <> (Returned filePath, c', l).
Proof.
  intros Hmiss Hfull. rewrite resolve_filePath_miss by exact Hmiss.
  cbv zeta. destruct (isDirectory status).
  - destruct (indexHTML cfg); [|discriminate].
    destruct (NodeCache.get (now w) (htmlCache c) _) as [known html].
    destruct (default _ known); [|discriminate].
    cbn [fileCache]. rewrite (set_full _ _ _ _ Hfull). discriminate.
  - rewrite (set_full _ _ _ _ Hfull). discriminate.
Qed.

(** X18: a full cache turns every new path into [NotFoundError].  When
    the stat cache or the file cache holds [maxKeys] keys and not the
    candidate path of the request, the handler throws [NotFoundError]
    whatever the file system holds: [set] throws inside the [try] block
    and the [catch] folds it. *)
Theorem full_cache_hides_new_paths
    (req : Request) (w : World) (c : Caches) (path : string) :
  request_path env cfg req w c = (Returned path, c, []) ->
  (statCache c !! path = None
   /\ (NodeCache.maxKeys <= size (statCache c))%nat)
  \/ (fileCache c !! path = None
      /\ (NodeCache.maxKeys <= size (fileCache c))%nat) ->
  outcome_of (wildcard_handler isCached env cfg req w c) = Threw NotFoundError.
Proof.
  intros Hp Hfull.
  destruct (truthy (shouldIgnore cfg path)) eqn:Hig.
  { unfold wildcard_handler. rewrite (bind_pure _ _ _ _ _ Hp), Hig.
    reflexivity. }
  rewrite (wildcard_try _ _ _ _ _ _ _ Hp Hig).
  match goal with
  | |- context [try_catch ?m _ w c] =>
      pose proof (try_catch_NotFound m w c) as Hcatch;
      destruct (outcome_of (try_catch m _ w c)) as [resp|e];
        [exfalso|congruence];
      destruct (m w c) as [[o c'] l] eqn:Hm
  end.
  unfold outcome_of in Hcatch. cbn [fst] in Hcatch. subst o.
  apply bind_returned in Hm as (known & c0 & l0 & l0' & Hk & Hm & ->).
  apply statCache_get_others in Hk as (Hf0 & _ & Hk).
  apply bind_returned in Hm as (status & c2 & l3 & l4 & Hs & Hm & ->).
  destruct (negb (indexHTML cfg) && isDirectory status); [discriminate|].
  apply bind_returned in Hm as (filePath & c3 & l5 & l6 & Hr & _).
  destruct Hfull as [[Hmiss Hfull]|[Hmiss Hfull]].
  - destruct (Hk Hmiss) as [-> ->].
    rewrite status_step_cases in Hs.
    destruct (stat w path); [|discriminate].
    rewrite (set_full _ _ _ _ Hfull) in Hs. discriminate.
  - assert (Hf2 : fileCache c2 = fileCache c).
    { destruct known as [s|].
      - unfold ret in Hs. injection Hs as _ <- _. exact Hf0.
      - apply status_step_returned in Hs as (_ & -> & _). exact Hf0. }
    apply (resolve_filePath_full path status w c2 filePath c3 l5);
      [rewrite Hf2; exact Hmiss|rewrite Hf2; exact Hfull|exact Hr].
Qed.

(** X17: a path served once is served from the caches for [stdTTL]
    seconds.  After a request for a path in neither cache was answered, a
    request for the same URL, in any state of the file system and at any
    time up to [stdTTL] seconds later, makes no [stat] call and leaves
    the caches as they are: that the path has become a directory, or has
    gone, is not looked at. *)
Theorem repeat_request_is_served_from_the_caches
    (req : Request) (w : World) (c : Caches) (path : string)
    (resp : Response) (c' : Caches) (l : list Call) (w2 : World) :
  request_path env cfg req w c = (Returned path, c, []) ->
  path <> "" ->
  statCache c !! path = None ->
  fileCache c !! path = None ->
  wildcard_handler isCached env cfg req w c = (Returned resp, c', l) ->
  now w2 <= now w + NodeCache.stdTTL * 1000 ->
  caches_of (wildcard_handler isCached env cfg req w2 c') = c'
  /\ existsb is_CallStat (calls_of (wildcard_handler isCached env cfg req w2 c'))
     = false.
Proof.
  intros Hp Hne Hsm Hfm Hrun Hw2.
  destruct (truthy (shouldIgnore cfg path)) eqn:Hig.
  { unfold wildcard_handler in Hrun.
    rewrite (bind_pure _ _ _ _ _ Hp), Hig in Hrun. discriminate. }
  rewrite (cold_path _ _ _ _ _ _ _ Hp Hig Hsm) in Hrun.
  apply try_catch_returned in Hrun as [Hrun|(e & c1 & l1 & l2 & _ & H & _)];
    [|discriminate].
  apply bind_returned in Hrun as (status & c2 & l3 & l4 & Hs & Hrun & ->).
  apply status_step_returned in Hs as (Hs & -> & ->).
  destruct (negb (indexHTML cfg) && isDirectory status) eqn:Hdir;
    [discriminate|].
  apply bind_returned in Hrun as (filePath & c3 & l5 & l6 & Hr & Hrun & ->).
  apply resolve_filePath_miss_returned in Hr as (Hst & Hfile & Hwhich);
    [|exact Hfm].
  apply response_returned in Hrun as ->.
  assert (Hlive : negb (now w + NodeCache.stdTTL * 1000 =? 0)
                  && (now w + NodeCache.stdTTL * 1000 <? now w2) = false).
  { apply andb_false_iff. right. apply Z.ltb_ge. exact Hw2. }
  eapply (warm_path isCached env cfg req path w2 c3 status _ filePath _).
  - eapply request_path_pure, Hp.
  - exact Hig.
  - rewrite Hst. cbn [statCache]. apply lookup_insert_eq.
  - exact Hlive.
  - exact Hdir.
  - exact Hfile.
  - exact Hlive.
  - rewrite Hwhich. destruct (isDirectory status); [|exact Hne].
    intros Hempty. apply (f_equal String.length) in Hempty.
    rewrite !length_app in Hempty. simpl in Hempty. lia.
Qed.

(** X11: the candidate path of a request under the prefix, without
    [enableDecodeURI].  On a host whose separator is ["/"] it is the
    [assets] option followed by the rest of the URL path.  On a host
    with another separator line 308 translates one separator only: for
    an [assets] option without ["/"], the first ["/"] of the rest
    becomes the host's separator and the later ones stay. *)
Theorem candidate_path_of_a_request
    (req : Request) (rest : string) (w : World) (c : Caches) :
  enableDecodeURI cfg = false ->
  pathname req = mount cfg +:+ rest ->
  (sep env = "/"%char ->
   request_path env cfg req w c = (Returned (assets cfg +:+ rest), c, []))
  /\ (forall tail,
        sep env <> "/"%char ->
        Js.includes (assets cfg) "/" = false ->
        rest = "/" +:+ tail ->
        request_path env cfg req w c
        = (Returned (assets cfg +:+ str (sep env) +:+ tail), c, [])).
Proof.
  intros Hd Hp. rewrite (request_path_prefix env cfg req rest w c Hd Hp).
  unfold isFSSepUnsafe. split.
  - intros ->. reflexivity.
  - intros tail Hsep Ha ->.
    apply Ascii.eqb_neq in Hsep.
    change URL_PATH_SEP with "/"%char. rewrite Hsep. cbn [negb].
    change (str "/") with "/".
    rewrite (replace_first_slash _ _ _ Ha). reflexivity.
Qed.

End NotFound.

Lemma candidate_path_witness :
  (sep backslash_host = "/"%char ->
   request_path backslash_host default_cfg
     (GET "/public/nested/a.txt" no_validators) site no_caches
   = (Returned ("public" +:+ "/nested/a.txt"), no_caches, []))
  /\ (forall tail,
        sep backslash_host <> "/"%char ->
        Js.includes "public" "/" = false ->
        "/nested/a.txt" = "/" +:+ tail ->
        request_path backslash_host default_cfg
          (GET "/public/nested/a.txt" no_validators) site no_caches
        = (Returned ("public" +:+ str (sep backslash_host) +:+ tail),
           no_caches, [])).
Proof.
  apply (candidate_path_of_a_request backslash_host default_cfg
           (GET "/public/nested/a.txt" no_validators) "/nested/a.txt"
           site no_caches).
  - reflexivity.
  - reflexivity.
Defined.

Lemma first_index_request_witness :
  wildcard_handler isCached_spec posix default_cfg
    (GET "/public/html" no_validators) site no_caches
  = (Returned (new_Response "<html></html>"
                 (responseHeaders default_cfg "etag(<html></html>)")),
     {| statCache :=
          <["public/html" := (a_directory 100, 1000 + NodeCache.stdTTL * 1000)]> ∅;
        fileCache :=
          <["public/html" := ("public/html/index.html",
                              1000 + NodeCache.stdTTL * 1000)]> ∅;
        htmlCache := ∅ |},
     [CallStat "public/html"; CallStat "public/html/index.html";
      CallGenerateETag "public/html/index.html";
      CallIsCached no_validators "etag(<html></html>)" "public/html";
      CallReadFile "public/html/index.html"]).
Proof.
  apply (first_request_serves_the_index isCached_spec posix default_cfg
           (GET "/public/html" no_validators) site no_caches
           "public/html" (a_directory 100) "<html></html>" "etag(<html></html>)").
  - reflexivity.
  - reflexivity.
  - reflexivity.
  - reflexivity.
  - vm_compute. lia.
  - vm_compute. lia.
  - reflexivity.
  - reflexivity.
  - reflexivity.
  - reflexivity.
  - vm_compute. eexists. reflexivity.
  - reflexivity.
  - intros _. split; reflexivity.
Defined.


Lemma two_places_witness :
  outcome_of (wildcard_handler isCached_spec posix default_cfg
                (GET "/public/html" no_validators) site nearly_full)
  = Threw NotFoundError.
Proof.
  apply (index_request_needs_two_places isCached_spec posix default_cfg
           (GET "/public/html" no_validators) site nearly_full
           "public/html" (a_directory 100)).
  - reflexivity.
  - reflexivity.
  - reflexivity.
  - vm_compute. reflexivity.
  - vm_compute. lia.
  - vm_compute. reflexivity.
  - reflexivity.
  - reflexivity.
  - reflexivity.
  - reflexivity.
  - vm_compute. eexists. reflexivity.
Defined.

Lemma repeat_request_witness :
  caches_of (wildcard_handler isCached_spec posix default_cfg
               (GET "/public/a.txt" no_validators) emptied warmed)
  = warmed
  /\ existsb is_CallStat
       (calls_of (wildcard_handler isCached_spec posix default_cfg
                    (GET "/public/a.txt" no_validators) emptied warmed))
     = false.
Proof.
  apply (repeat_request_is_served_from_the_caches isCached_spec posix default_cfg
           (GET "/public/a.txt" no_validators) site no_caches "public/a.txt"
           (new_Response "hi" (responseHeaders default_cfg "etag(hi)"))
           warmed
           (calls_of (wildcard_handler isCached_spec posix default_cfg
                        (GET "/public/a.txt" no_validators) site no_caches))
           emptied).
  - reflexivity.
  - discriminate.
  - reflexivity.
  - reflexivity.
  - vm_compute. reflexivity.
  - vm_compute. discriminate.
Defined.

Lemma full_cache_witness :
  stat site "public/a.txt" = Some (a_file 100)
  /\ outcome_of (wildcard_handler isCached_spec posix default_cfg
                   (GET "/public/a.txt" no_validators) site crowded)
     = Threw NotFoundError.
Proof.
  split; [reflexivity|].
  apply (full_cache_hides_new_paths isCached_spec posix default_cfg
           (GET "/public/a.txt" no_validators) site crowded "public/a.txt").
  - reflexivity.
  - left. split; [vm_compute; reflexivity|vm_compute; lia].
Defined.

(** ** Static mode: start-up and handlers *)

Section StartUp.

Variable env : Env.
Variable cfg : Config.

Lemma for_each_file_trace files : forall routes w c,
  caches_of (for_each_file env cfg files routes w c) = c
  /\ match outcome_of (for_each_file env cfg files routes w c) with
     | Returned rs =>
         calls_of (for_each_file env cfg files routes w c)
         = map CallGenerateETag
             (List.filter (fun f => negb (skipped cfg f)) files)
         /\ (forall f, In f files -> skipped cfg f = false ->
               is_Some (generateETag w f))
     | Threw e =>
         e = IOError
         /\ exists f, In f files /\ skipped cfg f = false
                      /\ generateETag w f = None
     end.
Proof.
  induction files as [|f files IH]; intros routes w c.
  - split; [reflexivity|]. split; [reflexivity|]. intros f [].
  - cbn [for_each_file]. unfold bind. rewrite static_routes_run.
    destruct (skipped cfg f) eqn:Hskip.
    + specialize (IH (routes ++ [])%list w c).
      destruct (for_each_file env cfg files (routes ++ [])%list w c)
        as [[[rs|e] c1] l1].
      * destruct IH as [Hc [Hl Hall]]. split; [exact Hc|].
        cbn [outcome_of calls_of fst snd List.filter app] in *.
        rewrite Hskip. cbn [negb]. split; [exact Hl|].
        intros g [<-|Hg] Hg'; [congruence|auto].
      * destruct IH as [Hc [He (g & Hg & Hg' & Hnone)]]. split; [exact Hc|].
        cbn [outcome_of fst]. split; [exact He|].
        exists g. split; [right; exact Hg|auto].
    + destruct (generateETag w f) as [etag|] eqn:He.
      * specialize (IH (routes ++ pushed_routes env cfg f etag)%list w c).
        destruct (for_each_file env cfg files _ w c) as [[[rs|e] c1] l1].
        -- destruct IH as [Hc [Hl Hall]]. split; [exact Hc|].
           cbn [outcome_of calls_of fst snd List.filter app] in *.
           rewrite Hskip. cbn [negb map]. split; [rewrite Hl; reflexivity|].
           intros g [<-|Hg] Hg'; [rewrite He; eauto|auto].
        -- destruct IH as [Hc [He' (g & Hg & Hg' & Hnone)]]. split; [exact Hc|].
           cbn [outcome_of fst]. split; [exact He'|].
           exists g. split; [right; exact Hg|auto].
      * split; [reflexivity|]. cbn [outcome_of fst]. split; [reflexivity|].
        exists f. split; [left; reflexivity|auto].
Qed.

End StartUp.

(** X7: what static mode does at start-up.  The plugin asks for the
    ETag of every enumerated file that line 212 does not skip, in the
    order of the enumeration, and for nothing else, also with [noCache],
    where no handler uses an ETag; it returns its routes exactly when
    every one of these files has an ETag, and rejects with the error of
    [generateETag] as soon as one has none.  The caches are not
    touched. *)
Theorem start_up_computes_every_etag
    (env : Env) (cfg : Config) (files : list string) (w : World) (c : Caches) :
  static_mode env cfg files = true ->
  caches_of (staticPlugin env cfg files w c) = c
  /\ match outcome_of (staticPlugin env cfg files w c) with
     | Returned rs =>
         calls_of (staticPlugin env cfg files w c)
         = map CallGenerateETag
             (List.filter (fun f => negb (skipped cfg f)) files)
         /\ (forall f, In f files -> skipped cfg f = false ->
               is_Some (generateETag w f))
     | Threw e =>
         e = IOError
         /\ exists f, In f files /\ skipped cfg f = false
                      /\ generateETag w f = None
     end.
Proof.
  intros Hmode. unfold staticPlugin. rewrite Hmode.
  apply for_each_file_trace.
Qed.

Lemma start_up_witness :
  caches_of (staticPlugin site_host site_static_cfg
               ["/srv/app/public/a.txt"; "/srv/app/public/LICENSE"]
               site no_caches)
  = no_caches
  /\ match outcome_of (staticPlugin site_host site_static_cfg
                         ["/srv/app/public/a.txt"; "/srv/app/public/LICENSE"]
                         site no_caches) with
     | Returned rs =>
         calls_of (staticPlugin site_host site_static_cfg
                     ["/srv/app/public/a.txt"; "/srv/app/public/LICENSE"]
                     site no_caches)
         = map CallGenerateETag
             (List.filter (fun f => negb (skipped site_static_cfg f))
                ["/srv/app/public/a.txt"; "/srv/app/public/LICENSE"])
         /\ (forall f,
               In f ["/srv/app/public/a.txt"; "/srv/app/public/LICENSE"] ->
               skipped site_static_cfg f = false ->
               is_Some (generateETag site f))
     | Threw e =>
         e = IOError
         /\ exists f,
              In f ["/srv/app/public/a.txt"; "/srv/app/public/LICENSE"]
              /\ skipped site_static_cfg f = false
              /\ generateETag site f = None
     end.
Proof.
  apply (start_up_computes_every_etag site_host site_static_cfg
           ["/srv/app/public/a.txt"; "/srv/app/public/LICENSE"] site no_caches).
  reflexivity.
Defined.

(** X8: the handlers of static mode go past the caches.  A run of the
    handler of any route that static mode built leaves the three caches
    as they are and makes no [stat] call, and it never throws
    [NotFoundError]: a file that has gone since start-up surfaces as the
    error of [readFile] itself, not as the not-found outcome of dynamic
    mode.  Every route is a GET route. *)
Theorem static_routes_bypass_the_caches
    (isCached : World -> Validators -> string -> string -> option bool)
    (env : Env) (cfg : Config) (files : list string)
    (wb : World) (cb : Caches) (rs : list Route) (cb' : Caches) (lb : list Call)
    (r : Route) (req : Request) (w : World) (c : Caches) :
  static_mode env cfg files = true ->
  staticPlugin env cfg files wb cb = (Returned rs, cb', lb) ->
  r ∈ rs ->
  method r = "GET"
  /\ caches_of (handle isCached env cfg (handler r) req w c) = c
  /\ existsb is_CallStat (calls_of (handle isCached env cfg (handler r) req w c))
     = false
  /\ outcome_of (handle isCached env cfg (handler r) req w c)
     <> Threw NotFoundError.
Proof.
  intros Hmode Hbuilt Hr.
  destruct (staticPlugin_routes _ _ _ _ _ _ _ _ _ Hbuilt Hr)
    as [[Hdyn _]|(_ & f & etag & _ & _ & _ & Hpushed)]; [congruence|].
  apply pushed_routes_handler in Hpushed as [Hget Hh].
  split; [exact Hget|].
  destruct (noCache cfg).
  - rewrite Hh. cbn [handle]. rewrite respond_noCache_run.
    destruct (readFile w f); repeat split; discriminate.
  - destruct Hh as [key ->]. cbn [handle]. rewrite respond_cached_run.
    cbn zeta.
    destruct (isCached w (parseHeaders req) etag key) as [[|]|];
      [| |repeat split; discriminate].
    + repeat split; discriminate.
    + destruct (readFile w f); repeat split; discriminate.
Qed.

Lemma static_handler_witness :
  method {| method := "GET"; path := "/public/a.txt";
            handler := StaticCached "etag(hi)" "/srv/app/public/a.txt"
                         "/srv/app/public/a.txt" |} = "GET"
  /\ caches_of (handle isCached_spec site_host site_static_cfg
                  (StaticCached "etag(hi)" "/srv/app/public/a.txt"
                     "/srv/app/public/a.txt")
                  (GET "/public/a.txt" no_validators) emptied warmed)
     = warmed
  /\ existsb is_CallStat
       (calls_of (handle isCached_spec site_host site_static_cfg
                    (StaticCached "etag(hi)" "/srv/app/public/a.txt"
                       "/srv/app/public/a.txt")
                    (GET "/public/a.txt" no_validators) emptied warmed))
     = false
  /\ outcome_of (handle isCached_spec site_host site_static_cfg
                   (StaticCached "etag(hi)" "/srv/app/public/a.txt"
                      "/srv/app/public/a.txt")
                   (GET "/public/a.txt" no_validators) emptied warmed)
     <> Threw NotFoundError.
Proof.
  apply (static_routes_bypass_the_caches isCached_spec site_host site_static_cfg
           ["/srv/app/public/a.txt"] site no_caches
           [ {| method := "GET"; path := "/public/a.txt";
                handler := StaticCached "etag(hi)" "/srv/app/public/a.txt"
                             "/srv/app/public/a.txt" |} ]
           no_caches [CallGenerateETag "/srv/app/public/a.txt"]
           {| method := "GET"; path := "/public/a.txt";
              handler := StaticCached "etag(hi)" "/srv/app/public/a.txt"
                           "/srv/app/public/a.txt" |}
           (GET "/public/a.txt" no_validators) emptied warmed).
  - reflexivity.
  - vm_compute. reflexivity.
  - apply list_elem_of_here.
Defined.

(** ** String rules of [ignorePatterns] *)

Lemma startsWith_length s p :
  Js.startsWith s p = true -> (String.length p <= String.length s)%nat.
Proof.
  revert s. induction p as [|a p IH]; intros s H; [simpl; lia|].
  destruct s as [|b s]; [discriminate|].
  cbn [Js.startsWith] in H. apply andb_true_iff in H as [_ H].
  apply IH in H. simpl. lia.
Qed.

Lemma includes_length s p :
  Js.includes s p = true -> (String.length p <= String.length s)%nat.
Proof.
  induction s as [|a s IH]; cbn [Js.includes]; intros H.
  - rewrite orb_false_r in H. apply startsWith_length, H.
  - apply orb_true_iff in H as [H|H]; [apply startsWith_length, H|].
    apply IH in H. simpl. lia.
Qed.

(** X9: a string rule of [ignorePatterns] is matched by the paths
    that occur inside the rule (line 198 asks [pattern.includes(file)]),
    so by no path longer than the rule: when every rule is a string
    shorter than the path, as the three default rules are for every path
    of ten characters or more, the path is not ignored. *)
Theorem string_rules_match_only_inside_the_rule (cfg : Config) (file : string) :
  (forall s, shouldIgnore cfg file = Some (PString s) ->
     In (PString s) (ignorePatterns cfg)
     /\ Js.includes s file = true
     /\ (String.length file <= String.length s)%nat)
  /\ ((forall p, In p (ignorePatterns cfg) ->
         exists s, p = PString s
                   /\ (String.length s < String.length file)%nat) ->
      shouldIgnore cfg file = None)
  /\ (ignorePatterns cfg = [PString ".DS_Store"; PString ".git"; PString ".env"] ->
      (10 <= String.length file)%nat ->
      truthy (shouldIgnore cfg file) = false).
Proof.
  assert (Hfound : forall s, shouldIgnore cfg file = Some (PString s) ->
            In (PString s) (ignorePatterns cfg)
            /\ Js.includes s file = true
            /\ (String.length file <= String.length s)%nat).
  { intros s. unfold shouldIgnore.
    destruct (length (ignorePatterns cfg) =? 0)%nat; [discriminate|].
    intros H. apply find_some in H as [Hin Hs].
    split; [exact Hin|]. split; [exact Hs|]. apply includes_length, Hs. }
  assert (Hnone : (forall p, In p (ignorePatterns cfg) ->
                     exists s, p = PString s
                               /\ (String.length s < String.length file)%nat) ->
                  shouldIgnore cfg file = None).
  { intros Hall. destruct (shouldIgnore cfg file) as [p|] eqn:H; [|reflexivity].
    exfalso.
    assert (Hin : In p (ignorePatterns cfg)).
    { unfold shouldIgnore in H.
      destruct (length (ignorePatterns cfg) =? 0)%nat; [discriminate|].
      apply find_some in H as [Hin _]. exact Hin. }
    destruct (Hall p Hin) as (s & -> & Hlen).
    destruct (Hfound s eq_refl) as (_ & _ & Hle). lia. }
  split; [exact Hfound|]. split; [exact Hnone|].
  intros Hdefault Hlen. rewrite Hnone; [reflexivity|].
  rewrite Hdefault. intros p [<-|[<-|[<-|[]]]]; eexists; (split; [reflexivity|]);
    simpl; lia.
Qed.

(** ** [enableDecodeURI] on a path without escapes *)

Lemma decode_plain s : Js.includes s "%" = false -> Uri.decodeURI s = Some s.
Proof.
  unfold Uri.decodeURI. induction s as [|a s IH]; intros H; [reflexivity|].
  change "%" with (str "%") in H. rewrite includes_char in H.
  apply orb_false_iff in H as [Ha Hs].
  cbn [Uri.decode]. rewrite Ascii.eqb_sym, Ha, (IH Hs). reflexivity.
Qed.

Lemma includes_drop n s c :
  Js.includes s (str c) = false -> Js.includes (Js.drop n s) (str c) = false.
Proof.
  revert s. induction n as [|n IH]; intros s H; [exact H|].
  destruct s as [|a s]; [exact H|].
  rewrite includes_char in H. apply orb_false_iff in H as [_ H].
  cbn [Js.drop]. apply IH, H.
Qed.

Lemma includes_replace s p c :
  Js.includes s (str c) = false ->
  Js.includes (Js.replace s p "") (str c) = false.
Proof.
  induction s as [|a s IH]; intros H.
  - cbn [Js.replace]. destruct (Js.startsWith "" p); [|reflexivity].
    change ("" +:+ Js.drop (String.length p) "")
      with (Js.drop (String.length p) "").
    apply includes_drop. reflexivity.
  - cbn [Js.replace]. destruct (Js.startsWith (String a s) p).
    + change ("" +:+ Js.drop (String.length p) (String a s))
        with (Js.drop (String.length p) (String a s)).
      apply includes_drop, H.
    + rewrite includes_char in *. apply orb_false_iff in H as [Ha Hs].
      rewrite Ha, (IH Hs). reflexivity.
Qed.

(** X12: [enableDecodeURI] changes nothing for a request whose path
    holds no ["%"] (the [assets] option holding none either): the
    handler does what it does with the option off. *)
Theorem decoding_leaves_plain_paths
    (isCached : World -> Validators -> string -> string -> option bool)
    (env : Env) (cfg : Config) (req : Request) (w : World) (c : Caches) :
  Js.includes (assets cfg) "%" = false ->
  Js.includes (pathname req) "%" = false ->
  wildcard_handler isCached env cfg req w c
  = wildcard_handler isCached env (without_decoding cfg) req w c.
Proof.
  intros Ha Hp.
  assert (Hreq : request_path env cfg req w c
                 = request_path env (without_decoding cfg) req w c).
  { unfold request_path, bind. cbn [enableDecodeURI without_decoding].
    destruct (enableDecodeURI cfg); [|reflexivity].
    rewrite decode_plain; [reflexivity|].
    change "%" with (str "%"). rewrite includes_app_char.
    change (str "%") with "%". rewrite Ha. cbn [orb].
    apply (includes_replace _ _ "%"%char), Hp. }
  unfold wildcard_handler, bind. rewrite Hreq. reflexivity.
Qed.

Lemma plain_path_witness :
  wildcard_handler isCached_spec posix decoding_cfg
    (GET "/public/a.txt" no_validators) site no_caches
  = wildcard_handler isCached_spec posix (without_decoding decoding_cfg)
      (GET "/public/a.txt" no_validators) site no_caches.
Proof.
  apply (decoding_leaves_plain_paths isCached_spec posix decoding_cfg
           (GET "/public/a.txt" no_validators) site no_caches).
  - reflexivity.
  - reflexivity.
Defined.

(** ** An [assets] option that starts with ["./"] *)

Lemma startsWith_spec s p :
  Js.startsWith s p = true -> exists b, s = p +:+ b.
Proof.
  revert s. induction p as [|a p IH]; intros s H; [exists s; reflexivity|].
  destruct s as [|x s]; [discriminate|].
  cbn [Js.startsWith] in H. apply andb_true_iff in H as [Ha H].
  apply Ascii.eqb_eq in Ha as ->. destruct (IH s H) as [b ->].
  exists b. reflexivity.
Qed.

Lemma includes_spec s p :
  Js.includes s p = true -> exists a b, s = a +:+ p +:+ b.
Proof.
  induction s as [|x s IH]; cbn [Js.includes]; intros H.
  - rewrite orb_false_r in H. destruct (startsWith_spec _ _ H) as [b Hb].
    exists "", b. exact Hb.
  - apply orb_true_iff in H as [H|H].
    + destruct (startsWith_spec _ _ H) as [b Hb]. exists "", b. exact Hb.
    + destruct (IH H) as (a & b & ->). exists (String x a), b. reflexivity.
Qed.

Lemma replace_absent s p r :
  Js.includes s p = false -> Js.replace s p r = s.
Proof.
  induction s as [|x s IH]; cbn [Js.includes Js.replace]; intros H.
  - rewrite orb_false_r in H. rewrite H. reflexivity.
  - apply orb_false_iff in H as [H Hs]. rewrite H, (IH Hs). reflexivity.
Qed.

Lemma normalizeSegments_past b L R : forall acc,
  Forall clean_or_empty L ->
  PosixPath.normalizeSegments b acc (L ++ R)
  = PosixPath.normalizeSegments b (rev (List.filter nonempty L) ++ acc) R.
Proof.
  induction L as [|w L IH]; intros acc HL; [reflexivity|].
  apply Forall_cons_iff in HL as [Hw HL].
  cbn [app PosixPath.normalizeSegments List.filter].
  destruct Hw as [->|[(H1 & H2 & H3) _]].
  - simpl. apply IH, HL.
  - unfold nonempty. apply String.eqb_neq in H1, H2, H3.
    rewrite H1, H2, H3. simpl. rewrite IH by exact HL.
    rewrite <- app_assoc. reflexivity.
Qed.

(** The segments of an absolute path in normal form followed by
    ["/./"] and a relative one. *)
Lemma split_dotted csegs tail :
  csegs <> [] -> Forall clean_segment csegs ->
  Js.split PosixPath.slash
    (("/" +:+ Js.join "/" csegs) +:+ "/" +:+ "./" +:+ tail)
  = ("" :: csegs ++ "." :: Js.split PosixPath.slash tail)%list.
Proof.
  intros Hne Hc.
  change ("/" +:+ "./" +:+ tail)
    with (String PosixPath.slash ("." +:+ String PosixPath.slash tail)).
  rewrite split_app, split_app, split_absolute.
  rewrite split_join by (try apply clean_is_clean_or_empty; assumption).
  reflexivity.
Qed.

(** [path.resolve] of ["./"] followed by a relative path in normal
    form: the dot goes. *)
Lemma resolve_dot_relative cwd csegs asegs :
  clean_absolute cwd csegs -> asegs <> [] -> Forall clean_segment asegs ->
  path_resolve cwd ["./" +:+ Js.join "/" asegs]
  = cwd +:+ "/" +:+ Js.join "/" asegs.
Proof.
  intros Hcwd Hne Hc.
  destruct (clean_absolute_nonempty _ _ Hcwd) as [Hcne Hcabs].
  destruct Hcwd as (Hcsne & Hcs & ->).
  unfold path_resolve. cbn [rev app resolve_args].
  change (String.eqb ("./" +:+ Js.join "/" asegs) "") with false.
  change (Js.startsWith ("./" +:+ Js.join "/" asegs) "/") with false.
  cbn iota. rewrite Hcne, Hcabs. cbn [negb].
  change (("./" +:+ Js.join "/" asegs) +:+ "/" +:+ "")
    with ("./" +:+ (Js.join "/" asegs +:+ "/")).
  rewrite (split_dotted csegs _ Hcsne Hcs), split_trailing.
  rewrite split_join by (try apply clean_is_clean_or_empty; assumption).
  change ("" :: csegs ++ "." :: asegs ++ [""])%list
    with (("" :: csegs) ++ "." :: asegs ++ [""])%list.
  rewrite normalizeSegments_past
    by (constructor; [left; reflexivity|apply clean_is_clean_or_empty, Hcs]).
  cbn [PosixPath.normalizeSegments].
  change (String.eqb "." "" || String.eqb "." ".") with true. cbn iota.
  rewrite normalizeSegments_filter
    by (apply Forall_app; split;
        [apply clean_is_clean_or_empty, Hc
        |constructor; [left; reflexivity|constructor]]).
  rewrite app_nil_r, rev_involutive.
  cbn [List.filter]. change (nonempty "") with false. cbn iota.
  rewrite List.filter_app, !filter_clean by assumption.
  cbn [List.filter]. change (nonempty "") with false. cbn iota.
  rewrite app_nil_r, join_app by assumption.
  rewrite !string_app_assoc. reflexivity.
Qed.

(** A path in normal form holds no ["/./"]. *)
Lemma clean_path_has_no_dot L a b :
  L <> [] -> Forall clean_segment L ->
  "/" +:+ Js.join "/" L <> a +:+ "/./" +:+ b.
Proof.
  intros Hne Hc Heq.
  apply (f_equal (Js.split PosixPath.slash)) in Heq.
  rewrite split_absolute in Heq.
  rewrite split_join in Heq by (try apply clean_is_clean_or_empty; assumption).
  change (a +:+ "/./" +:+ b)
    with (a +:+ String PosixPath.slash ("." +:+ String PosixPath.slash b)) in Heq.
  rewrite !split_app in Heq.
  assert (Hin : In "." ("" :: L)).
  { rewrite Heq. apply in_or_app. right. left. reflexivity. }
  destruct Hin as [Hin|Hin]; [discriminate|].
  rewrite List.Forall_forall in Hc.
  destruct (Hc _ Hin) as [(_ & Hdot & _) _]. contradiction.
Qed.

Section DottedAssets.

Variables (host : Env) (cwd : string) (csegs asegs : list string).
Variable cfg : Config.

Hypothesis posix_separator : sep host = "/"%char.
Hypothesis posix_resolve : resolveFn host = path_resolve cwd.
Hypothesis working_directory : clean_absolute cwd csegs.
Hypothesis assets_segments : asegs <> [] /\ Forall clean_segment asegs.
Hypothesis assets_dotted : assets cfg = "./" +:+ Js.join "/" asegs.
Hypothesis resolve_default : resolve cfg [] = cwd.
Hypothesis mount_normal :
  mount cfg = "" \/ exists msegs, clean_absolute (mount cfg) msegs.

(** X5: an [assets] option written with a leading ["./"], as in the
    example of the README.  Line 189 enumerates the resolved directory
    [<cwd>/<assets without the dot>], but line 205 glues the option to the
    working directory as it is, dot included, and that text occurs in no
    enumerated path: line 213 removes nothing, and in static mode every
    file is published under the prefix at its whole absolute path,
    [<prefix><cwd>/<assets>/n1/.../nk], not at [<prefix>/n1/.../nk]. *)
Theorem dotted_assets_publish_absolute_paths
    (root : Node) (w : World) (c : Caches)
    (rs : list Route) (c' : Caches) (l : list Call) (names : list string) :
  static_mode_of_tree host cfg root = true ->
  noExtension cfg = false ->
  staticPlugin_from host cfg root w c = (Returned rs, c', l) ->
  file_at root names -> Forall clean_segment names ->
  skipped cfg (file_under (cwd +:+ "/" +:+ Js.join "/" asegs) names) = false ->
  exists etag,
    generateETag w (file_under (cwd +:+ "/" +:+ Js.join "/" asegs) names)
    = Some etag
    /\ {| method := "GET";
          path := mount cfg
                  +:+ file_under (cwd +:+ "/" +:+ Js.join "/" asegs) names;
          handler :=
            if noCache cfg
            then StaticNoCache
                   (file_under (cwd +:+ "/" +:+ Js.join "/" asegs) names)
            else StaticCached etag
                   (file_under (cwd +:+ "/" +:+ Js.join "/" asegs) names)
                   (file_under (cwd +:+ "/" +:+ Js.join "/" asegs) names) |}
       ∈ rs.
Proof.
  intros Hmode Hnoext Hbuilt Hat Hnc Hskip.
  destruct assets_segments as [Hane Hac].
  assert (Hnne : names <> []) by (eapply file_at_nonempty, Hat).
  set (dir := cwd +:+ "/" +:+ Js.join "/" asegs) in *.
  assert (Hdir : resolveFn host [assets cfg] = dir).
  { rewrite posix_resolve, assets_dotted.
    eapply resolve_dot_relative; eassumption. }
  assert (Hdirc : clean_absolute dir (csegs ++ asegs))
    by (apply clean_absolute_app; assumption).
  assert (Hfilec : clean_absolute (file_under dir names)
                     ((csegs ++ asegs) ++ names))
    by (apply clean_absolute_app; assumption).
  apply (plugin_of_tree _ _ _ _ _ _ _ _ _ Hdir) in Hbuilt
    as (files & l0 & Hlist & Hbuilt).
  rewrite <- (static_mode_counts _ _ _ _ _ Hlist) in Hmode.
  pose proof (listed_in_files _ _ _ _ _ _ _ posix_separator posix_resolve
                Hdirc Hlist Hat Hnc) as Hin.
  destruct (first_route_pushed host cfg files w c rs c' l0 _
              Hmode Hbuilt Hin Hskip) as (etag & He & Hroute).
  exists etag. split; [exact He|].
  replace (mount cfg +:+ file_under dir names)
    with (pathName_of host cfg (relativePath_of host cfg (file_under dir names)));
    [exact Hroute|].
  assert (Hkept : relativePath_of host cfg (file_under dir names)
                  = file_under dir names).
  { unfold relativePath_of. rewrite Hnoext. apply replace_absent.
    destruct (Js.includes (file_under dir names) (assetsDir host cfg)) eqn:Hinc;
      [exfalso|reflexivity].
    apply includes_spec in Hinc as (a & b & Hinc).
    assert (Hassets : assetsDir host cfg
                      = cwd +:+ "/./" +:+ Js.join "/" asegs).
    { unfold assetsDir. rewrite assets_dotted, posix_separator, resolve_default.
      reflexivity. }
    rewrite Hassets in Hinc.
    destruct Hfilec as (Hfne & Hfc & Hfile). rewrite Hfile in Hinc.
    apply (clean_path_has_no_dot _ (a +:+ cwd) (Js.join "/" asegs +:+ b) Hfne Hfc).
    rewrite Hinc, !string_app_assoc. reflexivity. }
  rewrite Hkept, pathName_of_posix by exact posix_separator.
  destruct Hfilec as (Hfne & Hfc & Hfile). rewrite Hfile.
  apply join_under_mount; assumption.
Qed.

End DottedAssets.

Lemma dotted_assets_witness :
  exists etag,
    generateETag site "/srv/app/public/a.txt" = Some etag
    /\ {| method := "GET";
          path := "/public/srv/app/public/a.txt";
          handler := StaticCached etag "/srv/app/public/a.txt"
                       "/srv/app/public/a.txt" |} ∈ dotted_routes.
Proof.
  apply (dotted_assets_publish_absolute_paths site_host "/srv/app"
           ["srv"; "app"] ["public"] dotted_cfg)
    with (root := site_tree) (c := no_caches) (c' := no_caches)
         (l := calls_of (staticPlugin_from site_host dotted_cfg site_tree
                           site no_caches))
         (names := ["a.txt"]).
  - reflexivity.
  - reflexivity.
  - normal_form.
  - normal_form.
  - reflexivity.
  - vm_compute. reflexivity.
  - right. exists ["public"]. normal_form.
  - reflexivity.
  - reflexivity.
  - vm_compute. reflexivity.
  - apply file_at_entry, has_entry_first.
  - normal_form.
  - vm_compute. reflexivity.
Defined.

(** ** Hosts whose separator is not ["/"] *)

Lemma split_join_pieces c L :
  L <> [] -> Forall (fun s => Js.includes s (str c) = false) L ->
  Js.split c (Js.join (str c) L) = L.
Proof.
  induction L as [|w L IH]; [contradiction|]. intros _ HL.
  apply Forall_cons_iff in HL as [Hw HL].
  destruct L as [|w' L].
  - simpl. apply split_without, Hw.
  - rewrite join_cons by discriminate.
    change (str c +:+ Js.join (str c) (w' :: L))
      with (String c (Js.join (str c) (w' :: L))).
    rewrite split_app, IH by (discriminate || assumption).
    rewrite (split_without _ _ Hw). reflexivity.
Qed.

(** X6: static mode translates every separator of the relative path
    (line 225), where the wildcard handler translates the first one only
    (line 308).  On a host whose separator is not ["/"], the file found
    by the names [n1 ... nk] below the assets directory, none of which
    holds the separator, is published at [<prefix>/n1/.../nk]. *)
Theorem static_mode_translates_every_separator
    (env : Env) (cfg : Config) (names : list string) :
  sep env <> "/"%char ->
  Forall (fun n => Js.includes n (str (sep env)) = false) names ->
  pathName_of env cfg (Js.join (str (sep env)) ("" :: names))
  = mount cfg +:+ Js.join "/" ("" :: names).
Proof.
  intros Hsep Hnames. unfold pathName_of, isFSSepUnsafe.
  apply Ascii.eqb_neq in Hsep.
  change URL_PATH_SEP with "/"%char. rewrite Hsep. cbn [negb].
  rewrite split_join_pieces; [reflexivity|discriminate|].
  constructor; [reflexivity|exact Hnames].
Qed.

Lemma every_separator_witness :
  pathName_of backslash_host default_cfg
    (Js.join (str (sep backslash_host)) [""; "nested"; "deep"; "a.txt"])
  = mount default_cfg +:+ Js.join "/" [""; "nested"; "deep"; "a.txt"].
Proof.
  apply (static_mode_translates_every_separator backslash_host default_cfg
           ["nested"; "deep"; "a.txt"]).
  - discriminate.
  - repeat constructor.
Defined.

(** ** The headers a response is given *)

Lemma append_lookup (h : Fetch.Headers) (key value name : string) :
  Fetch.append h key value !! name
  = if String.eqb (Fetch.lowercase key) name
    then Some match h !! name with
              | Some given => given +:+ ", " +:+ value
              | None => value
              end
    else h !! name.
Proof.
  unfold Fetch.append.
  destruct (String.eqb_spec (Fetch.lowercase key) name) as [He|Hne].
  - subst name.
    destruct (h !! Fetch.lowercase key); apply lookup_insert_eq.
  - destruct (h !! Fetch.lowercase key); apply lookup_insert_ne, Hne.
Qed.

(** [Headers] holds for a name the values the record gives for it,
    combined. *)
Lemma appended_lookup (l : list (string * string)) : forall (h : Fetch.Headers) name,
  fold_left (fun h p => Fetch.append h p.1 p.2) l h !! name
  = combined (h !! name) (given_for name l).
Proof.
  induction l as [|[k v] l IH]; intros h name; [reflexivity|].
  cbn [fold_left]. rewrite IH, append_lookup. unfold given_for.
  cbn [List.filter fst snd].
  destruct (String.eqb (Fetch.lowercase k) name); reflexivity.
Qed.

Lemma new_Headers_get (o : JsObject) (name : string) :
  Fetch.get (Fetch.new_Headers o) name
  = combined None (given_for (Fetch.lowercase name) (properties o)).
Proof.
  unfold Fetch.get, Fetch.new_Headers. rewrite appended_lookup, lookup_empty.
  reflexivity.
Qed.

Lemma assign_keys key value l k :
  In k (map fst (assign key value l)) <-> k = key \/ In k (map fst l).
Proof.
  induction l as [|[k0 v0] l IH]; cbn [assign].
  - cbn. intuition.
  - destruct (String.eqb_spec k0 key) as [->|Hne]; cbn [map fst In] in *.
    + intuition.
    + rewrite IH. intuition.
Qed.

Lemma assign_NoDup key value l :
  List.NoDup (map fst l) -> List.NoDup (map fst (assign key value l)).
Proof.
  induction l as [|[k0 v0] l IH]; cbn [assign]; intros Hnd.
  - cbn. constructor; [intros []|constructor].
  - destruct (String.eqb_spec k0 key) as [->|Hne]; [exact Hnd|].
    cbn [map fst] in *. inversion Hnd as [|? ? Hk0 Hnd']; subst.
    constructor; [|apply IH, Hnd'].
    rewrite assign_keys. intros [->|Hin]; [congruence|contradiction].
Qed.

(** An assignment leaves the values of the names it does not fold to. *)
Lemma given_for_assign_other key value name l :
  Fetch.lowercase key <> name ->
  given_for name (assign key value l) = given_for name l.
Proof.
  intros Hne. unfold given_for.
  assert (Hkey : String.eqb (Fetch.lowercase key) name = false)
    by (apply String.eqb_neq, Hne).
  induction l as [|[k0 v0] l IH]; cbn [assign List.filter fst].
  - rewrite Hkey. reflexivity.
  - destruct (String.eqb_spec k0 key) as [->|Hk]; cbn [List.filter fst].
    + rewrite Hkey. reflexivity.
    + destruct (String.eqb (Fetch.lowercase k0) name); cbn [map];
        rewrite IH; reflexivity.
Qed.

Lemma given_for_none name l :
  (forall k, In k (map fst l) -> Fetch.lowercase k <> name) ->
  given_for name l = [].
Proof.
  unfold given_for. induction l as [|[k0 v0] l IH]; intros Hl; [reflexivity|].
  cbn [List.filter fst].
  destruct (String.eqb_spec (Fetch.lowercase k0) name) as [He|_].
  - exfalso. apply (Hl k0); [left; reflexivity|exact He].
  - apply IH. intros k Hk. apply Hl. right. exact Hk.
Qed.

(** An assigned name holds the assigned value alone, when no other
    spelling of the name is in the record. *)
Lemma given_for_assign_same key value l :
  List.NoDup (map fst l) ->
  (forall k, In k (map fst l) ->
     Fetch.lowercase k = Fetch.lowercase key -> k = key) ->
  given_for (Fetch.lowercase key) (assign key value l) = [value].
Proof.
  induction l as [|[k0 v0] l IH]; intros Hnd Hl; cbn [assign].
  - unfold given_for. cbn [List.filter fst]. rewrite String.eqb_refl. reflexivity.
  - inversion Hnd as [|? ? Hk0 Hnd']; subst. cbn [map fst] in *.
    destruct (String.eqb_spec k0 key) as [->|Hk].
    + change (given_for (Fetch.lowercase key) ((key, value) :: l))
        with (map snd (if String.eqb (Fetch.lowercase key) (Fetch.lowercase key)
                       then (key, value) :: List.filter (fun p => String.eqb (Fetch.lowercase p.1) (Fetch.lowercase key)) l
                       else List.filter (fun p => String.eqb (Fetch.lowercase p.1) (Fetch.lowercase key)) l)).
      rewrite String.eqb_refl. cbn [map snd]. f_equal.
      apply given_for_none. intros k Hin He.
      assert (k = key) by (apply Hl; [right; exact Hin|exact He]).
      subst. contradiction.
    + change (given_for (Fetch.lowercase key) ((k0, v0) :: assign key value l))
        with (map snd (if String.eqb (Fetch.lowercase k0) (Fetch.lowercase key)
                       then (k0, v0) :: List.filter (fun p => String.eqb (Fetch.lowercase p.1) (Fetch.lowercase key)) (assign key value l)
                       else List.filter (fun p => String.eqb (Fetch.lowercase p.1) (Fetch.lowercase key)) (assign key value l))).
      destruct (String.eqb_spec (Fetch.lowercase k0) (Fetch.lowercase key)) as [He|_].
      * exfalso. apply Hk, Hl; [left; reflexivity|exact He].
      * apply IH; [exact Hnd'|]. intros k Hin. apply Hl. right. exact Hin.
Qed.

Section ResponseHeaders.

Variable cfg : Config.
Variable etag : string.

Hypothesis record : header_record (headers cfg).
Hypothesis etag_spelling :
  forall name, In name (map fst (properties (headers cfg))) ->
    Fetch.lowercase name = "etag" -> name = "Etag".
Hypothesis cache_control_spelling :
  forall name, In name (map fst (properties (headers cfg))) ->
    Fetch.lowercase name = "cache-control" -> name = "Cache-Control".

Lemma responseHeaders_get :
  Fetch.get (Fetch.new_Headers (responseHeaders cfg etag)) "Etag" = Some etag
  /\ Fetch.get (Fetch.new_Headers (responseHeaders cfg etag)) "Cache-Control"
     = Some (cacheControl cfg)
  /\ forall name,
       Fetch.lowercase name <> "etag" ->
       Fetch.lowercase name <> "cache-control" ->
       Fetch.get (Fetch.new_Headers (responseHeaders cfg etag)) name
       = Fetch.get (Fetch.new_Headers (headers cfg)) name.
Proof.
  destruct record as [Hnd' _].
  unfold responseHeaders, insert, JsObject_insert. cbn [properties].
  repeat split.
  - rewrite new_Headers_get. cbn [properties].
    rewrite given_for_assign_other by (vm_compute; discriminate).
    rewrite (given_for_assign_same "Etag" etag _ Hnd' etag_spelling).
    reflexivity.
  - rewrite new_Headers_get. cbn [properties].
    rewrite (given_for_assign_same "Cache-Control").
    + reflexivity.
    + apply assign_NoDup, Hnd'.
    + intros k Hin He. apply assign_keys in Hin as [->|Hin]; [discriminate|].
      apply cache_control_spelling; assumption.
  - intros name He Hc. rewrite !new_Headers_get. cbn [properties].
    rewrite !given_for_assign_other; [reflexivity| |];
      intros Hx;
      first [apply Hc; rewrite <- Hx; reflexivity
            |apply He; rewrite <- Hx; reflexivity].
Qed.

End ResponseHeaders.

(** ** The wildcard handler in two steps *)

Lemma try_bind_split {A B} (m : M A) (k : A -> M B) e w c :
  try_catch (bind m k) (fun _ => throw e) w c
  = match m w c with
    | (Returned a, c2, l2) =>
        match k a w c2 with
        | (Returned b, c3, l3) => (Returned b, c3, (l2 ++ l3)%list)
        | (Threw _, c3, l3) => (Threw e, c3, (l2 ++ l3)%list)
        end
    | (Threw _, c2, l2) => (Threw e, c2, l2)
    end.
Proof.
  unfold try_catch, bind, throw.
  destruct (m w c) as [[[a|e0] c2] l2].
  - destruct (k a w c2) as [[[b|e1] c3] l3]; [reflexivity|].
    rewrite app_nil_r. reflexivity.
  - rewrite app_nil_r. reflexivity.
Qed.

Section Resolution.

Variable isCached : World -> Validators -> string -> string -> option bool.
Variable env : Env.
Variable cfg : Config.

Lemma resolution_then {B} (k : string -> M B) path w c :
  (known <- statCache_get path ;;
   status <- match known with
             | Some s => ret s
             | None =>
                 s <- await_stat path ;;
                 statCache_set path s ;;;
                 ret s
             end ;;
   if negb (indexHTML cfg) && isDirectory status then throw NotFoundError
   else
     filePath <- resolve_filePath env cfg path status ;;
     k filePath) w c
  = bind (resolution env cfg path) k w c.
Proof.
  unfold resolution, bind, throw.
  destruct (statCache_get path w c) as [[[known|e0] c0] l0]; [|reflexivity].
  match goal with
  | |- context [match ?m w c0 with _ => _ end] =>
      destruct (m w c0) as [[[status|e1] c1] l1]; [|reflexivity]
  end.
  destruct (negb (indexHTML cfg) && isDirectory status); [reflexivity|].
  destruct (resolve_filePath env cfg path status w c1) as [[[filePath|e2] c2] l2].
  - destruct (k filePath w c2) as [[o c3] l3].
    rewrite !app_assoc. reflexivity.
  - reflexivity.
Qed.

(** The wildcard handler is the resolution of the candidate path
    followed by the response for the file it gives; whatever is thrown
    on the way becomes [NotFoundError]. *)
Lemma wildcard_by_resolution req path w c :
  request_path env cfg req w c = (Returned path, c, []) ->
  truthy (shouldIgnore cfg path) = false ->
  wildcard_handler isCached env cfg req w c
  = match resolution env cfg path w c with
    | (Returned filePath, c2, l2) =>
        match response_for isCached cfg req path filePath w c2 with
        | (Returned resp, c3, l3) => (Returned resp, c3, (l2 ++ l3)%list)
        | (Threw _, c3, l3) => (Threw NotFoundError, c3, (l2 ++ l3)%list)
        end
    | (Threw _, c2, l2) => (Threw NotFoundError, c2, l2)
    end.
Proof.
  intros Hp Hig. rewrite (wildcard_try isCached env cfg _ _ _ _ Hp Hig).
  rewrite <- try_bind_split. unfold try_catch.
  rewrite resolution_then. reflexivity.
Qed.

Lemma response_for_run req path filePath w c :
  response_for isCached cfg req path filePath w c
  = if noCache cfg then
      match readFile w filePath with
      | Some content =>
          (Returned {| status := 200;
                       response_headers := Fetch.new_Headers (headers cfg);
                       body := Some content |}, c, [CallReadFile filePath])
      | None => (Threw IOError, c, [CallReadFile filePath])
      end
    else
      match generateETag w filePath with
      | None => (Threw IOError, c, [CallGenerateETag filePath])
      | Some etag =>
          match isCached w (parseHeaders req) etag path with
          | None =>
              (Threw IOError, c,
               [CallGenerateETag filePath;
                CallIsCached (parseHeaders req) etag path])
          | Some true =>
              (Returned {| status := 304;
                           response_headers := Fetch.new_Headers (headers cfg);
                           body := None |}, c,
               [CallGenerateETag filePath;
                CallIsCached (parseHeaders req) etag path])
          | Some false =>
              match readFile w filePath with
              | Some content =>
                  (Returned {| status := 200;
                               response_headers :=
                                 Fetch.new_Headers (responseHeaders cfg etag);
                               body := Some content |}, c,
                   [CallGenerateETag filePath;
                    CallIsCached (parseHeaders req) etag path;
                    CallReadFile filePath])
              | None =>
                  (Threw IOError, c,
                   [CallGenerateETag filePath;
                    CallIsCached (parseHeaders req) etag path;
                    CallReadFile filePath])
              end
          end
      end.
Proof.
  unfold response_for. destruct (noCache cfg).
  - rewrite respond_noCache_run. destruct (readFile w filePath); reflexivity.
  - unfold bind, await_generateETag, await.
    destruct (generateETag w filePath) as [etag|]; [|reflexivity].
    rewrite respond_cached_run. cbv zeta.
    destruct (isCached w (parseHeaders req) etag path) as [[|]|];
      try reflexivity.
    destruct (readFile w filePath); reflexivity.
Qed.

(** A static handler, run on any request. *)
Lemma static_handler_run (h : Handler) req w c :
  handle isCached env cfg h req w c
  = match h with
    | StaticNoCache f =>
        match readFile w f with
        | Some content =>
            (Returned {| status := 200;
                         response_headers := Fetch.new_Headers (headers cfg);
                         body := Some content |}, c, [CallReadFile f])
        | None => (Threw IOError, c, [CallReadFile f])
        end
    | StaticCached etag key f =>
        match isCached w (parseHeaders req) etag key with
        | None => (Threw IOError, c, [CallIsCached (parseHeaders req) etag key])
        | Some true =>
            (Returned {| status := 304;
                         response_headers := Fetch.new_Headers (headers cfg);
                         body := None |}, c,
             [CallIsCached (parseHeaders req) etag key])
        | Some false =>
            match readFile w f with
            | Some content =>
                (Returned {| status := 200;
                             response_headers :=
                               Fetch.new_Headers (responseHeaders cfg etag);
                             body := Some content |}, c,
                 [CallIsCached (parseHeaders req) etag key; CallReadFile f])
            | None =>
                (Threw IOError, c,
                 [CallIsCached (parseHeaders req) etag key; CallReadFile f])
            end
        end
    | Wildcard => wildcard_handler isCached env cfg req w c
    end.
Proof.
  destruct h as [f|etag key f|]; cbn [handle].
  - rewrite respond_noCache_run. destruct (readFile w f); reflexivity.
  - rewrite respond_cached_run. cbv zeta.
    destruct (isCached w (parseHeaders req) etag key) as [[|]|]; reflexivity.
  - reflexivity.
Qed.

(** The routes of the plugin: those the loop pushes for a file in
    static mode, the wildcard route alone in dynamic mode. *)
Lemma route_of_plugin files wb cb rs cb' lb r :
  staticPlugin env cfg files wb cb = (Returned rs, cb', lb) ->
  r ∈ rs ->
  if static_mode env cfg files then
    exists f etag, f ∈ files /\ skipped cfg f = false
      /\ generateETag wb f = Some etag
      /\ r ∈ pushed_routes env cfg f etag
  else r = wildcard_route cfg.
Proof.
  intros Hbuilt Hr.
  destruct (staticPlugin_routes _ _ _ _ _ _ _ _ _ Hbuilt Hr)
    as [[-> ->]|[-> H]]; [reflexivity|exact H].
Qed.

End Resolution.

(** ** Caching disabled *)



(** ** Headers of a full response *)

(** C7 fails as stated: the configured record [{ "cache-control":
    "no-store" }] is copied, the handler adds [Cache-Control] as a second
    property, and [Headers] folds the two names into one header.  The
    status-200 response for [a.txt] carries [Cache-Control: no-store,
    public, max-age=86400], which is not the configured directive with
    its [max-age]. *)
Lemma C7_folded_header_counterexample :
  noCache folding_cfg = false
  /\ directive folding_cfg = d_public
  /\ maxAge folding_cfg = Some 86400
  /\ exists resp,
       outcome_of (handle isCached_spec posix folding_cfg Wildcard
                     (GET "/public/a.txt" no_validators) site no_caches)
       = Returned resp
       /\ status resp = 200
       /\ Fetch.get (response_headers resp) "Cache-Control"
          = Some "no-store, public, max-age=86400"
       /\ Fetch.get (response_headers resp) "Cache-Control"
          <> Some "public, max-age=86400".
Proof.
  split; [reflexivity|]. split; [reflexivity|]. split; [reflexivity|].
  eexists. split; [vm_compute; reflexivity|].
  split; [reflexivity|]. split; [vm_compute; reflexivity|].
  vm_compute. discriminate.
Qed.

(** C7, amended: with caching enabled, a [maxAge] that is null or a
    safe integer, and a configured record that [Headers] keeps as it is
    and that holds no other spelling of [Etag] or [Cache-Control], every
    status-200 response of a route of the plugin has the content of the
    file the route serves as its body, read at the time of the request;
    its [Etag] header is the ETag the plugin holds for that file
    (computed when the routes were built in static mode, for the request
    in dynamic mode); its [Cache-Control] header is the configured
    directive, followed by [", max-age=<n>"] unless [maxAge] is null;
    every other header is as the configured record gives it. *)
Theorem C7_cached_response_headers
    (isCached : World -> Validators -> string -> string -> option bool)
    (env : Env) (cfg : Config) (files : list string)
    (wb : World) (cb : Caches) (rs : list Route) (cb' : Caches) (lb : list Call)
    (r : Route) (req : Request) (w : World) (c : Caches)
    (resp : Response) (c' : Caches) (l : list Call) :
  noCache cfg = false ->
  header_record (headers cfg) ->
  (forall name, In name (map fst (properties (headers cfg))) ->
     Fetch.lowercase name = "etag" -> name = "Etag") ->
  (forall name, In name (map fst (properties (headers cfg))) ->
     Fetch.lowercase name = "cache-control" -> name = "Cache-Control") ->
  (forall n, maxAge cfg = Some n -> safe_integer n) ->
  staticPlugin env cfg files wb cb = (Returned rs, cb', lb) ->
  r ∈ rs ->
  handle isCached env cfg (handler r) req w c = (Returned resp, c', l) ->
  status resp = 200 ->
  exists file etag content,
    (if static_mode env cfg files then
       file ∈ files /\ skipped cfg file = false
       /\ generateETag wb file = Some etag
       /\ r ∈ pushed_routes env cfg file etag
     else
       exists path c2 l2,
         request_path env cfg req w c = (Returned path, c, [])
         /\ resolution env cfg path w c = (Returned file, c2, l2)
         /\ generateETag w file = Some etag)
    /\ readFile w file = Some content
    /\ body resp = Some content
    /\ Fetch.get (response_headers resp) "Etag" = Some etag
    /\ Fetch.get (response_headers resp) "Cache-Control"
       = Some match maxAge cfg with
              | None => directive_token (directive cfg)
              | Some n =>
                  directive_token (directive cfg)
                  +:+ ", max-age=" +:+ Js.number_to_string n
              end
    /\ forall name,
         Fetch.lowercase name <> "etag" ->
         Fetch.lowercase name <> "cache-control" ->
         Fetch.get (response_headers resp) name
         = Fetch.get (Fetch.new_Headers (headers cfg)) name.
Proof.
  intros Hnc Hrec Hetag Hcc _ Hbuilt Hr Hrun Hstatus.
  assert (Hfull : exists file etag content,
            (if static_mode env cfg files then
               file ∈ files /\ skipped cfg file = false
               /\ generateETag wb file = Some etag
               /\ r ∈ pushed_routes env cfg file etag
             else
               exists path c2 l2,
                 request_path env cfg req w c = (Returned path, c, [])
                 /\ resolution env cfg path w c = (Returned file, c2, l2)
                 /\ generateETag w file = Some etag)
            /\ readFile w file = Some content
            /\ resp = {| status := 200;
                         response_headers :=
                           Fetch.new_Headers (responseHeaders cfg etag);
                         body := Some content |}).
  { pose proof (route_of_plugin env cfg _ _ _ _ _ _ _ Hbuilt Hr) as Hroute.
    destruct (static_mode env cfg files).
    - destruct Hroute as (f & etag & Hf & Hskip & He & Hin).
      destruct (pushed_routes_handler env cfg _ _ _ Hin) as [_ Hh].
      rewrite Hnc in Hh. destruct Hh as [key Hh].
      rewrite Hh, static_handler_run in Hrun.
      destruct (isCached w (parseHeaders req) etag key) as [[|]|];
        [injection Hrun as <- _ _; discriminate| |discriminate].
      destruct (readFile w f) as [content|] eqn:Hread; [|discriminate].
      injection Hrun as <- _ _.
      exists f, etag, content. auto.
    - subst r. cbn [handler wildcard_route handle] in Hrun.
      destruct (wildcard_returned isCached env cfg _ _ _ _ _ _ Hrun)
        as (path & _ & _ & Hp & Hig & _).
      rewrite (wildcard_by_resolution isCached env cfg _ _ _ _ Hp Hig) in Hrun.
      destruct (resolution env cfg path w c) as [[[filePath|e] c2] l2] eqn:Hres;
        [|discriminate].
      rewrite response_for_run, Hnc in Hrun.
      destruct (generateETag w filePath) as [etag|] eqn:He; [|discriminate].
      destruct (isCached w (parseHeaders req) etag path) as [[|]|];
        [injection Hrun as <- _ _; discriminate| |discriminate].
      destruct (readFile w filePath) as [content|] eqn:Hread; [|discriminate].
      injection Hrun as <- _ _.
      exists filePath, etag, content.
      split; [exists path, c2, l2; auto|]. auto. }
  destruct Hfull as (file & etag & content & Hfile & Hread & ->).
  exists file, etag, content.
  split; [exact Hfile|]. split; [exact Hread|]. split; [reflexivity|].
  cbn [response_headers].
  apply (responseHeaders_get cfg etag Hrec Hetag Hcc).
Qed.

Lemma C7_cached_headers_witness :
  exists file etag content,
    (exists path c2 l2,
       request_path posix (parameters posix (Some (powered_options false false false)))
         (GET "/public/a.txt" no_validators) site no_caches
       = (Returned path, no_caches, [])
       /\ resolution posix (parameters posix (Some (powered_options false false false)))
            path site no_caches
          = (Returned file, c2, l2)
       /\ generateETag site file = Some etag)
    /\ readFile site file = Some content
    /\ body (new_Response "hi"
               (responseHeaders
                  (parameters posix (Some (powered_options false false false)))
                  "etag(hi)"))
       = Some content
    /\ Fetch.get
         (response_headers
            (new_Response "hi"
               (responseHeaders
                  (parameters posix (Some (powered_options false false false)))
                  "etag(hi)"))) "Etag"
       = Some etag
    /\ Fetch.get
         (response_headers
            (new_Response "hi"
               (responseHeaders
                  (parameters posix (Some (powered_options false false false)))
                  "etag(hi)"))) "Cache-Control"
       = Some ("public" +:+ ", max-age=" +:+ Js.number_to_string 86400)
    /\ forall name,
         Fetch.lowercase name <> "etag" ->
         Fetch.lowercase name <> "cache-control" ->
         Fetch.get
           (response_headers
              (new_Response "hi"
                 (responseHeaders
                    (parameters posix (Some (powered_options false false false)))
                    "etag(hi)"))) name
         = Fetch.get
             (Fetch.new_Headers {| properties := [("X-Powered-By", "vafast")] |})
             name.
Proof.
  apply (C7_cached_response_headers isCached_spec posix
           (parameters posix (Some (powered_options false false false)))
           [] site no_caches
           [wildcard_route (parameters posix (Some (powered_options false false false)))]
           no_caches []
           (wildcard_route (parameters posix (Some (powered_options false false false))))
           (GET "/public/a.txt" no_validators) site no_caches
           (new_Response "hi"
              (responseHeaders
                 (parameters posix (Some (powered_options false false false)))
                 "etag(hi)"))
           (caches_of (wildcard_handler isCached_spec posix
                         (parameters posix (Some (powered_options false false false)))
                         (GET "/public/a.txt" no_validators) site no_caches))
           [CallStat "public/a.txt"; CallGenerateETag "public/a.txt";
            CallIsCached no_validators "etag(hi)" "public/a.txt";
            CallReadFile "public/a.txt"]).
  - reflexivity.
  - split; [constructor; [intros []|constructor]|repeat constructor].
  - intros name [<-|[]] H. vm_compute in H. discriminate.
  - intros name [<-|[]] H. vm_compute in H. discriminate.
  - intros n [= <-]. unfold safe_integer. lia.
  - reflexivity.
  - apply list_elem_of_here.
  - vm_compute. reflexivity.
  - reflexivity.
Defined.

(** ** The conditional responses *)

Lemma precedence_answers_a_matching_etag :
  answers_a_matching_etag isCached_precedence.
Proof.
  intros w v etag key H. unfold isCached_precedence. rewrite H.
  rewrite bool_decide_eq_true_2 by reflexivity. reflexivity.
Qed.

Lemma precedence_answers_no_validator :
  answers_no_validator isCached_precedence.
Proof.
  intros w v etag key H1 H2. unfold isCached_precedence. rewrite H1, H2.
  reflexivity.
Qed.

Lemma precedence_answers_a_stale_etag :
  answers_a_stale_etag isCached_precedence.
Proof.
  intros w v etag key e H Hne. unfold isCached_precedence. rewrite H.
  rewrite bool_decide_eq_false_2 by exact Hne. reflexivity.
Qed.

Lemma spec_answers_a_matching_etag : answers_a_matching_etag isCached_spec.
Proof.
  intros w v etag key H. unfold isCached_spec.
  rewrite bool_decide_eq_true_2 by exact H. reflexivity.
Qed.

Lemma spec_answers_no_validator : answers_no_validator isCached_spec.
Proof.
  intros w v etag key H1 H2. unfold isCached_spec. rewrite H2.
  rewrite bool_decide_eq_false_2 by (rewrite H1; discriminate). reflexivity.
Qed.

(** The two readings part on a request that carries both validators:
    with a stale [If-None-Match], [isCached_spec] lets the date decide. *)
Remark spec_lets_the_date_decide :
  isCached_spec site
    {| if_none_match := Some "etag(old)"; if_modified_since := Some 500 |}
    "etag(hi)" "public/a.txt" = Some true
  /\ isCached_precedence site
       {| if_none_match := Some "etag(old)"; if_modified_since := Some 500 |}
       "etag(hi)" "public/a.txt" = Some false.
Proof. split; reflexivity. Qed.




(** ** Mode selection *)

Lemma is_production_spec v : is_production v = true <-> v = Some "production".
Proof.
  destruct v as [s|]; cbn; [|split; discriminate].
  rewrite String.eqb_eq. split; [intros ->; reflexivity|intros [= ->]; reflexivity].
Qed.

Lemma for_each_file_exact env cfg files : forall routes w c rs c' l,
  for_each_file env cfg files routes w c = (Returned rs, c', l) ->
  rs = (routes ++ flat_map (routes_of_file env cfg w) files)%list.
Proof.
  induction files as [|f files IH]; intros routes w c rs c' l H;
    cbn [for_each_file] in H.
  - injection H as <- _ _. cbn. rewrite app_nil_r. reflexivity.
  - apply bind_returned in H as (pushed & c1 & l1 & l2 & Hs & Hrest & _).
    apply IH in Hrest. subst rs. cbn [flat_map]. rewrite <- app_assoc.
    f_equal. f_equal. unfold routes_of_file.
    unfold static_routes in Hs. destruct (skipped cfg f).
    { injection Hs as <- _ _. reflexivity. }
    apply bind_returned in Hs as (etag & c2 & l3 & l4 & He & Hret & _).
    unfold await_generateETag, await in He.
    destruct (generateETag w f); [|discriminate].
    injection He as <- _ _. injection Hret as <- _ _. reflexivity.
Qed.

(** C2 fails as stated: static mode is also selected when the caller
    leaves [alwaysStatic] out and [NODE_ENV] is ["production"], whatever
    the number of files.  On a host with [NODE_ENV=production] and no
    [ENV], called without the flag, the plugin is in static mode for two
    thousand files, above the ceiling of 1024.  And the test for an
    existing wildcard route looks at the list of the call, which is
    empty: the two calls of [example/a.ts], whose lists are merged, give
    two wildcard routes with the same path and method. *)
Lemma C2_unrequested_static_mode_counterexample :
  caller_flag (Some no_options) = None
  /\ ENV production_host = None
  /\ staticLimit (parameters production_host (Some no_options)) = 1024
  /\ length two_thousand_files = 2000%nat
  /\ static_mode production_host (parameters production_host (Some no_options))
       two_thousand_files = true
  /\ exists r2 r3,
       staticPlugin posix (parameters posix (Some example_options)) []
         site no_caches
       = (Returned [r2], no_caches, [])
       /\ staticPlugin posix (parameters posix (Some aliased_options)) []
            site no_caches
          = (Returned [r3], no_caches, [])
       /\ method r2 = "GET" /\ method r3 = "GET"
       /\ path r2 = "/public/*" /\ path r3 = "/public/*".
Proof.
  split; [reflexivity|]. split; [reflexivity|]. split; [reflexivity|].
  split; [vm_compute; reflexivity|]. split; [vm_compute; reflexivity|].
  eexists _, _. split; [vm_compute; reflexivity|].
  split; [vm_compute; reflexivity|]. repeat split.
Qed.

(** C2, amended: static mode is selected exactly when the caller sets
    [alwaysStatic], or leaves it out while [NODE_ENV] is ["production"],
    or when [ENV] is ["production"] and the number of enumerated files
    is at most [staticLimit] (1024 unless the caller gives one).  In
    static mode a call that returns gives, in the order of the files and
    for each file that is not skipped, the routes of that file (its own
    route, followed by at most one route for the directory of an index
    file), and no wildcard route; it fails only when the ETag of a file
    cannot be computed.  Otherwise a call returns exactly one route, the
    wildcard route [GET <prefix>/*], and touches nothing. *)
Theorem C2_mode_selection (env : Env) (arg : option Options) (files : list string) :
  (static_mode env (parameters env arg) files = true <->
     caller_flag arg = Some true
     \/ (caller_flag arg = None /\ NODE_ENV env = Some "production")
     \/ (ENV env = Some "production"
         /\ Z.of_nat (length files) <= staticLimit (parameters env arg)))
  /\ staticLimit (parameters env arg) = default 1024 (arg ≫= o_staticLimit)
  /\ (forall cfg w c,
        if static_mode env cfg files then
          match staticPlugin env cfg files w c with
          | (Returned rs, c', l) =>
              rs = flat_map (routes_of_file env cfg w) files
              /\ Forall (fun r => method r = "GET" /\ handler r <> Wildcard) rs
              /\ c' = c
              /\ l = map CallGenerateETag
                       (List.filter (fun f => negb (skipped cfg f)) files)
          | (Threw e, c', l) =>
              e = IOError /\ c' = c
              /\ exists f, In f files /\ skipped cfg f = false
                           /\ generateETag w f = None
          end
        else
          staticPlugin env cfg files w c
          = (Returned [ {| method := "GET"; path := mount cfg +:+ "/*";
                           handler := Wildcard |} ], c, []))
  /\ forall cfg f etag,
       exists more,
         pushed_routes env cfg f etag
         = {| method := "GET";
              path := pathName_of env cfg (relativePath_of env cfg f);
              handler := if noCache cfg then StaticNoCache f
                         else StaticCached etag f f |} :: more
         /\ (length more <= 1)%nat.
Proof.
  split; [|split; [|split]].
  - unfold static_mode. rewrite orb_true_iff, andb_true_iff, Z.leb_le.
    rewrite is_production_spec.
    assert (Hflag : alwaysStatic (parameters env arg) = true <->
              caller_flag arg = Some true
              \/ (caller_flag arg = None /\ NODE_ENV env = Some "production")).
    { rewrite <- is_production_spec.
      destruct arg as [o|]; cbn; [destruct (o_alwaysStatic o) as [[|]|]; cbn|].
      - split; [auto|reflexivity].
      - split; [discriminate|]. intros [H|[H _]]; discriminate.
      - split; [auto|]. intros [H|[_ H]]; [discriminate|exact H].
      - split; [auto|]. intros [H|[_ H]]; [discriminate|exact H]. }
    rewrite Hflag. tauto.
  - destruct arg as [o|]; reflexivity.
  - intros cfg w c. unfold staticPlugin.
    destruct (static_mode env cfg files); [|reflexivity].
    pose proof (for_each_file_trace env cfg files [] w c) as [Hc Ht].
    destruct (for_each_file env cfg files [] w c) as [[[rs|e] c'] l] eqn:Hrun;
      cbn [outcome_of caches_of calls_of fst snd] in Hc, Ht.
    + destruct Ht as [Hl _].
      pose proof (for_each_file_exact _ _ _ _ _ _ _ _ _ Hrun) as Hrs.
      cbn [app] in Hrs. split; [exact Hrs|]. split; [|split; assumption].
      apply List.Forall_forall. intros r Hin.
      rewrite <- list_elem_of_In in Hin.
      destruct (proj1 (proj2 (for_each_file_returned env cfg _ _ _ _ _ _ _ Hrun) r)
                  Hin) as [Hnil|(f & etag & _ & _ & _ & Hin')];
        [apply elem_of_nil in Hnil; contradiction|].
      clear Hin. rename Hin' into Hin.
      destruct (pushed_routes_handler env cfg _ _ _ Hin) as [Hm Hh].
      split; [exact Hm|]. destruct (noCache cfg).
      * rewrite Hh. discriminate.
      * destruct Hh as [key ->]. discriminate.
    + destruct Ht as [-> Hf]. auto.
  - intros cfg f etag. unfold pushed_routes. cbv zeta.
    eexists. split; [reflexivity|].
    destruct (indexHTML cfg && _); cbn; lia.
Qed.

(** ** The route of a file whose extension is stripped *)

(** C9: in static mode with [noExtension], for every enumerated file
    that is not skipped, whose path relative to the assets directory ends
    in [.ext] (an extension without a further dot), the route pushed for
    it has the URL path built from the relative path without [.ext],
    while its handler is built for the file's own path, extension
    included.  On every request the handler works on that file: without
    caching it reads it and answers 200 with its content; with caching
    it asks the evaluator with the ETag and the path of the file,
    answers 304 when the evaluator calls the request fresh, and
    otherwise reads the file and answers 200 with its content (the
    configured record being one that [Headers] keeps as it is).  The
    URL path the file has without the option
    is that route path followed by [.ext]: always where the platform
    separator is not ["/"], and on posix for a file name whose stem is a
    proper segment, which [path.join] keeps as it is. *)
Theorem C9_extension_stripped_from_url_only
    (isCached : World -> Validators -> string -> string -> option bool)
    (env : Env) (cfg : Config) (files : list string)
    (w : World) (c : Caches) (rs : list Route) (c' : Caches) (l : list Call)
    (f base ext : string) :
  noExtension cfg = true ->
  header_record (headers cfg) ->
  static_mode env cfg files = true ->
  staticPlugin env cfg files w c = (Returned rs, c', l) ->
  f ∈ files ->
  skipped cfg f = false ->
  Js.replace f (assetsDir env cfg) "" = base +:+ "." +:+ ext ->
  Js.includes ext "." = false ->
  exists etag r,
    generateETag w f = Some etag
    /\ r ∈ rs
    /\ method r = "GET"
    /\ path r = pathName_of env cfg base
    /\ handler r = (if noCache cfg then StaticNoCache f
                    else StaticCached etag f f)
    /\ (forall req w' c0 resp c1 l1,
          handle isCached env cfg (handler r) req w' c0 = (Returned resp, c1, l1) ->
          status resp = 200 ->
          body resp = readFile w' f /\ is_Some (body resp)
          /\ In (CallReadFile f) l1)
    /\ (forall req w' c0,
          handle isCached env cfg (handler r) req w' c0
          = if noCache cfg then
              match readFile w' f with
              | Some content =>
                  (Returned {| status := 200;
                               response_headers := Fetch.new_Headers (headers cfg);
                               body := Some content |},
                   c0, [CallReadFile f])
              | None => (Threw IOError, c0, [CallReadFile f])
              end
            else
              match isCached w' (parseHeaders req) etag f with
              | None =>
                  (Threw IOError, c0, [CallIsCached (parseHeaders req) etag f])
              | Some true =>
                  (Returned {| status := 304;
                               response_headers := Fetch.new_Headers (headers cfg);
                               body := None |},
                   c0, [CallIsCached (parseHeaders req) etag f])
              | Some false =>
                  match readFile w' f with
                  | Some content =>
                      (Returned {| status := 200;
                                   response_headers :=
                                     Fetch.new_Headers (responseHeaders cfg etag);
                                   body := Some content |},
                       c0, [CallIsCached (parseHeaders req) etag f;
                            CallReadFile f])
                  | None =>
                      (Threw IOError, c0,
                       [CallIsCached (parseHeaders req) etag f; CallReadFile f])
                  end
              end)
    /\ (isFSSepUnsafe env = true ->
        Js.includes ("." +:+ ext) (str (sep env)) = false ->
          pathName_of env cfg (base +:+ "." +:+ ext) = path r +:+ "." +:+ ext)
    /\ (isFSSepUnsafe env = false ->
        forall dir stem,
          base = dir +:+ stem ->
          dir = "" \/ (exists Q, dir = Q +:+ "/") ->
          proper_segment stem ->
          Js.includes stem "/" = false ->
          Js.includes ext "/" = false ->
          pathName_of env cfg (base +:+ "." +:+ ext) = path r +:+ "." +:+ ext).
Proof.
  intros Hne _ Hmode Hbuilt Hf Hskip Hrel Hext.
  destruct (first_route_pushed env cfg _ _ _ _ _ _ _ Hmode Hbuilt Hf Hskip)
    as (etag & He & Hr).
  unfold relativePath_of in Hr.
  rewrite Hne, Hrel, (strip_extension_dot _ _ Hext) in Hr.
  eexists etag, _. split; [exact He|]. split; [exact Hr|].
  simpl. split; [reflexivity|]. split; [reflexivity|]. split; [reflexivity|].
  split; [|split; [|split]].
  - intros req w' c0 resp c1 l1 Hrun Hstatus.
    eapply static_handler_reads; [|exact Hrun|exact Hstatus].
    destruct (noCache cfg); eauto.
  - intros req w' c0. rewrite static_handler_run.
    destruct (noCache cfg); reflexivity.
  - intros Hsep Hsepext. apply pathName_of_extension_other; assumption.
  - intros Hsep dir stem -> Hdir Hstem Hs He'.
    apply pathName_of_extension_posix; assumption.
Qed.

Lemma C9_extension_witness :
  exists etag r,
    generateETag site "/srv/app/public/a.txt" = Some etag
    /\ r ∈ [ {| method := "GET"; path := "/public/a";
                handler := StaticCached "etag(hi)" "/srv/app/public/a.txt"
                             "/srv/app/public/a.txt" |} ]
    /\ method r = "GET"
    /\ path r = pathName_of posix stripping_cfg "/a"
    /\ handler r = (if noCache stripping_cfg
                    then StaticNoCache "/srv/app/public/a.txt"
                    else StaticCached etag "/srv/app/public/a.txt"
                           "/srv/app/public/a.txt")
    /\ (forall req w' c0 resp c1 l1,
          handle isCached_spec posix stripping_cfg (handler r) req w' c0
          = (Returned resp, c1, l1) ->
          status resp = 200 ->
          body resp = readFile w' "/srv/app/public/a.txt"
          /\ is_Some (body resp)
          /\ In (CallReadFile "/srv/app/public/a.txt") l1)
    /\ (forall req w' c0,
          handle isCached_spec posix stripping_cfg (handler r) req w' c0
          = match isCached_spec w' (parseHeaders req) etag "/srv/app/public/a.txt" with
            | None =>
                (Threw IOError, c0,
                 [CallIsCached (parseHeaders req) etag "/srv/app/public/a.txt"])
            | Some true =>
                (Returned {| status := 304;
                             response_headers := Fetch.new_Headers ∅;
                             body := None |},
                 c0, [CallIsCached (parseHeaders req) etag "/srv/app/public/a.txt"])
            | Some false =>
                match readFile w' "/srv/app/public/a.txt" with
                | Some content =>
                    (Returned {| status := 200;
                                 response_headers :=
                                   Fetch.new_Headers
                                     (responseHeaders stripping_cfg etag);
                                 body := Some content |},
                     c0, [CallIsCached (parseHeaders req) etag "/srv/app/public/a.txt";
                          CallReadFile "/srv/app/public/a.txt"])
                | None =>
                    (Threw IOError, c0,
                     [CallIsCached (parseHeaders req) etag "/srv/app/public/a.txt";
                      CallReadFile "/srv/app/public/a.txt"])
                end
            end)
    /\ (isFSSepUnsafe posix = true ->
        Js.includes ("." +:+ "txt") (str (sep posix)) = false ->
          pathName_of posix stripping_cfg ("/a" +:+ "." +:+ "txt")
          = path r +:+ "." +:+ "txt")
    /\ (isFSSepUnsafe posix = false ->
        forall dir stem,
          "/a" = dir +:+ stem ->
          dir = "" \/ (exists Q, dir = Q +:+ "/") ->
          proper_segment stem ->
          Js.includes stem "/" = false ->
          Js.includes "txt" "/" = false ->
          pathName_of posix stripping_cfg ("/a" +:+ "." +:+ "txt")
          = path r +:+ "." +:+ "txt").
Proof.
  apply (C9_extension_stripped_from_url_only isCached_spec posix stripping_cfg
           ["/srv/app/public/a.txt"] site no_caches
           [ {| method := "GET"; path := "/public/a";
                handler := StaticCached "etag(hi)" "/srv/app/public/a.txt"
                             "/srv/app/public/a.txt" |} ]
           no_caches [CallGenerateETag "/srv/app/public/a.txt"]
           "/srv/app/public/a.txt" "/a" "txt").
  - reflexivity.
  - split; constructor.
  - reflexivity.
  - vm_compute. reflexivity.
  - apply list_elem_of_here.
  - reflexivity.
  - reflexivity.
  - reflexivity.
Defined.

(** ** The calls of the enumeration *)

Lemma has_entry_name es name child :
  has_entry es name child -> In name (entry_names es).
Proof.
  induction 1; cbn [entry_names]; [left; reflexivity|right; assumption].
Qed.

Lemma has_entry_calls env dir es name es' call :
  has_entry es name (Directory es') ->
  In call (listFiles_calls env (dir +:+ str (sep env) +:+ name) (Directory es')) ->
  In call (entries_calls env dir es).
Proof.
  intros H. remember (Directory es') as child eqn:Hchild.
  induction H as [name child rest|name child name' child' rest H IH];
    intros Hin; cbn [entries_calls]; apply in_or_app.
  - left. subst child. exact Hin.
  - right. apply IH; assumption.
Qed.

Lemma listFiles_calls_directory env dir es :
  listFiles_calls env dir (Directory es)
  = CallReaddir dir
    :: (((fun name => CallStat (dir +:+ str (sep env) +:+ name)) <$> entry_names es)
        ++ entries_calls env dir es)%list.
Proof. reflexivity. Qed.

(** Every file of the tree has been [stat]ed at the path the
    enumeration builds for it. *)
Lemma file_at_stat env n names :
  file_at n names ->
  forall dir, In (CallStat (path_under env dir names)) (listFiles_calls env dir n).
Proof.
  induction 1 as [es name Hentry|es name child names Hentry Hat IH]; intros dir;
    rewrite listFiles_calls_directory; right; apply in_or_app.
  - left. apply list_elem_of_In, list_elem_of_fmap.
    exists name. split; [reflexivity|].
    apply list_elem_of_In, (has_entry_name _ _ _ Hentry).
  - right. destruct Hat as [es' name' H'|es' name' child' names' H' Hat'].
    + apply (has_entry_calls _ _ _ _ _ _ Hentry), (IH _).
    + apply (has_entry_calls _ _ _ _ _ _ Hentry), (IH _).
Qed.

Lemma stats_only env dir names :
  forallb (fun call => is_CallStat call || is_CallReaddir call)
    ((fun name => CallStat (dir +:+ str (sep env) +:+ name)) <$> names) = true.
Proof. induction names as [|name names IH]; [reflexivity|exact IH]. Qed.

Lemma listFiles_calls_only env :
  (forall n dir,
     forallb (fun call => is_CallStat call || is_CallReaddir call)
       (listFiles_calls env dir n) = true)
  /\ (forall es dir,
        forallb (fun call => is_CallStat call || is_CallReaddir call)
          (entries_calls env dir es) = true).
Proof.
  apply Node_Entries_ind.
  - reflexivity.
  - intros es IH dir. rewrite listFiles_calls_directory.
    cbn [forallb is_CallStat is_CallReaddir orb andb].
    rewrite forallb_app, stats_only, IH. reflexivity.
  - reflexivity.
  - reflexivity.
  - reflexivity.
  - intros name child IHc rest IHr dir. cbn [entries_calls].
    rewrite forallb_app, IHr, andb_true_r.
    destruct child; [reflexivity|apply IHc|apply IHc|reflexivity].
Qed.


(** ** Requests that find nothing *)

Section Refusals.

Variable isCached : World -> Validators -> string -> string -> option bool.
Variable env : Env.
Variable cfg : Config.

Lemma stat_hit_refused req path w c s expires :
  request_path env cfg req w c = (Returned path, c, []) ->
  truthy (shouldIgnore cfg path) = false ->
  statCache c !! path = Some (s, expires) ->
  negb (expires =? 0) && (expires <? now w) = false ->
  indexHTML cfg = false ->
  isDirectory s = true ->
  wildcard_handler isCached env cfg req w c = (Threw NotFoundError, c, []).
Proof.
  intros Hp Hig Hs Hlive Hindex Hdir.
  rewrite (wildcard_try isCached env cfg _ _ _ _ Hp Hig).
  apply try_catch_threw with (e := NotFoundError).
  rewrite (bind_pure _ _ _ _ _ (statCache_get_hit _ _ _ _ _ Hs Hlive)).
  unfold bind at 1. cbn [ret]. rewrite Hindex, Hdir. reflexivity.
Qed.

(** X16: what a request that finds nothing leaves behind, for a path
    in neither cache and a stat cache with room.  When [stat] rejects
    the path the handler throws [NotFoundError] after that one call and
    the three caches are as before, so the next request asks [stat]
    again.  When the path is a directory, line 318 has stored its
    [Stats] before the tests that refuse it, and only the stat cache has
    changed.  With [indexHTML] off the handler throws after the one
    [stat], and as long as the entry lives a later request for the path
    is refused from the stat cache without a call, whatever the file
    system holds by then.  With [indexHTML] on and no [index.html] in
    the directory the handler throws after asking for the index file,
    and a later request asks for the index file again. *)
Theorem not_found_is_not_cached
    (req : Request) (w : World) (c : Caches) (path : string) :
  request_path env cfg req w c = (Returned path, c, []) ->
  truthy (shouldIgnore cfg path) = false ->
  statCache c !! path = None ->
  fileCache c !! path = None ->
  (size (statCache c) < NodeCache.maxKeys)%nat ->
  (stat w path = None ->
   wildcard_handler isCached env cfg req w c
   = (Threw NotFoundError, c, [CallStat path]))
  /\ forall s,
       stat w path = Some s ->
       isDirectory s = true ->
       (indexHTML cfg = false ->
        wildcard_handler isCached env cfg req w c
        = (Threw NotFoundError, with_stat c path s (now w), [CallStat path])
        /\ forall w',
             now w' <= now w + NodeCache.stdTTL * 1000 ->
             wildcard_handler isCached env cfg req w' (with_stat c path s (now w))
             = (Threw NotFoundError, with_stat c path s (now w), []))
       /\ (indexHTML cfg = true ->
           htmlCache c !! (path +:+ str (sep env) +:+ "index.html") = None ->
           stat w (path +:+ str (sep env) +:+ "index.html") = None ->
           wildcard_handler isCached env cfg req w c
           = (Threw NotFoundError, with_stat c path s (now w),
              [CallStat path;
               CallStat (path +:+ str (sep env) +:+ "index.html")])
           /\ forall w',
                now w' <= now w + NodeCache.stdTTL * 1000 ->
                stat w' (path +:+ str (sep env) +:+ "index.html") = None ->
                wildcard_handler isCached env cfg req w'
                  (with_stat c path s (now w))
                = (Threw NotFoundError, with_stat c path s (now w),
                   [CallStat (path +:+ str (sep env) +:+ "index.html")])).
Proof.
  intros Hp Hig Hsm Hfm Hroom. split.
  { intros Hs. rewrite (cold_path isCached env cfg _ _ _ _ Hp Hig Hsm).
    apply try_catch_threw with (e := IOError).
    apply bind_threw. rewrite status_step_cases, Hs. reflexivity. }
  intros s Hs Hd.
  assert (Hstep :
    (s0 <- await_stat path ;; statCache_set path s0 ;;; ret s0) w c
    = (Returned s, with_stat c path s (now w), [CallStat path]))
    by (apply status_step_run; assumption).
  assert (Hp' : forall w', request_path env cfg req w' (with_stat c path s (now w))
                           = (Returned path, with_stat c path s (now w), []))
    by (intros w'; apply (request_path_pure env cfg _ _ _ _ _ _ Hp)).
  assert (Hhit : statCache (with_stat c path s (now w)) !! path
                 = Some (s, now w + NodeCache.stdTTL * 1000))
    by apply lookup_insert_eq.
  assert (Hlive : forall w', now w' <= now w + NodeCache.stdTTL * 1000 ->
            negb (now w + NodeCache.stdTTL * 1000 =? 0)
            && (now w + NodeCache.stdTTL * 1000 <? now w') = false).
  { intros w' Hle. apply andb_false_iff. right. apply Z.ltb_ge. exact Hle. }
  split.
  - intros Hindex. split.
    + rewrite (cold_path isCached env cfg _ _ _ _ Hp Hig Hsm).
      apply try_catch_threw with (e := NotFoundError).
      rewrite (bind_run _ _ _ _ _ _ _ Hstep). cbv beta.
      rewrite Hindex, Hd. reflexivity.
    + intros w' Hle.
      apply (stat_hit_refused _ _ _ _ _ _ (Hp' w') Hig Hhit (Hlive w' Hle)
               Hindex Hd).
  - intros Hindex Hhm Hi.
    assert (Hres : forall w',
              stat w' (path +:+ str (sep env) +:+ "index.html") = None ->
              resolve_filePath env cfg path s w' (with_stat c path s (now w))
              = (Threw NotFoundError, with_stat c path s (now w),
                 [CallStat (path +:+ str (sep env) +:+ "index.html")])).
    { intros w' Hi'. rewrite resolve_filePath_miss by exact Hfm.
      cbv zeta. rewrite Hd, Hindex.
      cbn [htmlCache fileCache statCache with_stat].
      rewrite (get_miss _ _ _ Hhm). cbn [default]. rewrite Hi'.
      rewrite bool_decide_eq_false_2 by (intros [x Hx]; discriminate).
      reflexivity. }
    split.
    + rewrite (cold_path isCached env cfg _ _ _ _ Hp Hig Hsm).
      apply try_catch_threw with (e := NotFoundError).
      rewrite (bind_run _ _ _ _ _ _ _ Hstep). cbv beta.
      rewrite Hd, Hindex. cbn [negb andb].
      rewrite (bind_threw _ _ _ _ _ _ _ (Hres w Hi)). reflexivity.
    + intros w' Hle Hi'.
      rewrite (wildcard_try isCached env cfg _ _ _ _ (Hp' w') Hig).
      apply try_catch_threw with (e := NotFoundError).
      rewrite (bind_pure _ _ _ _ _
                 (statCache_get_hit _ _ _ _ _ Hhit (Hlive w' Hle))).
      unfold bind at 1. cbn [ret]. rewrite Hd, Hindex. cbn [negb andb].
      rewrite (bind_threw _ _ _ _ _ _ _ (Hres w' Hi')). reflexivity.
Qed.

End Refusals.

Lemma not_found_witness :
  (stat site "public/html" = None ->
   wildcard_handler isCached_spec posix no_index_cfg
     (GET "/public/html" no_validators) site no_caches
   = (Threw NotFoundError, no_caches, [CallStat "public/html"]))
  /\ forall s,
       stat site "public/html" = Some s ->
       isDirectory s = true ->
       (indexHTML no_index_cfg = false ->
        wildcard_handler isCached_spec posix no_index_cfg
          (GET "/public/html" no_validators) site no_caches
        = (Threw NotFoundError, with_stat no_caches "public/html" s (now site),
           [CallStat "public/html"])
        /\ forall w',
             now w' <= now site + NodeCache.stdTTL * 1000 ->
             wildcard_handler isCached_spec posix no_index_cfg
               (GET "/public/html" no_validators) w'
               (with_stat no_caches "public/html" s (now site))
             = (Threw NotFoundError,
                with_stat no_caches "public/html" s (now site), []))
       /\ (indexHTML no_index_cfg = true ->
           htmlCache no_caches
             !! ("public/html" +:+ str (sep posix) +:+ "index.html") = None ->
           stat site ("public/html" +:+ str (sep posix) +:+ "index.html") = None ->
           wildcard_handler isCached_spec posix no_index_cfg
             (GET "/public/html" no_validators) site no_caches
           = (Threw NotFoundError,
              with_stat no_caches "public/html" s (now site),
              [CallStat "public/html";
               CallStat ("public/html" +:+ str (sep posix) +:+ "index.html")])
           /\ forall w',
                now w' <= now site + NodeCache.stdTTL * 1000 ->
                stat w' ("public/html" +:+ str (sep posix) +:+ "index.html") = None ->
                wildcard_handler isCached_spec posix no_index_cfg
                  (GET "/public/html" no_validators) w'
                  (with_stat no_caches "public/html" s (now site))
                = (Threw NotFoundError,
                   with_stat no_caches "public/html" s (now site),
                   [CallStat ("public/html" +:+ str (sep posix) +:+ "index.html")])).
Proof.
  apply (not_found_is_not_cached isCached_spec posix no_index_cfg
           (GET "/public/html" no_validators) site no_caches "public/html").
  - reflexivity.
  - reflexivity.
  - reflexivity.
  - reflexivity.
  - vm_compute. lia.
Defined.
